(** * Registry: storage abstraction, query layer and HTTP boundary

    A shallow embedding of the Go sources of the registry service:
    - [internal/service] (registryServiceImpl: GetAll, List, GetByID, Publish,
      Search, SearchDetails, escapeRegex),
    - [internal/api/handlers/v0] (SearchHandler in both of its revisions,
      PublishOSSHandler, extractGitHubRepo, generateServerID),
    - [internal/auth] (ephemeral tokens, ParseAuthorizationHeader).

    The service talks to [database.Database] and the handlers talk to
    [service.RegistryService]; both are Go interfaces.  A program using an
    interface is a tree of interface calls ([Prog]); which calls a function
    makes, in which order and with which arguments, is then a property of
    the tree, and any implementation of the interface can run it. *)

From Stdlib Require Import ZArith String Ascii List Bool Lia.
From stdpp Require Import base gmap strings list.
Import ListNotations.

Local Open Scope string_scope.
Local Open Scope Z_scope.

(* ===================================================================== *)
(** ** Go standard library functions used by the sources                  *)
(* ===================================================================== *)

(** Go strings are byte sequences; [string] is a list of 8-bit [ascii]. *)

Definition ascii_eqb (a b : ascii) : bool := Ascii.eqb a b.

(** [strings.HasPrefix(s, prefix)] *)
Definition strings_HasPrefix (s prefix : string) : bool := String.prefix prefix s.

(** [strings.Contains(s, substr)] *)
Fixpoint strings_Contains (s substr : string) : bool :=
  String.prefix substr s ||
  match s with
  | EmptyString => false
  | String _ s' => strings_Contains s' substr
  end.

(** [s[n:]] for [n <= len(s)] *)
Fixpoint string_drop (n : nat) (s : string) : string :=
  match n, s with
  | O, _ => s
  | S n', String _ s' => string_drop n' s'
  | S _, EmptyString => EmptyString
  end.

(** [s[:n]] for [n <= len(s)] *)
Fixpoint string_take (n : nat) (s : string) : string :=
  match n, s with
  | O, _ => EmptyString
  | S n', String c s' => String c (string_take n' s')
  | S _, EmptyString => EmptyString
  end.

(** [strings.TrimPrefix(s, prefix)] *)
Definition strings_TrimPrefix (s prefix : string) : string :=
  if strings_HasPrefix s prefix then string_drop (String.length prefix) s else s.

(** [strings.HasSuffix(s, suffix)] *)
Definition strings_HasSuffix (s suffix : string) : bool :=
  (String.length suffix <=? String.length s)%nat &&
  String.eqb (string_drop (String.length s - String.length suffix) s) suffix.

(** [strings.TrimSuffix(s, suffix)] *)
Definition strings_TrimSuffix (s suffix : string) : string :=
  if strings_HasSuffix s suffix
  then string_take (String.length s - String.length suffix) s
  else s.

(** [strings.Split(s, sep)] for a one-byte separator: the fields between
    the occurrences of [sep]; always at least one field. *)
Fixpoint strings_Split1 (s : string) (sep : ascii) : list string :=
  match s with
  | EmptyString => [EmptyString]
  | String c s' =>
      if ascii_eqb c sep then EmptyString :: strings_Split1 s' sep
      else match strings_Split1 s' sep with
           | f :: fs => String c f :: fs
           | [] => [String c EmptyString]
           end
  end.

(** Upper-casing of one ASCII byte, as [strings.ToUpper] does on ASCII text. *)
Definition ascii_upper (c : ascii) : ascii :=
  let n := nat_of_ascii c in
  if ((97 <=? n) && (n <=? 122))%nat then ascii_of_nat (n - 32) else c.

Definition ascii_lower (c : ascii) : ascii :=
  let n := nat_of_ascii c in
  if ((65 <=? n) && (n <=? 90))%nat then ascii_of_nat (n + 32) else c.

Fixpoint string_map (f : ascii -> ascii) (s : string) : string :=
  match s with
  | EmptyString => EmptyString
  | String c s' => String (f c) (string_map f s')
  end.

Definition strings_ToUpper_ascii (s : string) : string := string_map ascii_upper s.
Definition strings_ToLower_ascii (s : string) : string := string_map ascii_lower s.

(** *** strconv.Atoi

    An optional sign followed by one or more decimal digits; the value must
    fit the 64-bit [int].  Anything else is an error ([None]). *)

Definition int_min : Z := - 2 ^ 63.
Definition int_max : Z := 2 ^ 63 - 1.

Definition digit_of (c : ascii) : option Z :=
  let n := nat_of_ascii c in
  if ((48 <=? n) && (n <=? 57))%nat then Some (Z.of_nat (n - 48)) else None.

Fixpoint parse_digits (acc : Z) (s : string) : option Z :=
  match s with
  | EmptyString => Some acc
  | String c s' =>
      match digit_of c with
      | Some d => parse_digits (acc * 10 + d) s'
      | None => None
      end
  end.

Definition parse_unsigned (s : string) : option Z :=
  match s with
  | EmptyString => None
  | _ => parse_digits 0 s
  end.

Definition strconv_Atoi (s : string) : option Z :=
  let signed :=
    match s with
    | String "-" s' => option_map Z.opp (parse_unsigned s')
    | String "+" s' => parse_unsigned s'
    | _ => parse_unsigned s
    end in
  match signed with
  | Some n => if (int_min <=? n) && (n <=? int_max) then Some n else None
  | None => None
  end.

(** [strconv.Itoa] *)
Fixpoint itoa_pos (fuel : nat) (n : Z) (acc : string) : string :=
  match fuel with
  | O => acc
  | S fuel' =>
      let acc' := String (ascii_of_nat (48 + Z.to_nat (n mod 10))) acc in
      if n <? 10 then acc' else itoa_pos fuel' (n / 10) acc'
  end.

Definition strconv_Itoa (n : Z) : string :=
  if n <? 0 then String "-" (itoa_pos 20 (- n) EmptyString)
  else itoa_pos 20 n EmptyString.

(** *** regexp.QuoteMeta

    The bytes the regular-expression syntax gives a meaning to; QuoteMeta
    puts a backslash before each of them and copies every other byte. *)

Definition specialBytes : string := "\.+*?()|[]{}^$".

Fixpoint string_mem (c : ascii) (s : string) : bool :=
  match s with
  | EmptyString => false
  | String d s' => ascii_eqb c d || string_mem c s'
  end.

Definition special (b : ascii) : bool := string_mem b specialBytes.

Fixpoint regexp_QuoteMeta (s : string) : string :=
  match s with
  | EmptyString => EmptyString
  | String b s' =>
      if special b then String "\" (String b (regexp_QuoteMeta s'))
      else String b (regexp_QuoteMeta s')
  end.

(** *** encoding/base64, StdEncoding

    Three bytes make four characters of the alphabet; one or two bytes left
    over make two or three characters and are padded with "=" to four. *)

Definition encodeStd : string :=
  "ABCDEFGHIJKLMNOPQRSTUVWXYZabcdefghijklmnopqrstuvwxyz0123456789+/".

(** The character of a six-bit value. *)
Definition b64_char (n : nat) : ascii :=
  match String.get n encodeStd with
  | Some c => c
  | None => "="%char
  end.

(** The six-bit value of a character of the alphabet. *)
Definition b64_value (c : ascii) : option nat :=
  let n := nat_of_ascii c in
  if ((65 <=? n) && (n <=? 90))%nat then Some (n - 65)%nat
  else if ((97 <=? n) && (n <=? 122))%nat then Some (n - 71)%nat
  else if ((48 <=? n) && (n <=? 57))%nat then Some (n + 4)%nat
  else if (n =? 43)%nat then Some 62%nat
  else if (n =? 47)%nat then Some 63%nat
  else None.

Definition is_pad (c : ascii) : bool := ascii_eqb c "="%char.

(** [base64.StdEncoding.EncodeToString] *)
Fixpoint base64_EncodeToString (src : string) : string :=
  match src with
  | EmptyString => EmptyString
  | String a EmptyString =>
      let x := nat_of_ascii a in
      String (b64_char (x / 4)) (String (b64_char (x mod 4 * 16)) "==")
  | String a (String b EmptyString) =>
      let x := nat_of_ascii a in
      let y := nat_of_ascii b in
      String (b64_char (x / 4))
        (String (b64_char (x mod 4 * 16 + y / 16))
           (String (b64_char (y mod 16 * 4)) "="))
  | String a (String b (String c rest)) =>
      let x := nat_of_ascii a in
      let y := nat_of_ascii b in
      let z := nat_of_ascii c in
      String (b64_char (x / 4))
        (String (b64_char (x mod 4 * 16 + y / 16))
           (String (b64_char (y mod 16 * 4 + z / 64))
              (String (b64_char (z mod 64)) (base64_EncodeToString rest))))
  end%nat.

(** Line breaks in the input are skipped by the decoder. *)
Fixpoint drop_newlines (s : string) : string :=
  match s with
  | EmptyString => EmptyString
  | String c s' =>
      if ascii_eqb c "010"%char || ascii_eqb c "013"%char then drop_newlines s'
      else String c (drop_newlines s')
  end.

(** Groups of four characters; padding only closes the last group; the
    bits left over in a padded group are not checked. *)
Fixpoint decode_quanta (s : string) : option string :=
  match s with
  | EmptyString => Some EmptyString
  | String a (String b (String c (String d rest))) =>
      match b64_value a, b64_value b with
      | Some x, Some y =>
          if is_pad c then
            if is_pad d && String.eqb rest "" then
              Some (String (ascii_of_nat (x * 4 + y / 16)) EmptyString)
            else None
          else
            match b64_value c with
            | Some z =>
                if is_pad d then
                  if String.eqb rest "" then
                    Some (String (ascii_of_nat (x * 4 + y / 16))
                            (String (ascii_of_nat (y mod 16 * 16 + z / 4))
                               EmptyString))
                  else None
                else
                  match b64_value d with
                  | Some w =>
                      option_map
                        (fun out =>
                           String (ascii_of_nat (x * 4 + y / 16))
                             (String (ascii_of_nat (y mod 16 * 16 + z / 4))
                                (String (ascii_of_nat (z mod 4 * 64 + w)) out)))
                        (decode_quanta rest)
                  | None => None
                  end
            | None => None
            end
      | _, _ => None
      end
  | _ => None
  end%nat.

(* ===================================================================== *)
(** ** Package model: the record schema                                   *)
(* ===================================================================== *)

Record Repository := mkRepository {
  Repository_URL : string;
  Repository_Source : string;
  Repository_ID : string }.

Record VersionDetail := mkVersionDetail {
  Version : string;
  ReleaseDate : string;
  IsLatest : bool }.

Record Server := mkServer {
  Server_ID : string;
  Server_Name : string;
  Server_Description : string;
  Server_Repository : Repository;
  Server_VersionDetail : VersionDetail }.

Record Package := mkPackage {
  Package_RegistryName : string;
  Package_Name : string;
  Package_Version : string }.

Record Remote := mkRemote {
  Remote_TransportType : string;
  Remote_URL : string }.

(** [ServerDetail] embeds [Server]. *)
Record ServerDetail := mkServerDetail {
  Detail_Server : Server;
  Packages : list Package;
  Remotes : list Remote }.

Record PublishOSSRequest := mkPublishOSSRequest {
  RepositoryURL : string;
  Req_Packages : list Package;
  Owner : string;
  Repo : string }.

(* ===================================================================== *)
(** ** Errors                                                             *)
(* ===================================================================== *)

(** Go [error] values: the sentinels of package [database] the sources
    refer to, and errors made from a text ([errors.New], [fmt.Errorf]). *)
Inductive error : Type :=
| ErrNotFound
| ErrAlreadyExists
| ErrInvalidInput
| ErrInvalidVersion
| errors_New (text : string).

(** [base64.StdEncoding.DecodeString]; on corrupt input the bytes decoded
    so far are not kept here, no caller looks at them. *)
Definition base64_DecodeString (s : string) : string * option error :=
  match decode_quanta (drop_newlines s) with
  | Some out => (out, None)
  | None => ("", Some (errors_New "illegal base64 data"))
  end.

(* ===================================================================== *)
(** ** Programs over an interface                                         *)
(* ===================================================================== *)

(** [Prog E R]: a computation that returns an [R] and whose only effects
    are calls of the interface [E]; [E X] is a call that answers an [X]. *)
Inductive Prog (E : Type -> Type) (R : Type) : Type :=
| Ret (r : R)
| Call {X : Type} (e : E X) (k : X -> Prog E R).

Arguments Ret {E R} r.
Arguments Call {E R X} e k.

Fixpoint Prog_bind {E A B} (f : A -> Prog E B) (p : Prog E A) : Prog E B :=
  match p with
  | Ret a => f a
  | Call e k => Call e (fun x => Prog_bind f (k x))
  end.

#[global] Instance Prog_mret E : MRet (Prog E) := fun _ r => Ret r.
#[global] Instance Prog_mbind E : MBind (Prog E) := fun _ _ f p => Prog_bind f p.

(** One interface call. *)
Definition call {E X} (e : E X) : Prog E X := Call e Ret.

(** A call together with the answer it got. *)
Inductive Event (E : Type -> Type) : Type :=
| Ev {X : Type} (e : E X) (x : X).
Arguments Ev {E X} e x.

(** An implementation of [E] over a state [S]. *)
Definition Impl (E : Type -> Type) (S : Type) : Type :=
  forall X, E X -> S -> X * S.

(** Running a program against an implementation: the result, the final
    state, and the calls made, oldest first. *)
Fixpoint exec {E S R} (h : Impl E S) (p : Prog E R) (s : S)
  : R * S * list (Event E) :=
  match p with
  | Ret r => (r, s, [])
  | Call e k =>
      let '(x, s1) := h _ e s in
      let '(r, s2, tr) := exec h (k x) s1 in
      (r, s2, Ev e x :: tr)
  end.

Definition result_of {R S E} (o : R * S * list (Event E)) : R := o.1.1.
Definition state_of {R S E} (o : R * S * list (Event E)) : S := o.1.2.
Definition trace_of {R S E} (o : R * S * list (Event E)) : list (Event E) := o.2.

(** Implementing one interface by programs over another. *)
Fixpoint interp {E F R} (impl : forall X, E X -> Prog F X) (p : Prog E R)
  : Prog F R :=
  match p with
  | Ret r => Ret r
  | Call e k => Prog_bind (fun x => interp impl (k x)) (impl _ e)
  end.

(* ===================================================================== *)
(** ** Package database: the interface of the backing store               *)
(* ===================================================================== *)

(** Filter values as the service builds them: a string, a nested document
    or an array. *)
#[local] Set Warnings "-register-all".
Inductive bson : Type :=
| BStr (s : string)
| BDoc (fields : list (string * bson))
| BArr (items : list bson).

(** [map[string]interface{}]; a nil map reads as the empty map. *)
Abbreviation Filter := (gmap string bson).

Definition nil_filter : Filter := ∅.

(** [database.Database]; every method also takes a context carrying the
    caller's deadline, which only shows in the error a call answers. *)
Inductive Database : Type -> Type :=
| db_List (filter : Filter) (cursor : string) (limit : Z)
    : Database (list Server * string * option error)
| db_GetByID (id : string)
    : Database (option ServerDetail * option error)
| db_ListDetails (filter : Filter) (cursor : string) (limit : Z)
    : Database (list ServerDetail * string * option error)
| db_Publish (serverDetail : ServerDetail)
    : Database (option error).

(** The call without its answer type, for statements about traces. *)
Inductive DBCall : Type :=
| CList (filter : Filter) (cursor : string) (limit : Z)
| CGetByID (id : string)
| CListDetails (filter : Filter) (cursor : string) (limit : Z)
| CPublish (serverDetail : ServerDetail).

Definition db_call_of {X} (e : Database X) : DBCall :=
  match e with
  | db_List f c l => CList f c l
  | db_GetByID id => CGetByID id
  | db_ListDetails f c l => CListDetails f c l
  | db_Publish sd => CPublish sd
  end.

Definition db_calls (tr : list (Event Database)) : list DBCall :=
  List.map (fun ev => match ev with Ev e _ => db_call_of e end) tr.

(** The filter and the limit of a listing call. *)
Definition call_filter (c : DBCall) : option Filter :=
  match c with
  | CList f _ _ | CListDetails f _ _ => Some f
  | _ => None
  end.

Definition call_limit (c : DBCall) : option Z :=
  match c with
  | CList _ _ l | CListDetails _ _ l => Some l
  | _ => None
  end.

(* ===================================================================== *)
(** ** Package service: registryServiceImpl                               *)
(* ===================================================================== *)

Module service.

(** Every method first makes a context with a five-second deadline for its
    database calls and copies the entries the database answers out of their
    pointers; on values the copy is the identity. *)

(** escapeRegex escapes special regex characters to prevent regex injection *)
Definition escapeRegex (input : string) : string := regexp_QuoteMeta input.

(** The three case-insensitive regex clauses of the fallback search. *)
Definition regex_clause (field escapedQuery : string) : bson :=
  BDoc [(field, BDoc [("$regex", BStr escapedQuery); ("$options", BStr "i")])].

(** GetAll returns all registry entries *)
Definition GetAll : Prog Database (list Server * option error) :=
  '(entries, _, err) ← call (db_List nil_filter "" 30);
  match err with
  | Some e => mret ([], Some e)
  | None => mret (entries, None)
  end.

(** List returns registry entries with cursor-based pagination *)
Definition List (cursor : string) (limit : Z)
  : Prog Database (list Server * string * option error) :=
  let limit := if limit <=? 0 then 30 else limit in
  '(entries, nextCursor, err) ← call (db_List nil_filter cursor limit);
  match err with
  | Some e => mret ([], "", Some e)
  | None => mret (entries, nextCursor, None)
  end.

(** GetByID retrieves a specific server detail by its ID *)
Definition GetByID (id : string)
  : Prog Database (option ServerDetail * option error) :=
  '(serverDetail, err) ← call (db_GetByID id);
  match err with
  | Some e => mret (None, Some e)
  | None => mret (serverDetail, None)
  end.

(** Publish adds a new server detail to the registry; the argument is a
    pointer, [None] being nil. *)
Definition Publish (serverDetail : option ServerDetail)
  : Prog Database (option error) :=
  match serverDetail with
  | None => mret (Some ErrInvalidInput)
  | Some sd =>
      err ← call (db_Publish sd);
      match err with
      | Some e => mret (Some e)
      | None => mret None
      end
  end.

(** Search searches for servers by name with optional registry_name filter *)
Definition Search (query registryName url cursor : string) (limit : Z)
  : Prog Database (list Server * string * option error) :=
  let limit := if limit <=? 0 then 30 else limit in
  let filter : Filter := ∅ in
  let filter :=
    if negb (String.eqb query "")
    then <["$text" := BDoc [("$search", BStr query)]]> filter else filter in
  let filter :=
    if negb (String.eqb registryName "")
    then <["packages.registry_name" := BStr registryName]> filter else filter in
  let filter :=
    if negb (String.eqb url "")
    then <["repository.url" := BStr url]> filter else filter in
  '(entries, nextCursor, err) ← call (db_List filter cursor limit);
  match err with
  | Some e => mret ([], "", Some e)
  | None => mret (entries, nextCursor, None)
  end.

(** SearchDetails searches for servers by name with optional registry_name
    filter and returns full details *)
Definition SearchDetails (query registryName url cursor : string) (limit : Z)
  : Prog Database (list ServerDetail * string * option error) :=
  let limit := if limit <=? 0 then 30 else limit in
  let filter : Filter := ∅ in
  let filter :=
    if negb (String.eqb query "")
    then <["$text" := BDoc [("$search", BStr query)]]> filter else filter in
  let filter :=
    if negb (String.eqb registryName "")
    then <["packages.registry_name" := BStr registryName]> filter else filter in
  let filter :=
    if negb (String.eqb url "")
    then <["repository.url" := BStr url]> filter else filter in
  '(entries, nextCursor, err) ← call (db_ListDetails filter cursor limit);
  match err with
  | Some e => mret ([], "", Some e)
  | None =>
      if (Nat.eqb (List.length entries) 0) && negb (String.eqb query "") then
        let filter := delete "$text" filter in
        let escapedQuery := escapeRegex query in
        let filter :=
          <["$or" := BArr [regex_clause "name" escapedQuery;
                           regex_clause "description" escapedQuery;
                           regex_clause "packages.name" escapedQuery]]> filter in
        '(entries, nextCursor, err) ← call (db_ListDetails filter cursor limit);
        match err with
        | Some e => mret ([], "", Some e)
        | None => mret (entries, nextCursor, None)
        end
      else mret (entries, nextCursor, None)
  end.

End service.

(** ** service.RegistryService: the interface the handlers are given *)
Inductive RegistryService : Type -> Type :=
| reg_List (cursor : string) (limit : Z)
    : RegistryService (list Server * string * option error)
| reg_GetByID (id : string)
    : RegistryService (option ServerDetail * option error)
| reg_Publish (serverDetail : option ServerDetail)
    : RegistryService (option error)
| reg_Search (query registryName url cursor : string) (limit : Z)
    : RegistryService (list Server * string * option error)
| reg_SearchDetails (query registryName url cursor : string) (limit : Z)
    : RegistryService (list ServerDetail * string * option error).

(** [registryServiceImpl] implements [RegistryService] over the database. *)
Definition registryServiceImpl X (e : RegistryService X) : Prog Database X :=
  match e with
  | reg_List cursor limit => service.List cursor limit
  | reg_GetByID id => service.GetByID id
  | reg_Publish sd => service.Publish sd
  | reg_Search q rn u c l => service.Search q rn u c l
  | reg_SearchDetails q rn u c l => service.SearchDetails q rn u c l
  end.

(* ===================================================================== *)
(** ** Package auth: ephemeral tokens                                     *)
(* ===================================================================== *)

(** [time.Time] is an instant, [time.Duration] a difference of instants,
    both counted in nanoseconds. *)
Abbreviation Time := Z.
Abbreviation Duration := Z.

(** EphemeralTokenClaims represents the claims in an ephemeral token *)
Record EphemeralTokenClaims := mkClaims {
  GitHubUserID : string;
  GitHubUsername : string;
  IssuedAt : Time;
  ExpiresAt : Time;
  Nonce : string }.

(** EphemeralToken represents a signed ephemeral token *)
Record EphemeralToken := mkToken {
  Claims : EphemeralTokenClaims;
  Signature : string }.

(** The text of an error made by [fmt.Errorf(prefix + ": %w", err)]
    depends on the text of [err]; [Error] is the method [err.Error()],
    given the texts of the sentinels, which package [database] declares. *)
Definition Error (sentinel_text : error -> string) (e : error) : string :=
  match e with
  | errors_New text => text
  | s => sentinel_text s
  end.

Module auth.

(** ParseAuthorizationHeader extracts the token from an Authorization
    header.  The seven bytes compared with "BEARER " upper-case to it only
    when they are ASCII, so the ASCII upper-casing decides the test. *)
Definition ParseAuthorizationHeader (authHeader : string) : string :=
  if String.eqb authHeader "" then ""
  else if (7 <? String.length authHeader)%nat
          && String.eqb (strings_ToUpper_ascii (string_take 7 authHeader)) "BEARER "
       then string_drop 7 authHeader
       else authHeader.

Section Ephemeral.
(** The libraries the token code calls. *)
Variable hmac_sha256 : string -> string -> string.
  (* hmac.New(sha256.New, key); h.Write(msg); h.Sum(nil) *)
Variable json_Marshal_claims : EphemeralTokenClaims -> string * option error.
Variable json_Marshal_token : EphemeralToken -> string * option error.
Variable json_Unmarshal_token : string -> EphemeralToken * option error.
Variable sentinel_text : error -> string.

(** The field [ephemeralTokenSecret] of [ServiceImpl]. *)
Variable ephemeralTokenSecret : string.

Definition Errorf_w (prefix : string) (err : error) : error :=
  errors_New (prefix +:+ ": " +:+ Error sentinel_text err).

(** generateEphemeralToken creates a new ephemeral token for a GitHub
    user.  [rand_Read] is the answer of [rand.Read] on 16 bytes and [now]
    the answer of [time.Now()]. *)
Definition generateEphemeralToken
    (rand_Read : string * option error) (now : Time)
    (githubUserID githubUsername : string) (duration : Duration)
  : string * option error :=
  let '(nonce, err) := rand_Read in
  match err with
  | Some e => ("", Some (Errorf_w "failed to generate nonce" e))
  | None =>
      let claims := {| GitHubUserID := githubUserID;
                       GitHubUsername := githubUsername;
                       IssuedAt := now;
                       ExpiresAt := now + duration;
                       Nonce := base64_EncodeToString nonce |} in
      let '(claimsJSON, err) := json_Marshal_claims claims in
      match err with
      | Some e => ("", Some (Errorf_w "failed to marshal claims" e))
      | None =>
          let signature :=
            base64_EncodeToString (hmac_sha256 ephemeralTokenSecret claimsJSON) in
          let token := {| Claims := claims; Signature := signature |} in
          let '(tokenJSON, err) := json_Marshal_token token in
          match err with
          | Some e => ("", Some (Errorf_w "failed to marshal token" e))
          | None => (base64_EncodeToString tokenJSON, None)
          end
      end
  end.

(** validateEphemeralToken validates an ephemeral token and returns the
    claims if valid.  [now] is the answer of [time.Now()]. *)
Definition validateEphemeralToken (now : Time) (tokenString : string)
  : option EphemeralTokenClaims * option error :=
  let '(tokenJSON, err) := base64_DecodeString tokenString in
  match err with
  | Some e => (None, Some (Errorf_w "invalid token format" e))
  | None =>
      let '(token, err) := json_Unmarshal_token tokenJSON in
      match err with
      | Some e => (None, Some (Errorf_w "failed to parse token" e))
      | None =>
          let '(claimsJSON, err) := json_Marshal_claims (Claims token) in
          match err with
          | Some e =>
              (None, Some (Errorf_w "failed to marshal claims for verification" e))
          | None =>
              let expectedSignature :=
                base64_EncodeToString
                  (hmac_sha256 ephemeralTokenSecret claimsJSON) in
              if negb (String.eqb (Signature token) expectedSignature)
              then (None, Some (errors_New "invalid token signature"))
              else if ExpiresAt (Claims token) <? now
              then (None, Some (errors_New "token has expired"))
              else (Some (Claims token), None)
          end
      end
  end.
End Ephemeral.

End auth.

(* ===================================================================== *)
(** ** Package v0: HTTP handlers                                          *)
(* ===================================================================== *)

(** The part of [*http.Request] the handlers read. *)
Record Request := mkRequest {
  Method : string;
  URL_Query : gmap string (list string);
  Header_Authorization : string;
  Body : string * option error }.

(** [url.Values.Get]: the first value of the key, or the empty string. *)
Definition Values_Get (v : gmap string (list string)) (key : string) : string :=
  match v !! key with
  | Some (x :: _) => x
  | _ => ""
  end.

Record Metadata := mkMetadata {
  NextCursor : string;
  Count : Z }.

Inductive json : Type :=
| JString (s : string)
| JRepository (r : Repository).

(** What a handler wrote to its [http.ResponseWriter].  The bodies are
    strings, numbers and booleans, which always encode; the branch the
    handlers have for a failed encoding is left out. *)
Inductive Payload : Type :=
| PlainText (message : string)
| PaginatedResponse (Data : list Server) (meta : Metadata)
| PaginatedResponseDetails (Data : list ServerDetail) (meta : Metadata)
| JSONObject (fields : list (string * json)).

Record Response := mkResponse {
  StatusCode : Z;
  ContentType : string;
  Written : Payload }.

Definition StatusOK : Z := 200.
Definition StatusCreated : Z := 201.
Definition StatusBadRequest : Z := 400.
Definition StatusUnauthorized : Z := 401.
Definition StatusForbidden : Z := 403.
Definition StatusMethodNotAllowed : Z := 405.
Definition StatusConflict : Z := 409.
Definition StatusInternalServerError : Z := 500.

(** [http.Error(w, message, code)] *)
Definition http_Error (message : string) (code : Z) : Response :=
  {| StatusCode := code;
     ContentType := "text/plain; charset=utf-8";
     Written := PlainText message |}.

(** A JSON body written with the given status. *)
Definition write_json (code : Z) (p : Payload) : Response :=
  {| StatusCode := code; ContentType := "application/json"; Written := p |}.

Definition zero_Metadata : Metadata := {| NextCursor := ""; Count := 0 |}.

(** The registry interface of the earlier revision, which
    [internal/api/handlers/v0/search.go] is written against: Search takes
    no url there. *)
Inductive RegistryService_search_go : Type -> Type :=
| reg0_Search (query registryName cursor : string) (limit : Z)
    : RegistryService_search_go (list Server * string * option error).

(** [len(xs)] as an int *)
Definition len {A} (xs : list A) : Z := Z.of_nat (List.length xs).

(** [internal/api/handlers/v0/search.go] *)
Module search_go.
Section Handler.
Variable uuid_Parse : string -> option error.
Variable sentinel_text : error -> string.

(** SearchHandler returns a handler for searching registry items *)
Definition SearchHandler (r : Request) : Prog RegistryService_search_go Response :=
  if negb (String.eqb (Method r) "GET")
  then mret (http_Error "Method not allowed" StatusMethodNotAllowed)
  else
    let query := Values_Get (URL_Query r) "q" in
    let registryName := Values_Get (URL_Query r) "registry_name" in
    let cursor := Values_Get (URL_Query r) "cursor" in
    let limitStr := Values_Get (URL_Query r) "limit" in
    if negb (String.eqb cursor "") && bool_decide (is_Some (uuid_Parse cursor))
    then mret (http_Error "Invalid cursor parameter" StatusBadRequest)
    else
      let limit := 30 in
      let parsed : Response + Z :=
        if negb (String.eqb limitStr "") then
          match strconv_Atoi limitStr with
          | None => inl (http_Error "Invalid limit parameter" StatusBadRequest)
          | Some parsedLimit =>
              if parsedLimit <=? 0
              then inl (http_Error "Limit must be greater than 0" StatusBadRequest)
              else if 100 <? parsedLimit then inr 100 else inr parsedLimit
          end
        else inr limit in
      match parsed with
      | inl rejected => mret rejected
      | inr limit =>
          '(registries, nextCursor, err) ←
            call (reg0_Search query registryName cursor limit);
          match err with
          | Some e =>
              mret (http_Error (Error sentinel_text e) StatusInternalServerError)
          | None =>
              let meta :=
                if negb (String.eqb nextCursor "")
                then {| NextCursor := nextCursor; Count := len registries |}
                else zero_Metadata in
              mret (write_json StatusOK (PaginatedResponse registries meta))
          end
      end.
End Handler.
End search_go.

Module v0.
Section Handlers.
(** Libraries and collaborators of the handlers. *)
Variable url_ParseRequestURI : string -> option error.
Variable uuid_Parse : string -> option error.
Variable sentinel_text : error -> string.

(** SearchHandler returns a handler for searching registry items *)
Definition SearchHandler (r : Request) : Prog RegistryService Response :=
  if negb (String.eqb (Method r) "GET")
  then mret (http_Error "Method not allowed" StatusMethodNotAllowed)
  else
    let query := Values_Get (URL_Query r) "q" in
    let registryName := Values_Get (URL_Query r) "registry_name" in
    let urlParam := Values_Get (URL_Query r) "url" in
    let cursor := Values_Get (URL_Query r) "cursor" in
    let limitStr := Values_Get (URL_Query r) "limit" in
    if negb (String.eqb urlParam "")
       && bool_decide (is_Some (url_ParseRequestURI urlParam))
    then mret (http_Error "Invalid URL parameter" StatusBadRequest)
    else
    if negb (String.eqb cursor "") && bool_decide (is_Some (uuid_Parse cursor))
    then mret (http_Error "Invalid cursor parameter" StatusBadRequest)
    else
      let limit := 30 in
      let parsed : Response + Z :=
        if negb (String.eqb limitStr "") then
          match strconv_Atoi limitStr with
          | None => inl (http_Error "Invalid limit parameter" StatusBadRequest)
          | Some parsedLimit =>
              if parsedLimit <=? 0
              then inl (http_Error "Limit must be greater than 0" StatusBadRequest)
              else if 100 <? parsedLimit then inr 100 else inr parsedLimit
          end
        else inr limit in
      match parsed with
      | inl rejected => mret rejected
      | inr limit =>
          '(registries, nextCursor, err) ←
            call (reg_SearchDetails query registryName urlParam cursor limit);
          match err with
          | Some e =>
              mret (http_Error (Error sentinel_text e) StatusInternalServerError)
          | None =>
              let meta :=
                if negb (String.eqb nextCursor "")
                then {| NextCursor := nextCursor; Count := len registries |}
                else zero_Metadata in
              mret (write_json StatusOK (PaginatedResponseDetails registries meta))
          end
      end.

(** *** publish-oss *)

Variable strings_TrimSpace : string -> string.

(** extractGitHubRepo extracts the owner and repository name from a
    GitHub repository URL *)
Definition extractGitHubRepo (repoURL : string)
  : string * string * option error :=
  let url := strings_TrimSpace repoURL in
  let url := strings_TrimSuffix url ".git" in
  let https :=
    if strings_HasPrefix url "https://github.com/" then
      match strings_Split1 (strings_TrimPrefix url "https://github.com/") "/" with
      | p0 :: p1 :: _ => Some (p0, p1)
      | _ => None
      end
    else None in
  match https with
  | Some (owner, repo) => (owner, repo, None)
  | None =>
      let ssh :=
        if strings_HasPrefix url "git@github.com:" then
          match strings_Split1 (strings_TrimPrefix url "git@github.com:") "/" with
          | p0 :: p1 :: _ => Some (p0, p1)
          | _ => None
          end
        else None in
      match ssh with
      | Some (owner, repo) => (owner, repo, None)
      | None => ("", "", Some (errors_New "invalid GitHub repository URL format"))
      end
  end.

(** [fmt.Sprintf("%x", b)] for a byte slice *)
Definition hex_digit (n : nat) : ascii :=
  if (n <? 10)%nat then ascii_of_nat (48 + n) else ascii_of_nat (87 + n).

Fixpoint hex (b : string) : string :=
  match b with
  | EmptyString => EmptyString
  | String c b' =>
      let n := nat_of_ascii c in
      String (hex_digit (n / 16)) (String (hex_digit (n mod 16)) (hex b'))
  end.

(** [b[lo:hi]] *)
Definition slice (b : string) (lo hi : nat) : string :=
  string_take (hi - lo) (string_drop lo b).

(** generateServerID generates a unique server ID; [rand_Read] is the
    answer of [rand.Read] on 16 bytes. *)
Definition generateServerID (rand_Read : string * option error)
  : string * option error :=
  let '(b, err) := rand_Read in
  match err with
  | Some e => ("", Some e)
  | None =>
      (hex (slice b 0 4) +:+ "-" +:+ hex (slice b 4 6) +:+ "-" +:+
       hex (slice b 6 8) +:+ "-" +:+ hex (slice b 8 10) +:+ "-" +:+
       hex (slice b 10 16), None)
  end.

(** What [FetchRepositoryInfo] answers. *)
Record RepoInfo := mkRepoInfo {
  RepoInfo_ID : Z;
  RepoInfo_Description : string;
  RepoInfo_HTMLURL : string }.

Variable ValidateEphemeralOrOwnerToken
  : string -> bool * option EphemeralTokenClaims * option error.
Variable json_Unmarshal : string -> PublishOSSRequest * option error.
Variable is_ServiceImpl : bool.
  (* authService.( *auth.ServiceImpl ) *)
Variable FetchRepositoryInfo
  : string -> string -> string -> RepoInfo * option error.
Variable rand_Read : string * option error.
Variable time_Now_RFC3339 : string.

(** The first package with an empty required field, in slice order. *)
Fixpoint validate_packages (i : Z) (pkgs : list Package) : option Response :=
  match pkgs with
  | [] => None
  | pkg :: rest =>
      if String.eqb (Package_RegistryName pkg) "" then
        Some (http_Error ("Package " +:+ strconv_Itoa i +:+
                          ": registry_name is required") StatusBadRequest)
      else if String.eqb (Package_Name pkg) "" then
        Some (http_Error ("Package " +:+ strconv_Itoa i +:+
                          ": name is required") StatusBadRequest)
      else if String.eqb (Package_Version pkg) "" then
        Some (http_Error ("Package " +:+ strconv_Itoa i +:+
                          ": version is required") StatusBadRequest)
      else validate_packages (i + 1) rest
  end.

(** PublishOSSHandler handles requests to publish open source MCP servers
    to the registry.  The log lines it prints are left out, and so are the
    tests that the sentinels ErrInvalidVersion and ErrAlreadyExists are not
    nil, which hold as the sentinels are package-level errors. *)
Definition PublishOSSHandler (r : Request) : Prog RegistryService Response :=
  if negb (String.eqb (Method r) "POST")
  then mret (http_Error "Method not allowed" StatusMethodNotAllowed)
  else
  let authHeader := Header_Authorization r in
  if String.eqb authHeader ""
  then mret (http_Error "Authorization header is required" StatusUnauthorized)
  else
  let token := auth.ParseAuthorizationHeader authHeader in
  let '(valid, ephemeralClaims, err) := ValidateEphemeralOrOwnerToken token in
  match err with
  | Some e =>
      mret (http_Error ("Authentication failed: " +:+ Error sentinel_text e)
                       StatusUnauthorized)
  | None =>
  if negb valid
  then mret (http_Error "Invalid authentication token" StatusForbidden)
  else
  let '(body, err) := Body r in
  match err with
  | Some _ => mret (http_Error "Error reading request body" StatusBadRequest)
  | None =>
  let '(ossReq, err) := json_Unmarshal body in
  match err with
  | Some e =>
      mret (http_Error ("Invalid request payload: " +:+ Error sentinel_text e)
                       StatusBadRequest)
  | None =>
  if String.eqb (RepositoryURL ossReq) ""
  then mret (http_Error "Repository URL is required" StatusBadRequest)
  else
  if len (Req_Packages ossReq) =? 0
  then mret (http_Error "At least one package is required" StatusBadRequest)
  else
  match validate_packages 0 (Req_Packages ossReq) with
  | Some rejected => mret rejected
  | None =>
  let '(owner, repo, err) :=
    if negb (String.eqb (Owner ossReq) "") && negb (String.eqb (Repo ossReq) "")
    then (Owner ossReq, Repo ossReq, None)
    else extractGitHubRepo (RepositoryURL ossReq) in
  match err with
  | Some e =>
      mret (http_Error ("Invalid GitHub repository URL: " +:+ Error sentinel_text e)
                       StatusBadRequest)
  | None =>
  let expectedServerName := "io.github." +:+ owner +:+ "/" +:+ repo in
  '(existingServers, _, err) ← call (reg_Search expectedServerName "" "" "" 1);
  match err with
  | Some e =>
      mret (http_Error ("Failed to check existing servers: " +:+ Error sentinel_text e)
                       StatusInternalServerError)
  | None =>
  if existsb (fun server => String.eqb (Server_Name server) expectedServerName)
             existingServers
  then
    mret (write_json StatusConflict
            (JSONObject
               [("error", JString "Server already exists");
                ("message", JString ("A server with name '" +:+ expectedServerName
                     +:+ "' has already been published to the registry"));
                ("name", JString expectedServerName)]))
  else
  if negb is_ServiceImpl
  then mret (http_Error "Internal authentication service error"
                        StatusInternalServerError)
  else
  let githubToken :=
    match ephemeralClaims with
    | None => token
    | Some _ => ""
    end in
  let '(repoInfo, err) := FetchRepositoryInfo githubToken owner repo in
  match err with
  | Some e =>
      mret (http_Error ("Failed to fetch repository information: "
                        +:+ Error sentinel_text e) StatusBadRequest)
  | None =>
  let '(serverID, err) := generateServerID rand_Read in
  match err with
  | Some _ =>
      mret (http_Error "Failed to generate server ID" StatusInternalServerError)
  | None =>
  let serverDetail :=
    {| Detail_Server :=
         {| Server_ID := serverID;
            Server_Name := "io.github." +:+ owner +:+ "/" +:+ repo;
            Server_Description := RepoInfo_Description repoInfo;
            Server_Repository :=
              {| Repository_URL := RepoInfo_HTMLURL repoInfo;
                 Repository_Source := "github";
                 Repository_ID := strconv_Itoa (RepoInfo_ID repoInfo) |};
            Server_VersionDetail :=
              {| Version := "1.0.0-oss";
                 ReleaseDate := time_Now_RFC3339;
                 IsLatest := true |} |};
       Packages := Req_Packages ossReq;
       Remotes := [] |} in
  err ← call (reg_Publish (Some serverDetail));
  match err with
  | Some e =>
      if strings_Contains (Error sentinel_text e) "invalid version"
      then mret (http_Error ("Failed to publish server details: "
                             +:+ Error sentinel_text e) StatusBadRequest)
      else if strings_Contains (Error sentinel_text e) "already exists"
      then mret (http_Error "Server already exists in registry" StatusConflict)
      else mret (http_Error ("Failed to publish server details: "
                             +:+ Error sentinel_text e) StatusInternalServerError)
  | None =>
      let publishedBy :=
        match ephemeralClaims with
        | Some claims => GitHubUsername claims
        | None => "registry-owner"
        end in
      mret (write_json StatusCreated
              (JSONObject
                 [("message", JString "OSS server publication successful");
                  ("id", JString (Server_ID (Detail_Server serverDetail)));
                  ("name", JString (Server_Name (Detail_Server serverDetail)));
                  ("repository",
                   JRepository (Server_Repository (Detail_Server serverDetail)));
                  ("published_by", JString publishedBy)]))
  end end end end end end end end end.
End Handlers.
End v0.

(* ===================================================================== *)
(** ** The literal fragment of the regular-expression syntax              *)
(* ===================================================================== *)

(** A pattern made only of bytes the syntax gives no meaning to and of
    metacharacters behind a backslash spells one string and matches exactly
    the texts containing it.  [regex_literal p] is that string; [None]
    when [p] has an operator (a bare metacharacter, or a backslash before
    anything but a metacharacter) or ends in a lone backslash. *)
Fixpoint regex_literal (p : string) : option string :=
  match p with
  | EmptyString => Some EmptyString
  | String "\" (String c p') =>
      if special c then option_map (String c) (regex_literal p') else None
  | String c p' =>
      if special c then None else option_map (String c) (regex_literal p')
  end.

(** Case-insensitive search of a literal pattern in a text (option "i"). *)
Definition regex_find_i (p text : string) : bool :=
  match regex_literal p with
  | Some lit =>
      strings_Contains (strings_ToLower_ascii text) (strings_ToLower_ascii lit)
  | None => false
  end.

(* ===================================================================== *)
(** ** A model of github.com/google/uuid Parse                            *)
(* ===================================================================== *)

Definition is_hex (c : ascii) : bool :=
  let n := nat_of_ascii c in
  ((48 <=? n) && (n <=? 57) || (65 <=? n) && (n <=? 70)
   || (97 <=? n) && (n <=? 102))%nat.

Fixpoint all_hex (s : string) : bool :=
  match s with
  | EmptyString => true
  | String c s' => is_hex c && all_hex s'
  end.

Definition byte_at (s : string) (i : nat) : option ascii := String.get i s.

(** xxxxxxxx-xxxx-xxxx-xxxx-xxxxxxxxxxxx *)
Definition uuid_canonical (s : string) : bool :=
  bool_decide (byte_at s 8 = Some "-"%char) && bool_decide (byte_at s 13 = Some "-"%char)
  && bool_decide (byte_at s 18 = Some "-"%char)
  && bool_decide (byte_at s 23 = Some "-"%char)
  && all_hex (string_take 8 s) && all_hex (string_take 4 (string_drop 9 s))
  && all_hex (string_take 4 (string_drop 14 s))
  && all_hex (string_take 4 (string_drop 19 s))
  && all_hex (string_take 12 (string_drop 24 s)).

Definition uuid_Parse (s : string) : option error :=
  let invalid := Some (errors_New "invalid UUID format") in
  match String.length s with
  | 36%nat => if uuid_canonical s then None else invalid
  | 45%nat =>
      if String.eqb (strings_ToLower_ascii (string_take 9 s)) "urn:uuid:"
      then if uuid_canonical (string_drop 9 s) then None else invalid
      else Some (errors_New "invalid urn prefix")
  | 38%nat => if uuid_canonical (string_drop 1 s) then None else invalid
  | 32%nat => if all_hex s then None else invalid
  | _ => Some (errors_New "invalid UUID length")
  end.

(* ===================================================================== *)
(** ** The in-memory backing store                                        *)
(* ===================================================================== *)

Module memdb.

(** Modelled from the spec: the in-memory backing store of package
    database, whose sources are not at hand (spec 4.2, 4.3, 4.5).  Records
    are kept ordered by id; a cursor is the id of the last record of the
    previous page; a filter is the conjunction of its recognised keys and
    keys it does not recognise are ignored. *)
Definition store := list ServerDetail.

Definition id_of (sd : ServerDetail) : string := Server_ID (Detail_Server sd).
Definition name_of (sd : ServerDetail) : string := Server_Name (Detail_Server sd).

Definition is_alnum (c : ascii) : bool :=
  let n := nat_of_ascii c in
  ((48 <=? n) && (n <=? 57) || (65 <=? n) && (n <=? 90)
   || (97 <=? n) && (n <=? 122))%nat.

(** The words of a text: maximal runs of letters and digits, lower-cased. *)
Fixpoint words_from (cur : string) (s : string) : list string :=
  match s with
  | EmptyString => if String.eqb cur "" then [] else [cur]
  | String c s' =>
      if is_alnum c then words_from (cur +:+ String (ascii_lower c) EmptyString) s'
      else if String.eqb cur "" then words_from "" s'
      else cur :: words_from "" s'
  end.

Definition words (s : string) : list string := words_from "" s.

Definition has_word (w : string) (texts : list string) : bool :=
  existsb (fun t => existsb (String.eqb w) (words t)) texts.

(** Modelled from the spec: the full-text search of the store, which
    takes the query as a sequence of words and matches the records that
    contain those words, whatever their order and letter case (spec 4.3,
    step 1); package names count in the search for details only. *)
Definition text_search (withPackages : bool) (q : string) (sd : ServerDetail) : bool :=
  let texts :=
    name_of sd :: Server_Description (Detail_Server sd)
    :: (if withPackages then List.map Package_Name (Packages sd) else []) in
  match words q with
  | [] => false
  | ws => forallb (fun w => has_word w texts) ws
  end.

(** Modelled from the spec: one clause [{field: {"$regex": p, "$options":
    "i"}}] of an "$or" as the store reads it, a case-insensitive search of
    the pattern in the field (spec 4.3, step 2). *)
Definition clause_matches (clause : bson) (sd : ServerDetail) : bool :=
  match clause with
  | BDoc [(field, BDoc [("$regex", BStr p); ("$options", BStr "i")])] =>
      if String.eqb field "name" then regex_find_i p (name_of sd)
      else if String.eqb field "description"
      then regex_find_i p (Server_Description (Detail_Server sd))
      else if String.eqb field "packages.name"
      then existsb (fun pkg => regex_find_i p (Package_Name pkg)) (Packages sd)
      else false
  | _ => false
  end.

(** Modelled from the spec: a filter as the store reads it, the
    conjunction of the text clause, the two exact-match constraints and the
    "$or" of regex clauses (spec 4.3, step 3); other keys are ignored (spec
    6). *)
Definition filter_matches (withPackages : bool) (f : Filter) (sd : ServerDetail) : bool :=
  match f !! "$text" with
  | Some (BDoc [("$search", BStr q)]) => text_search withPackages q sd
  | Some _ => false
  | None => true
  end
  &&
  match f !! "packages.registry_name" with
  | Some (BStr rn) =>
      existsb (fun pkg => String.eqb (Package_RegistryName pkg) rn) (Packages sd)
  | Some _ => false
  | None => true
  end
  &&
  match f !! "repository.url" with
  | Some (BStr u) =>
      String.eqb (Repository_URL (Server_Repository (Detail_Server sd))) u
  | Some _ => false
  | None => true
  end
  &&
  match f !! "$or" with
  | Some (BArr clauses) => existsb (fun c => clause_matches c sd) clauses
  | Some _ => false
  | None => true
  end.

Fixpoint last_id (l : list ServerDetail) : string :=
  match l with
  | [] => ""
  | [sd] => id_of sd
  | _ :: l' => last_id l'
  end.

(** Modelled from the spec: one page of the store (spec 4.2), the
    matching records strictly after the cursor in the order of their ids, at
    most [limit] of them, with the id of the last one as next cursor when the
    page is full; a cursor that is not an id is refused with
    ErrInvalidInput. *)
Definition page (withPackages : bool) (db : store) (f : Filter)
    (cursor : string) (limit : Z) : list ServerDetail * string * option error :=
  if negb (String.eqb cursor "") && bool_decide (is_Some (uuid_Parse cursor))
  then ([], "", Some ErrInvalidInput)
  else
    let matching := List.filter (filter_matches withPackages f) db in
    let rest :=
      if String.eqb cursor "" then matching
      else List.filter (fun sd => String.ltb cursor (id_of sd)) matching in
    let entries := firstn (Z.to_nat limit) rest in
    let next := if len entries =? limit then last_id entries else "" in
    (entries, next, None).

Fixpoint insert_by_id (sd : ServerDetail) (db : store) : store :=
  match db with
  | [] => [sd]
  | x :: db' =>
      if String.ltb (id_of sd) (id_of x) then sd :: db
      else x :: insert_by_id sd db'
  end.

(** Modelled from the spec: Publish of the store (spec 4.1, 4.5), which
    refuses a record without name or version with ErrInvalidInput and a
    record whose id or name is taken with ErrAlreadyExists, and inserts any
    other. *)
Definition publish (db : store) (sd : ServerDetail) : option error * store :=
  if String.eqb (name_of sd) ""
     || String.eqb (Version (Server_VersionDetail (Detail_Server sd))) ""
  then (Some ErrInvalidInput, db)
  else if existsb (fun x => String.eqb (id_of x) (id_of sd)
                            || String.eqb (name_of x) (name_of sd)) db
  then (Some ErrAlreadyExists, db)
  else (None, insert_by_id sd db).

(** Modelled from the spec: GetByID of the store (spec 4.1). *)
Definition get_by_id (db : store) (id : string) : option ServerDetail * option error :=
  match List.find (fun x => String.eqb (id_of x) id) db with
  | Some sd => (Some sd, None)
  | None => (None, Some ErrNotFound)
  end.

(** The store as an implementation of [database.Database]. *)
Definition impl : Impl Database store := fun X e =>
  match e in Database X return store -> X * store with
  | db_List f c l => fun db =>
      let '(entries, next, err) := page false db f c l in
      ((List.map Detail_Server entries, next, err), db)
  | db_GetByID id => fun db => (get_by_id db id, db)
  | db_ListDetails f c l => fun db => (page true db f c l, db)
  | db_Publish sd => fun db => let '(err, db') := publish db sd in (err, db')
  end.

End memdb.

(** The service run over a database implementation: an implementation of
    [RegistryService] over the same state. *)
Definition service_over {S} (db : Impl Database S) : Impl RegistryService S :=
  fun X e s =>
    let '(x, s', _) := exec db (registryServiceImpl X e) s in (x, s').

(* ===================================================================== *)
(** ** Vocabulary of the properties                                       *)
(* ===================================================================== *)

(** The limits and the filters of the listing calls of a trace, oldest
    first. *)
Definition limits_of (tr : list (Event Database)) : list Z :=
  omap call_limit (db_calls tr).

Definition filters_of (tr : list (Event Database)) : list Filter :=
  omap call_filter (db_calls tr).

(** The filter of the full-text phase and the filter of the retry, as the
    two searches build them. *)
Definition text_filter (query registryName url : string) : Filter :=
  let filter : Filter := ∅ in
  let filter :=
    if negb (String.eqb query "")
    then <["$text" := BDoc [("$search", BStr query)]]> filter else filter in
  let filter :=
    if negb (String.eqb registryName "")
    then <["packages.registry_name" := BStr registryName]> filter else filter in
  if negb (String.eqb url "")
  then <["repository.url" := BStr url]> filter else filter.

Definition or_clauses (pattern : string) : bson :=
  BArr [service.regex_clause "name" pattern;
        service.regex_clause "description" pattern;
        service.regex_clause "packages.name" pattern].

Definition fallback_filter (query registryName url : string) : Filter :=
  <["$or" := or_clauses (service.escapeRegex query)]>
    (delete "$text" (text_filter query registryName url)).

(** The limit the service passes on. *)
Definition effective_limit (limit : Z) : Z := if limit <=? 0 then 30 else limit.

(** Three records for running the code: a compound-word name, a name made
    of regex metacharacters, and a plain one. *)
Definition sample_server (id name description url : string) (pkgs : list Package)
  : ServerDetail :=
  {| Detail_Server :=
       {| Server_ID := id; Server_Name := name; Server_Description := description;
          Server_Repository :=
            {| Repository_URL := url; Repository_Source := "github";
               Repository_ID := "1" |};
          Server_VersionDetail :=
            {| Version := "1.0.0"; ReleaseDate := "2025-05-25T00:00:00Z";
               IsLatest := true |} |};
     Packages := pkgs; Remotes := [] |}.

Definition filesystem_tool : ServerDetail :=
  sample_server "550e8400-e29b-41d4-a716-446655440001" "my-filesystem-tool"
    "Reads and writes" "https://github.com/acme/fs"
    [{| Package_RegistryName := "npm"; Package_Name := "@acme/fs";
        Package_Version := "1.0.0" |}].

Definition dotstar_tool : ServerDetail :=
  sample_server "550e8400-e29b-41d4-a716-446655440002" "glob.*matcher"
    "Matches (a+)+ groups" "https://github.com/acme/glob"
    [{| Package_RegistryName := "pypi"; Package_Name := "globber";
        Package_Version := "2.1.0" |}].

Definition plain_tool : ServerDetail :=
  sample_server "550e8400-e29b-41d4-a716-446655440003" "weather"
    "Forecasts" "https://github.com/acme/weather"
    [{| Package_RegistryName := "docker"; Package_Name := "acme/weather";
        Package_Version := "0.3.0" |}].

Definition sample_store : memdb.store := [filesystem_tool; dotstar_tool; plain_tool].

(** A store of [n] records with increasing ids. *)
Definition numbered (i : nat) : ServerDetail :=
  sample_server ("id-" +:+ String (ascii_of_nat (65 + i)) EmptyString)
    ("server-" +:+ String (ascii_of_nat (65 + i)) EmptyString) "" "" [].

Definition numbered_store (n : nat) : memdb.store := List.map numbered (seq 0 n).


(** The answer of the full-text phase of SearchDetails. *)
Definition text_phase {S} (db : Impl Database S) (s : S)
    (query registryName url cursor : string) (limit : Z)
  : (list ServerDetail * string * option error) * S :=
  db _ (db_ListDetails (text_filter query registryName url) cursor
          (effective_limit limit)) s.

(** SearchDetails retries exactly when the full-text phase answered without
    error, with no entry, and the query is not empty. *)
Definition retries (query : string)
    (answer : list ServerDetail * string * option error) : bool :=
  match answer with
  | (entries, _, None) =>
      Nat.eqb (List.length entries) 0 && negb (String.eqb query "")
  | (_, _, Some _) => false
  end.

(** The two exact-match constraints a filter carries for the given
    registry name and url: present with that value, or absent when the
    value is empty. *)
Definition exact_match_constraints (registryName url : string) (f : Filter) : Prop :=
  f !! "packages.registry_name"
  = (if String.eqb registryName "" then None else Some (BStr registryName))
  /\ f !! "repository.url" = (if String.eqb url "" then None else Some (BStr url)).

(** What the service returns for an answer of the database. *)
Definition answer_or_error {A} (a : list A * string * option error)
  : list A * string * option error :=
  match a with
  | (_, _, Some e) => ([], "", Some e)
  | (entries, next, None) => (entries, next, None)
  end.

(** A trace has a call whose filter asks for the substring match of the
    query. *)
Definition asks_substring_match (query : string) (tr : list (Event Database)) : Prop :=
  exists f, In f (filters_of tr)
            /\ f !! "$or" = Some (or_clauses (service.escapeRegex query)).

(** The calls of the registry interface without their answer types. *)
Inductive RegCall : Type :=
| RList (cursor : string) (limit : Z)
| RGetByID (id : string)
| RPublish (serverDetail : option ServerDetail)
| RSearch (query registryName url cursor : string) (limit : Z)
| RSearchDetails (query registryName url cursor : string) (limit : Z).

Definition reg_call_of {X} (e : RegistryService X) : RegCall :=
  match e with
  | reg_List c l => RList c l
  | reg_GetByID id => RGetByID id
  | reg_Publish sd => RPublish sd
  | reg_Search q rn u c l => RSearch q rn u c l
  | reg_SearchDetails q rn u c l => RSearchDetails q rn u c l
  end.

Definition reg_calls (tr : list (Event RegistryService)) : list RegCall :=
  List.map (fun ev => match ev with Ev e _ => reg_call_of e end) tr.

(** The one call of the earlier interface, as its arguments. *)
Definition reg0_calls (tr : list (Event RegistryService_search_go))
  : list (string * string * string * Z) :=
  List.map (fun ev => match ev with
                      | Ev (reg0_Search q rn c l) _ => (q, rn, c, l)
                      end) tr.

(** A Search call that answered, without error, a server whose name is the
    name searched for. *)
Definition search_finds_name (ev : Event RegistryService) : bool :=
  match ev with
  | Ev e x =>
      match e in RegistryService X return X -> bool with
      | reg_Search q _ _ _ _ => fun x =>
          match x with
          | (servers, _, None) =>
              existsb (fun server => String.eqb (Server_Name server) q) servers
          | (_, _, Some _) => false
          end
      | _ => fun _ => false
      end x
  end.

(** The error a Publish call answered. *)
Definition publish_error (ev : Event RegistryService) : option error :=
  match ev with
  | Ev e x =>
      match e in RegistryService X return X -> option error with
      | reg_Publish _ => fun x => x
      | _ => fun _ => None
      end x
  end.

Definition is_publish (c : RegCall) : bool :=
  match c with RPublish _ => true | _ => false end.

(** A parameter of a request is absent or accepted by its parser. *)
Definition accepted (parse : string -> option error) (value : string) : Prop :=
  value = "" \/ parse value = None.

(** A request whose query string has the given parameters, one value each. *)
Definition get_request (params : list (string * string)) : Request :=
  {| Method := "GET";
     URL_Query := list_to_map (List.map (fun kv => (kv.1, [kv.2])) params);
     Header_Authorization := "";
     Body := ("", None) |}.

(** Texts for the sentinels, for running the handlers. *)
Definition sample_sentinel_text (e : error) : string :=
  match e with
  | ErrNotFound => "record not found"
  | ErrAlreadyExists => "record already exists"
  | ErrInvalidInput => "invalid input"
  | ErrInvalidVersion => "invalid version: cannot publish older version after newer version"
  | errors_New text => text
  end.

(** [url.ParseRequestURI] stand-in for running the handlers: it accepts
    texts that start with a slash or have a scheme separator. *)
Definition sample_ParseRequestURI (s : string) : option error :=
  if strings_HasPrefix s "/" || strings_Contains s "://" then None
  else Some (errors_New "invalid URI for request").

(** The earlier interface served by the service: Search without a url. *)
Definition search_go_over {S} (db : Impl Database S)
  : Impl RegistryService_search_go S :=
  fun X e s =>
    match e in RegistryService_search_go X return X * S with
    | reg0_Search q rn c l =>
        let '(x, s', _) := exec db (service.Search q rn "" c l) s in (x, s')
    end.

(** Stand-ins for the collaborators of the publish handler, for running it:
    any token but the empty one is the owner's, the body is taken as the
    repository url of a request with one npm package, GitHub knows every
    repository, and the random bytes are fixed. *)
Definition sample_Validate (token : string)
  : bool * option EphemeralTokenClaims * option error :=
  if String.eqb token "" then (false, None, Some (errors_New "invalid token"))
  else (true, None, None).

Definition sample_Unmarshal (body : string) : PublishOSSRequest * option error :=
  ({| RepositoryURL := body;
      Req_Packages := [{| Package_RegistryName := "npm"; Package_Name := "tool";
                          Package_Version := "1.0.0" |}];
      Owner := ""; Repo := "" |}, None).

Definition sample_Fetch (token owner repo : string) : v0.RepoInfo * option error :=
  ({| v0.RepoInfo_ID := 42; v0.RepoInfo_Description := "A tool";
      v0.RepoInfo_HTMLURL := "https://github.com/" +:+ owner +:+ "/" +:+ repo |},
   None).

Definition sample_rand : string * option error := ("0123456789abcdef", None).

Definition post_request (body : string) : Request :=
  {| Method := "POST"; URL_Query := ∅;
     Header_Authorization := "Bearer owner-token"; Body := (body, None) |}.

Definition sample_PublishOSSHandler (r : Request) : Prog RegistryService Response :=
  v0.PublishOSSHandler sample_sentinel_text (fun s => s) sample_Validate
    sample_Unmarshal true sample_Fetch sample_rand "2025-05-25T00:00:00Z" r.

(** A store in which "io.github.acme/tool" is published, behind a record
    with a smaller id whose name has all the words of that name. *)
Definition acme_tool_kit : ServerDetail :=
  sample_server "550e8400-e29b-41d4-a716-446655440010" "io.github.acme/tool-kit"
    "Kit" "https://github.com/acme/tool-kit" [].

Definition acme_tool : ServerDetail :=
  sample_server "550e8400-e29b-41d4-a716-446655440011" "io.github.acme/tool"
    "Tool" "https://github.com/acme/tool" [].

Definition acme_store : memdb.store := [acme_tool_kit; acme_tool].

(** Stand-ins for crypto/hmac and encoding/json, for running the token
    code: the MAC is the key followed by the message, claims are written
    as five comma-separated fields, and a token as claims, a semicolon and
    the signature. *)
Definition sample_hmac (key msg : string) : string := key +:+ ":" +:+ msg.

Definition sample_Marshal_claims (c : EphemeralTokenClaims) : string * option error :=
  (GitHubUserID c +:+ "," +:+ GitHubUsername c +:+ "," +:+ strconv_Itoa (IssuedAt c)
   +:+ "," +:+ strconv_Itoa (ExpiresAt c) +:+ "," +:+ Nonce c, None).

Definition sample_Marshal_token (t : EphemeralToken) : string * option error :=
  ((sample_Marshal_claims (Claims t)).1 +:+ ";" +:+ Signature t, None).

Definition zero_token : EphemeralToken :=
  {| Claims := {| GitHubUserID := ""; GitHubUsername := ""; IssuedAt := 0;
                  ExpiresAt := 0; Nonce := "" |};
     Signature := "" |}.

Definition sample_Unmarshal_token (j : string) : EphemeralToken * option error :=
  match strings_Split1 j ";" with
  | [cj; sig] =>
      match strings_Split1 cj "," with
      | [id; user; issued; expires; nonce] =>
          match strconv_Atoi issued, strconv_Atoi expires with
          | Some i, Some e =>
              ({| Claims := {| GitHubUserID := id; GitHubUsername := user;
                               IssuedAt := i; ExpiresAt := e; Nonce := nonce |};
                  Signature := sig |}, None)
          | _, _ => (zero_token, Some (errors_New "invalid character"))
          end
      | _ => (zero_token, Some (errors_New "invalid character"))
      end
  | _ => (zero_token, Some (errors_New "unexpected end of JSON input"))
  end.

Definition sample_generate (now : Time) (user : string) (duration : Duration)
  : string * option error :=
  auth.generateEphemeralToken sample_hmac sample_Marshal_claims sample_Marshal_token
    sample_sentinel_text "secret" ("0123456789abcdef", None) now "583231" user
    duration.

Definition sample_validate (now : Time) (token : string)
  : option EphemeralTokenClaims * option error :=
  auth.validateEphemeralToken sample_hmac sample_Marshal_claims sample_Unmarshal_token
    sample_sentinel_text "secret" now token.

(** One hour, in nanoseconds. *)
Definition time_Hour : Duration := 3600 * 1000000000.

(** The token of a user with its claims altered after signing: the user
    name is replaced, the signature is the one made for the original. *)
Definition tampered_token (now : Time) (user altered_user : string)
    (duration : Duration) : string :=
  let '(tokenJSON, _) := base64_DecodeString (sample_generate now user duration).1 in
  let '(token, _) := sample_Unmarshal_token tokenJSON in
  let claims := Claims token in
  let altered :=
    {| GitHubUserID := GitHubUserID claims; GitHubUsername := altered_user;
       IssuedAt := IssuedAt claims; ExpiresAt := ExpiresAt claims;
       Nonce := Nonce claims |} in
  base64_EncodeToString
    (sample_Marshal_token {| Claims := altered; Signature := Signature token |}).1.

(** A text contains a query, letter case apart. *)
Definition contains_i (text query : string) : bool :=
  strings_Contains (strings_ToLower_ascii text) (strings_ToLower_ascii query).

(** A record has the query inside its name, its description or the name
    of one of its packages. *)
Definition substring_match (query : string) (sd : ServerDetail) : bool :=
  contains_i (memdb.name_of sd) query
  || contains_i (Server_Description (Detail_Server sd)) query
  || existsb (fun pkg => contains_i (Package_Name pkg) query) (Packages sd).

(** A store has a record of the given name. *)
Definition has_name (db : memdb.store) (name : string) : Prop :=
  exists sd, In sd db /\ memdb.name_of sd = name.

(* ===================================================================== *)
(** ** Package auth: the service and its GitHub collaborator              *)
(* ===================================================================== *)

(** What [ServiceImpl] asks of GitHub: the two checks of
    [GitHubDeviceAuth], and the request for the user of a token that
    GenerateEphemeralTokenForGitHubUser sends itself.  The latter answers
    the error of [client.Do], the status code, and what [io.ReadAll] gives
    for the body. *)
Inductive GitHub : Type -> Type :=
| gh_ValidateToken (token repoRef : string) : GitHub (bool * option error)
| gh_ValidateTokenForOwner (token username : string) : GitHub (bool * option error)
| gh_GetUser (githubToken : string)
    : GitHub (option error * Z * (string * option error)).

Inductive GitHubCall : Type :=
| GValidateToken (token repoRef : string)
| GValidateTokenForOwner (token username : string)
| GGetUser (githubToken : string).

Definition gh_call_of {X} (e : GitHub X) : GitHubCall :=
  match e with
  | gh_ValidateToken t r => GValidateToken t r
  | gh_ValidateTokenForOwner t u => GValidateTokenForOwner t u
  | gh_GetUser t => GGetUser t
  end.

Definition gh_calls (tr : list (Event GitHub)) : list GitHubCall :=
  List.map (fun ev => match ev with Ev e _ => gh_call_of e end) tr.

(** [model.Authentication] *)
Record Authentication := mkAuthentication {
  Auth_Method : string;
  Auth_Token : string;
  Auth_RepoRef : string }.

(** ErrAuthRequired and ErrUnsupportedAuthMethod of auth.go *)
Definition ErrAuthRequired : error := errors_New "authentication required".
Definition ErrUnsupportedAuthMethod : error :=
  errors_New "unsupported authentication method".

(** The text [%v] prints for an error that may be nil. *)
Definition verb_v (sentinel_text : error -> string) (e : option error) : string :=
  match e with
  | Some e => Error sentinel_text e
  | None => "<nil>"
  end.

Module auth_service.
Section ServiceImpl.
(** The libraries, as for the token code. *)
Variable hmac_sha256 : string -> string -> string.
Variable json_Marshal_claims : EphemeralTokenClaims -> string * option error.
Variable json_Marshal_token : EphemeralToken -> string * option error.
Variable json_Unmarshal_token : string -> EphemeralToken * option error.
Variable sentinel_text : error -> string.

(** [json.Unmarshal] into the struct with the fields ID and Login. *)
Variable json_Unmarshal_user : string -> (Z * string) * option error.

(** The constants [model.AuthMethodGitHub] and [model.AuthMethodNone],
    which package model declares. *)
Variable AuthMethodGitHub AuthMethodNone : string.

(** The fields of [ServiceImpl]: of its config the owner's user name, and
    the secret. *)
Variable RegistryOwnerGithubUsername : string.
Variable ephemeralTokenSecret : string.

(** ValidateAuth validates authentication credentials *)
Definition ValidateAuth (a : Authentication) : Prog GitHub (bool * option error) :=
  if String.eqb (Auth_Method a) "" || String.eqb (Auth_Method a) AuthMethodNone
  then mret (false, Some ErrAuthRequired)
  else if String.eqb (Auth_Method a) AuthMethodGitHub
  then call (gh_ValidateToken (Auth_Token a) (Auth_RepoRef a))
  else if String.eqb (Auth_Method a) AuthMethodNone
  then mret (false, Some ErrAuthRequired)
  else mret (false, Some ErrUnsupportedAuthMethod).

(** ValidateRegistryOwnerAuth validates that the provided GitHub token
    belongs to the registry owner *)
Definition ValidateRegistryOwnerAuth (token : string)
  : Prog GitHub (bool * option error) :=
  if String.eqb RegistryOwnerGithubUsername ""
  then mret (false, Some (errors_New "registry owner GitHub username not configured"))
  else
    '(valid, err) ← call (gh_ValidateTokenForOwner token RegistryOwnerGithubUsername);
    match err with
    | Some e =>
        mret (false, Some (auth.Errorf_w sentinel_text
                             "failed to validate registry owner token" e))
    | None => mret (valid, None)
    end.

(** ValidateEphemeralOrOwnerToken validates either an ephemeral token or
    registry owner token; [now] is the answer of [time.Now()] inside
    validateEphemeralToken. *)
Definition ValidateEphemeralOrOwnerToken (now : Time) (token : string)
  : Prog GitHub (bool * option EphemeralTokenClaims * option error) :=
  let '(claims, err) :=
    auth.validateEphemeralToken hmac_sha256 json_Marshal_claims json_Unmarshal_token
      sentinel_text ephemeralTokenSecret now token in
  match err with
  | None => mret (true, claims, None)
  | Some e =>
      '(isOwner, ownerErr) ← ValidateRegistryOwnerAuth token;
      if bool_decide (ownerErr = None) && isOwner
      then mret (true, None, None)
      else mret (false, None,
                 Some (errors_New
                         ("invalid token: not a valid ephemeral token ("
                          +:+ Error sentinel_text e
                          +:+ ") or registry owner token ("
                          +:+ verb_v sentinel_text ownerErr +:+ ")")))
  end.

(** GenerateEphemeralTokenForGitHubUser validates a GitHub token and
    generates an ephemeral token.  [NewRequest] is the error of
    [http.NewRequestWithContext]; [rand_Read] and [now] are as for
    generateEphemeralToken. *)
Definition GenerateEphemeralTokenForGitHubUser
    (NewRequest : option error) (rand_Read : string * option error) (now : Time)
    (githubToken : string) : Prog GitHub (string * option error) :=
  match NewRequest with
  | Some e =>
      mret ("", Some (auth.Errorf_w sentinel_text "failed to create user request" e))
  | None =>
      '(err, StatusCode, userBody) ← call (gh_GetUser githubToken);
      match err with
      | Some e =>
          mret ("", Some (auth.Errorf_w sentinel_text "failed to get user info" e))
      | None =>
          if negb (StatusCode =? StatusOK)
          then mret ("", Some (errors_New
                                 ("failed to authenticate with GitHub: status "
                                  +:+ strconv_Itoa StatusCode)))
          else
            let '(userBody, err) := userBody in
            match err with
            | Some e =>
                mret ("", Some (auth.Errorf_w sentinel_text
                                  "failed to read user info" e))
            | None =>
                let '(userInfo, err) := json_Unmarshal_user userBody in
                match err with
                | Some e =>
                    mret ("", Some (auth.Errorf_w sentinel_text
                                      "failed to parse user info" e))
                | None =>
                    let '(ID, Login) := userInfo in
                    let '(ephemeralToken, err) :=
                      auth.generateEphemeralToken hmac_sha256 json_Marshal_claims
                        json_Marshal_token sentinel_text ephemeralTokenSecret
                        rand_Read now (strconv_Itoa ID) Login time_Hour in
                    match err with
                    | Some e =>
                        mret ("", Some (auth.Errorf_w sentinel_text
                                          "failed to generate ephemeral token" e))
                    | None => mret (ephemeralToken, None)
                    end
                end
            end
      end
  end.
End ServiceImpl.
End auth_service.

(** ** Package v0: the authorize endpoint *)

(** [auth.Service], as far as the authorize handler uses it. *)
Inductive AuthService : Type -> Type :=
| as_GenerateEphemeralTokenForGitHubUser (githubToken : string)
    : AuthService (string * option error).

Definition as_calls (tr : list (Event AuthService)) : list string :=
  List.map (fun ev => match ev with
                      | Ev (as_GenerateEphemeralTokenForGitHubUser t) _ => t
                      end) tr.

(** AuthorizeRequest represents the request body for the authorize
    endpoint; AuthorizeResponse the response from it. *)
Record AuthorizeRequest := mkAuthorizeRequest { GitHubToken : string }.

Record AuthorizeResponse := mkAuthorizeResponse {
  Resp_EphemeralToken : string;
  ExpiresIn : Z }.

(** What the authorize handler wrote: a status and an error text or the
    JSON of an [AuthorizeResponse]. *)
Inductive AuthorizeWritten : Type :=
| AuthorizeError (code : Z) (message : string)
| AuthorizeOK (resp : AuthorizeResponse).

Definition authorize_status (w : AuthorizeWritten) : Z :=
  match w with
  | AuthorizeError code _ => code
  | AuthorizeOK _ => StatusOK
  end.

Module authorize.
Section Handler.
Variable sentinel_text : error -> string.
(** [json.NewDecoder(r.Body).Decode(&req)] *)
Variable json_Decode : string * option error -> AuthorizeRequest * option error.

(** AuthorizeHandler handles requests to generate ephemeral tokens for
    GitHub users *)
Definition AuthorizeHandler (r : Request) : Prog AuthService AuthorizeWritten :=
  if negb (String.eqb (Method r) "POST")
  then mret (AuthorizeError StatusMethodNotAllowed "Method not allowed")
  else
    let '(req, err) := json_Decode (Body r) in
    match err with
    | Some e =>
        mret (AuthorizeError StatusBadRequest
                ("Invalid request body: " +:+ Error sentinel_text e))
    | None =>
        if String.eqb (GitHubToken req) ""
        then mret (AuthorizeError StatusBadRequest "GitHub token is required")
        else
          '(ephemeralToken, err) ←
            call (as_GenerateEphemeralTokenForGitHubUser (GitHubToken req));
          match err with
          | Some e =>
              mret (AuthorizeError StatusUnauthorized
                      ("Failed to authorize: " +:+ Error sentinel_text e))
          | None =>
              mret (AuthorizeOK {| Resp_EphemeralToken := ephemeralToken;
                                   ExpiresIn := 3600 |})
          end
    end.
End Handler.
End authorize.

(* ===================================================================== *)
(** ** Vocabulary of the further properties                               *)
(* ===================================================================== *)

Definition is_db_publish (c : DBCall) : bool :=
  match c with CPublish _ => true | _ => false end.

(** The number of regex metacharacters in a text. *)
Fixpoint count_special (s : string) : nat :=
  match s with
  | EmptyString => O
  | String b s' => ((if special b then 1 else 0) + count_special s')%nat
  end.

(** The answer of a SearchDetails call of a trace. *)
Definition search_details_answer (ev : Event RegistryService)
  : option (list ServerDetail * string * option error) :=
  match ev with
  | Ev e x =>
      match e in RegistryService X return X -> option _ with
      | reg_SearchDetails _ _ _ _ _ => fun x => Some x
      | _ => fun _ => None
      end x
  end.

(** A Publish call that answered no error. *)
Definition publish_succeeded (ev : Event RegistryService) : bool :=
  match ev with
  | Ev e x =>
      match e in RegistryService X return X -> bool with
      | reg_Publish _ => fun x => bool_decide (x = None)
      | _ => fun _ => false
      end x
  end.

(** A package with its three required fields. *)
Definition package_complete (pkg : Package) : Prop :=
  Package_RegistryName pkg <> "" /\ Package_Name pkg <> ""
  /\ Package_Version pkg <> "".

(** A text without the byte "/". *)
Definition no_slash (s : string) : Prop := string_mem "/"%char s = false.

(** The record the publish handler builds for an owner, a repository,
    what GitHub knows of it, a server id, packages and a release date. *)
Definition oss_server_detail (owner repo : string) (repoInfo : v0.RepoInfo)
    (serverID : string) (pkgs : list Package) (now : string) : ServerDetail :=
  {| Detail_Server :=
       {| Server_ID := serverID;
          Server_Name := "io.github." +:+ owner +:+ "/" +:+ repo;
          Server_Description := v0.RepoInfo_Description repoInfo;
          Server_Repository :=
            {| Repository_URL := v0.RepoInfo_HTMLURL repoInfo;
               Repository_Source := "github";
               Repository_ID := strconv_Itoa (v0.RepoInfo_ID repoInfo) |};
          Server_VersionDetail :=
            {| Version := "1.0.0-oss"; ReleaseDate := now; IsLatest := true |} |};
     Packages := pkgs;
     Remotes := [] |}.

(** The owner and the repository the publish handler works with: the two
    fields of the request when both are given, else what the repository url
    yields. *)
Definition oss_owner_repo (TrimSpace : string -> string) (ossReq : PublishOSSRequest)
  : string * string * option error :=
  if negb (String.eqb (Owner ossReq) "") && negb (String.eqb (Repo ossReq) "")
  then (Owner ossReq, Repo ossReq, None)
  else v0.extractGitHubRepo TrimSpace (RepositoryURL ossReq).

(** The token the publish handler hands to GitHub. *)
Definition oss_github_token (claims : option EphemeralTokenClaims) (token : string)
  : string :=
  match claims with
  | None => token
  | Some _ => ""
  end.

(** The answer GitHub gave to the request for the user of a token. *)
Definition get_user_answer (ev : Event GitHub)
  : option (option error * Z * (string * option error)) :=
  match ev with
  | Ev e x =>
      match e in GitHub X return X -> option _ with
      | gh_GetUser _ => fun x => Some x
      | _ => fun _ => None
      end x
  end.

(** The answer GitHub gave to a check of a token. *)
Definition check_answer (ev : Event GitHub) : option (bool * option error) :=
  match ev with
  | Ev e x =>
      match e in GitHub X return X -> option _ with
      | gh_ValidateToken _ _ => fun x => Some x
      | gh_ValidateTokenForOwner _ _ => fun x => Some x
      | gh_GetUser _ => fun _ => None
      end x
  end.

(** Stand-ins for running the auth service: GitHub knows one token, of
    the user "octocat" with id 583231, who is also the registry owner. *)
Definition sample_github : Impl GitHub unit := fun X e =>
  match e in GitHub X return unit -> X * unit with
  | gh_ValidateToken t _ => fun s => ((String.eqb t "gho_octocat", None), s)
  | gh_ValidateTokenForOwner t u => fun s =>
      ((String.eqb t "gho_octocat" && String.eqb u "octocat", None), s)
  | gh_GetUser t => fun s =>
      if String.eqb t "gho_octocat"
      then ((None, 200, ("octocat", None)), s)
      else ((None, 401, ("", None)), s)
  end.

Definition sample_Unmarshal_user (body : string) : (Z * string) * option error :=
  ((583231, body), None).

Definition sample_Generate (now : Time) (githubToken : string)
  : Prog GitHub (string * option error) :=
  auth_service.GenerateEphemeralTokenForGitHubUser sample_hmac sample_Marshal_claims
    sample_Marshal_token sample_sentinel_text sample_Unmarshal_user "secret"
    None ("0123456789abcdef", None) now githubToken.

Definition sample_ValidateEither (owner : string) (now : Time) (token : string)
  : Prog GitHub (bool * option EphemeralTokenClaims * option error) :=
  auth_service.ValidateEphemeralOrOwnerToken sample_hmac sample_Marshal_claims
    sample_Unmarshal_token sample_sentinel_text owner "secret" now token.

(** The auth service over GitHub, as the authorize handler is given it. *)
Definition sample_auth_service (now : Time) : Impl AuthService unit := fun X e =>
  match e in AuthService X return unit -> X * unit with
  | as_GenerateEphemeralTokenForGitHubUser t => fun s =>
      let '(x, s', _) := exec sample_github (sample_Generate now t) s in (x, s')
  end.

(** The body of an authorize request is taken as the GitHub token. *)
Definition sample_Decode (body : string * option error)
  : AuthorizeRequest * option error :=
  match body with
  | (b, None) => ({| GitHubToken := b |}, None)
  | (_, Some e) => ({| GitHubToken := "" |}, Some e)
  end.

(** The answers the auth service gave. *)
Definition as_answers (tr : list (Event AuthService))
  : list (string * option error) :=
  List.map (fun ev => match ev with
                      | Ev e x =>
                          match e in AuthService X return X -> string * option error with
                          | as_GenerateEphemeralTokenForGitHubUser _ => fun x => x
                          end x
                      end) tr.

(** [time.Second], in the unit of [time_Hour]. *)
Definition time_Second : Duration := 1000000000.



(** The second call of a run, when it is a Publish. *)
Definition second_published (calls : list RegCall) : option ServerDetail :=
  match calls with
  | _ :: RPublish sd :: _ => sd
  | _ => None
  end.

(* ===================================================================== *)
(** ** The regular expressions of the store                               *)
(* ===================================================================== *)

(** A model of the pattern language in which the store reads a "$regex"
    value (Perl-compatible syntax), independent of [regexp_QuoteMeta]:
    what is an operator is decided by the parser below, character by
    character.  Modelled are literals, [\] escapes, [.], the anchors [^]
    and [$], bracket classes with ranges and negation, groups, alternation
    and the quantifiers [*], [+], [?], [{n}], [{n,}] and [{n,m}].  A
    malformed pattern and a pattern outside this fragment (a lazy or
    possessive quantifier, a look-around, a back reference, a named class)
    have no syntax tree. *)

Inductive regex : Type :=
| REmpty
| RChar (c : ascii)
| RAny
| RClass (negated : bool) (ranges : list (ascii * ascii))
| RBol
| REol
| RSeq (r1 r2 : regex)
| RAlt (r1 r2 : regex)
| RGroup (r : regex)
| RStar (r : regex)
| RPlus (r : regex)
| ROpt (r : regex)
| RRepeat (r : regex) (n : nat) (m : option nat).

(** The tree of a pattern without operators: the characters in sequence. *)
Fixpoint regex_of_literal (s : string) : regex :=
  match s with
  | EmptyString => REmpty
  | String c s' => RSeq (RChar c) (regex_of_literal s')
  end.

(** The depth of nested quantifiers, the source of exponential
    backtracking. *)
Fixpoint regex_star_height (r : regex) : nat :=
  match r with
  | REmpty | RChar _ | RAny | RClass _ _ | RBol | REol => 0
  | RSeq r1 r2 | RAlt r1 r2 => Nat.max (regex_star_height r1) (regex_star_height r2)
  | RGroup r => regex_star_height r
  | RStar r | RPlus r | ROpt r | RRepeat r _ _ => S (regex_star_height r)
  end.

(** *** Parsing *)

Definition regex_word_char (c : ascii) : bool :=
  let n := nat_of_ascii c in
  ((48 <=? n) && (n <=? 57) || (65 <=? n) && (n <=? 90)
   || (97 <=? n) && (n <=? 122))%nat.

Definition regex_digits : list (ascii * ascii) := [("0", "9")]%char.
Definition regex_word : list (ascii * ascii) :=
  [("a", "z"); ("A", "Z"); ("0", "9"); ("_", "_")]%char.
Definition regex_space : list (ascii * ascii) :=
  [(ascii_of_nat 9, ascii_of_nat 13); (" ", " ")]%char.

(** The character after a backslash: a character that is no letter and no
    digit stands for itself; of the letters, the class and control escapes
    are modelled. *)
Definition regex_escape (e : ascii) : option regex :=
  if negb (regex_word_char e) then Some (RChar e)
  else if ascii_eqb e "d" then Some (RClass false regex_digits)
  else if ascii_eqb e "D" then Some (RClass true regex_digits)
  else if ascii_eqb e "w" then Some (RClass false regex_word)
  else if ascii_eqb e "W" then Some (RClass true regex_word)
  else if ascii_eqb e "s" then Some (RClass false regex_space)
  else if ascii_eqb e "S" then Some (RClass true regex_space)
  else if ascii_eqb e "n" then Some (RChar (ascii_of_nat 10))
  else if ascii_eqb e "r" then Some (RChar (ascii_of_nat 13))
  else if ascii_eqb e "t" then Some (RChar (ascii_of_nat 9))
  else None.

(** A decimal number at the head of a text: its value, if there is a
    digit, the number of digits, and the rest. *)
Fixpoint regex_number (s : string) (value : option nat) (len : nat)
  : option nat * nat * string :=
  match s with
  | String c s' =>
      let n := nat_of_ascii c in
      if ((48 <=? n) && (n <=? 57))%nat
      then regex_number s' (Some (10 * default 0 value + (n - 48)))%nat (S len)
      else (value, len, s)
  | EmptyString => (value, len, s)
  end.

(** What follows an opening brace: a quantifier with its bounds and its
    length in characters, a quantifier with bounds out of order, or no
    quantifier, in which case the brace is a literal. *)
Inductive regex_brace : Type :=
| BraceLiteral
| BraceMalformed
| BraceQuantifier (n : nat) (m : option nat) (len : nat).

Definition regex_brace_at (rest : string) : regex_brace :=
  let '(n, k1, r1) := regex_number rest None 0 in
  match n, r1 with
  | Some n, String "}" _ => BraceQuantifier n (Some n) (k1 + 1)
  | Some n, String "," r2 =>
      let '(m, k2, r3) := regex_number r2 None 0 in
      match r3, m with
      | String "}" _, None => BraceQuantifier n None (k1 + k2 + 2)
      | String "}" _, Some m =>
          if (n <=? m)%nat then BraceQuantifier n (Some m) (k1 + k2 + 2)
          else BraceMalformed
      | _, _ => BraceLiteral
      end
  | _, _ => BraceLiteral
  end.

(** The items of a bracket class up to its closing bracket, with the
    number of characters read.  A closing bracket that comes first is an
    item; a hyphen between two characters makes a range. *)
Fixpoint regex_class_items (p : string) (first : bool) (acc : list (ascii * ascii))
    (len : nat) : option (list (ascii * ascii) * nat) :=
  match p with
  | EmptyString => None
  | String a q =>
      if ascii_eqb a "]" && negb first then Some (rev acc, S len)
      else if ascii_eqb a "\" then
        match q with
        | String e q' =>
            if regex_word_char e then None
            else regex_class_items q' false ((e, e) :: acc) (len + 2)
        | EmptyString => None
        end
      else if ascii_eqb a "[" && (String.prefix ":" q || String.prefix "." q
                                  || String.prefix "=" q) then None
      else
        match q with
        | String "-" (String b q') =>
            if ascii_eqb b "]" then regex_class_items q false ((a, a) :: acc) (S len)
            else if ascii_eqb b "\" then None
            else if (nat_of_ascii a <=? nat_of_ascii b)%nat
            then regex_class_items q' false ((a, b) :: acc) (len + 3)
            else None
        | _ => regex_class_items q false ((a, a) :: acc) (S len)
        end
  end.

Definition regex_class_at (rest : string) : option (regex * nat) :=
  match rest with
  | String "^" rest' =>
      '(ranges, len) ← regex_class_items rest' true [] 1%nat;
      Some (RClass true ranges, len)
  | _ =>
      '(ranges, len) ← regex_class_items rest true [] 0%nat;
      Some (RClass false ranges, len)
  end.

(** The parser reads the pattern from left to right.  It keeps the atoms
    of the sequence it is in, newest first, the alternatives of the group
    it is in that are complete, the same of the enclosing groups, and the
    number of coming characters an earlier step has read already. *)
Record regex_parser := mkRegexParser {
  rx_skip : nat;
  rx_alts : list regex;
  rx_cur : list regex;
  rx_stack : list (list regex * list regex) }.

Definition regex_seq_of (atoms : list regex) : regex := fold_right RSeq REmpty atoms.

Fixpoint regex_alt_of (r : regex) (more : list regex) : regex :=
  match more with
  | [] => r
  | r' :: more' => RAlt r (regex_alt_of r' more')
  end.

(** The tree of a group: its alternatives, each a sequence. *)
Definition regex_close (alts cur : list regex) : regex :=
  match rev (regex_seq_of (rev cur) :: alts) with
  | r :: more => regex_alt_of r more
  | [] => REmpty
  end.

Definition regex_push (a : regex) (skip : nat) (st : regex_parser) : regex_parser :=
  {| rx_skip := skip; rx_alts := rx_alts st; rx_cur := a :: rx_cur st;
     rx_stack := rx_stack st |}.

(** A quantifier applies to the atom before it, which must not be an
    anchor or a quantified atom. *)
Definition regex_quantifiable (a : regex) : bool :=
  match a with
  | RBol | REol | RStar _ | RPlus _ | ROpt _ | RRepeat _ _ _ => false
  | _ => true
  end.

Definition regex_quantify (q : regex -> regex) (skip : nat) (st : regex_parser)
  : option regex_parser :=
  match rx_cur st with
  | a :: cur' =>
      if regex_quantifiable a
      then Some {| rx_skip := skip; rx_alts := rx_alts st; rx_cur := q a :: cur';
                   rx_stack := rx_stack st |}
      else None
  | [] => None
  end.

Definition regex_open (skip : nat) (st : regex_parser) : regex_parser :=
  {| rx_skip := skip; rx_alts := []; rx_cur := [];
     rx_stack := (rx_alts st, rx_cur st) :: rx_stack st |}.

(** One character [c] of the pattern, with the text [rest] after it. *)
Definition regex_step (c : ascii) (rest : string) (st : regex_parser)
  : option regex_parser :=
  match rx_skip st with
  | S k => Some {| rx_skip := k; rx_alts := rx_alts st; rx_cur := rx_cur st;
                   rx_stack := rx_stack st |}
  | O =>
      if ascii_eqb c "\" then
        match rest with
        | String e _ => a ← regex_escape e; Some (regex_push a 1 st)
        | EmptyString => None
        end
      else if ascii_eqb c "." then Some (regex_push RAny 0 st)
      else if ascii_eqb c "^" then Some (regex_push RBol 0 st)
      else if ascii_eqb c "$" then Some (regex_push REol 0 st)
      else if ascii_eqb c "*" then regex_quantify RStar 0 st
      else if ascii_eqb c "+" then regex_quantify RPlus 0 st
      else if ascii_eqb c "?" then regex_quantify ROpt 0 st
      else if ascii_eqb c "{" then
        match regex_brace_at rest with
        | BraceQuantifier n m len => regex_quantify (fun a => RRepeat a n m) len st
        | BraceMalformed => None
        | BraceLiteral => Some (regex_push (RChar c) 0 st)
        end
      else if ascii_eqb c "(" then
        match rest with
        | String "?" (String ":" _) => Some (regex_open 2 st)
        | String "?" _ => None
        | _ => Some (regex_open 0 st)
        end
      else if ascii_eqb c ")" then
        match rx_stack st with
        | (alts0, cur0) :: stack' =>
            Some {| rx_skip := 0; rx_alts := alts0;
                    rx_cur := RGroup (regex_close (rx_alts st) (rx_cur st)) :: cur0;
                    rx_stack := stack' |}
        | [] => None
        end
      else if ascii_eqb c "|" then
        Some {| rx_skip := 0; rx_alts := regex_seq_of (rev (rx_cur st)) :: rx_alts st;
                rx_cur := []; rx_stack := rx_stack st |}
      else if ascii_eqb c "[" then
        '(cls, len) ← regex_class_at rest; Some (regex_push cls len st)
      else Some (regex_push (RChar c) 0 st)
  end.

Fixpoint regex_steps (p : string) (st : regex_parser) : option regex_parser :=
  match p with
  | EmptyString => Some st
  | String c p' => st' ← regex_step c p' st; regex_steps p' st'
  end.

(** The tree of a pattern: every group must be closed at its end. *)
Definition regex_parse (p : string) : option regex :=
  st ← regex_steps p {| rx_skip := 0; rx_alts := []; rx_cur := []; rx_stack := [] |};
  match rx_skip st, rx_stack st with
  | O, [] => Some (regex_close (rx_alts st) (rx_cur st))
  | _, _ => None
  end.

(** *** Matching *)

(** A place in the text: whether it is the start, and what is left. *)
Definition regex_pos : Type := bool * string.

Definition regex_char_eqb (ci : bool) (c d : ascii) : bool :=
  if ci then ascii_eqb (ascii_lower c) (ascii_lower d) else ascii_eqb c d.

Definition regex_in_ranges (ranges : list (ascii * ascii)) (d : ascii) : bool :=
  existsb (fun r => (nat_of_ascii r.1 <=? nat_of_ascii d)%nat
                    && (nat_of_ascii d <=? nat_of_ascii r.2)%nat) ranges.

Definition regex_in_class (ci : bool) (ranges : list (ascii * ascii)) (d : ascii)
  : bool :=
  regex_in_ranges ranges d
  || ci && (regex_in_ranges ranges (ascii_lower d)
            || regex_in_ranges ranges (ascii_upper d)).

(** One character of the text, if it passes the test. *)
Definition regex_take (test : ascii -> bool) (p : regex_pos) : list regex_pos :=
  match p.2 with
  | String d s' => if test d then [(false, s')] else []
  | EmptyString => []
  end.

Definition regex_at_end (s : string) : bool :=
  String.eqb s "" || String.eqb s (String (ascii_of_nat 10) "").

(** Repetition of a matcher: any number of times, each time on a shorter
    rest; exactly [n] times; at most [n] times.  The longer matches come
    first. *)
Fixpoint regex_many (f : regex_pos -> list regex_pos) (fuel : nat) (p : regex_pos)
  : list regex_pos :=
  match fuel with
  | O => [p]
  | S fuel' =>
      (flat_map (regex_many f fuel')
         (List.filter (fun q => (String.length q.2 <? String.length p.2)%nat) (f p))
       ++ [p])%list
  end.

Fixpoint regex_times (f : regex_pos -> list regex_pos) (n : nat) (p : regex_pos)
  : list regex_pos :=
  match n with
  | O => [p]
  | S n' => flat_map (regex_times f n') (f p)
  end.

Fixpoint regex_upto (f : regex_pos -> list regex_pos) (n : nat) (p : regex_pos)
  : list regex_pos :=
  match n with
  | O => [p]
  | S n' => (flat_map (regex_upto f n') (f p) ++ [p])%list
  end.

(** The places at which a match of [r] that starts at [p] can end, in the
    order a backtracking matcher tries them; [ci] is the option "i". *)
Fixpoint regex_match (ci : bool) (r : regex) (p : regex_pos) : list regex_pos :=
  match r with
  | REmpty => [p]
  | RChar c => regex_take (regex_char_eqb ci c) p
  | RAny => regex_take (fun d => negb (ascii_eqb d (ascii_of_nat 10))) p
  | RClass negated ranges =>
      regex_take (fun d => xorb negated (regex_in_class ci ranges d)) p
  | RBol => if p.1 then [p] else []
  | REol => if regex_at_end p.2 then [p] else []
  | RSeq r1 r2 => flat_map (regex_match ci r2) (regex_match ci r1 p)
  | RAlt r1 r2 => (regex_match ci r1 p ++ regex_match ci r2 p)%list
  | RGroup r1 => regex_match ci r1 p
  | RStar r1 => regex_many (regex_match ci r1) (S (String.length p.2)) p
  | RPlus r1 =>
      flat_map (regex_many (regex_match ci r1) (S (String.length p.2)))
        (regex_match ci r1 p)
  | ROpt r1 => (regex_match ci r1 p ++ [p])%list
  | RRepeat r1 n None =>
      flat_map (regex_many (regex_match ci r1) (S (String.length p.2)))
        (regex_times (regex_match ci r1) n p)
  | RRepeat r1 n (Some m) =>
      flat_map (regex_upto (regex_match ci r1) (m - n))
        (regex_times (regex_match ci r1) n p)
  end.

Definition regex_matches_at (ci : bool) (r : regex) (p : regex_pos) : bool :=
  match regex_match ci r p with
  | [] => false
  | _ :: _ => true
  end.

(** A pattern is searched for, not matched against the whole text: a
    match may start at any place. *)
Fixpoint regex_search_from (ci : bool) (r : regex) (start : bool) (text : string)
  : bool :=
  regex_matches_at ci r (start, text)
  || match text with
     | EmptyString => false
     | String _ text' => regex_search_from ci r false text'
     end.

(** [{"$regex": p, "$options": options}] on a text; [None] when the
    pattern has no tree. *)
Definition regex_find (options p text : string) : option bool :=
  r ← regex_parse p;
  Some (regex_search_from (string_mem "i" options) r true text).

(** The number of ways in which the pattern matches in the text, over
    all the places at which a match may start: the paths a backtracking
    matcher may have to go through before it gives up. *)
Fixpoint regex_ways (ci : bool) (r : regex) (start : bool) (text : string) : nat :=
  (List.length (regex_match ci r (start, text))
   + match text with
     | EmptyString => 0
     | String _ text' => regex_ways ci r false text'
     end)%nat.

(** *** The patterns in a filter *)

(** The texts under the key "$regex" anywhere in a filter value. *)
Fixpoint bson_patterns (b : bson) : list string :=
  match b with
  | BStr _ => []
  | BDoc fields =>
      (fix go (l : list (string * bson)) : list string :=
         match l with
         | [] => []
         | (k, v) :: l' =>
             (match v with
              | BStr p => if String.eqb k "$regex" then [p] else []
              | _ => bson_patterns v
              end ++ go l')%list
         end) fields
  | BArr items =>
      (fix go (l : list bson) : list string :=
         match l with
         | [] => []
         | v :: l' => (bson_patterns v ++ go l')%list
         end) items
  end.

(* ===================================================================== *)
(** * Properties                                                          *)
(* ===================================================================== *)

(* --------------------------------------------------------------------- *)
(** ** What the service asks of the database                              *)
(* --------------------------------------------------------------------- *)

Section ServiceCalls.
Context {S : Type} (db : Impl Database S) (s : S).

Lemma effective_limit_default (limit : Z) :
  limit <= 0 -> effective_limit limit = 30.
Proof. unfold effective_limit. destruct (Z.leb_spec limit 0); lia. Qed.

Lemma GetAll_calls :
  db_calls (trace_of (exec db service.GetAll s)) = [CList nil_filter "" 30].
Proof.
  unfold service.GetAll, trace_of. cbn.
  destruct (db _ _ s) as [[[entries next] err] s1].
  destruct err; reflexivity.
Qed.

Lemma List_calls cursor limit :
  db_calls (trace_of (exec db (service.List cursor limit) s))
  = [CList nil_filter cursor (effective_limit limit)].
Proof.
  unfold service.List, trace_of, effective_limit. cbn.
  destruct (db _ _ s) as [[[entries next] err] s1].
  destruct err; reflexivity.
Qed.

Lemma Search_calls query registryName url cursor limit :
  db_calls (trace_of (exec db (service.Search query registryName url cursor limit) s))
  = [CList (text_filter query registryName url) cursor (effective_limit limit)].
Proof.
  unfold service.Search, trace_of, effective_limit, text_filter. cbn.
  destruct (db _ _ s) as [[[entries next] err] s1].
  destruct err; reflexivity.
Qed.

Lemma SearchDetails_calls query registryName url cursor limit :
  db_calls (trace_of
    (exec db (service.SearchDetails query registryName url cursor limit) s))
  = CListDetails (text_filter query registryName url) cursor (effective_limit limit)
    :: (if retries query (text_phase db s query registryName url cursor limit).1
        then [CListDetails (fallback_filter query registryName url) cursor
                (effective_limit limit)]
        else []).
Proof.
  unfold service.SearchDetails, trace_of, text_phase, retries, fallback_filter,
    or_clauses.
  fold (effective_limit limit). fold (text_filter query registryName url). cbn.
  destruct (db _ _ s) as [[[entries next] err] s1]. cbn.
  destruct err as [e|]; [reflexivity|].
  destruct (Nat.eqb (List.length entries) 0 && negb (String.eqb query "")); cbn;
    [|reflexivity].
  destruct (db _ _ s1) as [[[entries' next'] err'] s2].
  destruct err'; reflexivity.
Qed.
End ServiceCalls.

(* --------------------------------------------------------------------- *)
(** ** Limits                                                             *)
(* --------------------------------------------------------------------- *)

Lemma limits_of_calls (tr : list (Event Database)) (cs : list DBCall) :
  db_calls tr = cs -> limits_of tr = omap call_limit cs.
Proof. unfold limits_of. by intros ->. Qed.

Lemma filters_of_calls (tr : list (Event Database)) (cs : list DBCall) :
  db_calls tr = cs -> filters_of tr = omap call_filter cs.
Proof. unfold filters_of. by intros ->. Qed.

(** C5: a call of the service-layer List, Search or SearchDetails with a
    limit that is zero or negative asks the database with the default
    limit 30: every listing call it makes carries 30 (SearchDetails makes
    one or two), and the whole call is the call with limit 30. *)
Theorem nonpositive_limit_defaults_to_30 {S} (db : Impl Database S) (s : S)
    (query registryName url cursor : string) (limit : Z) :
  limit <= 0 ->
  (limits_of (trace_of (exec db (service.List cursor limit) s)) = [30]
   /\ service.List cursor limit = service.List cursor 30)
  /\ (limits_of (trace_of
        (exec db (service.Search query registryName url cursor limit) s)) = [30]
      /\ service.Search query registryName url cursor limit
         = service.Search query registryName url cursor 30)
  /\ ((limits_of (trace_of
         (exec db (service.SearchDetails query registryName url cursor limit) s))
       = [30]
       \/ limits_of (trace_of
            (exec db (service.SearchDetails query registryName url cursor limit) s))
          = [30; 30])
      /\ service.SearchDetails query registryName url cursor limit
         = service.SearchDetails query registryName url cursor 30).
Proof.
  intros Hle. pose proof (effective_limit_default limit Hle) as Hdef.
  assert (Hif : (if limit <=? 0 then 30 else limit) = 30) by exact Hdef.
  repeat split.
  - rewrite (limits_of_calls _ _ (List_calls db s cursor limit)). cbn. by rewrite Hdef.
  - unfold service.List. by rewrite Hif.
  - rewrite (limits_of_calls _ _ (Search_calls db s query registryName url cursor limit)).
    cbn. by rewrite Hdef.
  - unfold service.Search. by rewrite Hif.
  - rewrite (limits_of_calls _ _
      (SearchDetails_calls db s query registryName url cursor limit)).
    rewrite Hdef.
    destruct (retries query _); cbn; [by right | by left].
  - unfold service.SearchDetails. by rewrite Hif.
Qed.

Lemma nonpositive_limit_defaults_to_30_witness :
  -5 <= 0 /\
  limits_of (trace_of
    (exec memdb.impl (service.SearchDetails "file" "" "" "" (-5)) sample_store))
  = [30; 30].
Proof.
  split; [lia|].
  destruct (nonpositive_limit_defaults_to_30 memdb.impl sample_store
              "file" "" "" "" (-5) ltac:(lia)) as (_ & _ & [H | H] & _).
  - vm_compute in H. discriminate H.
  - exact H.
Defined.

(* --------------------------------------------------------------------- *)
(** ** Publish and GetAll                                                 *)
(* --------------------------------------------------------------------- *)

(** C10: Publish called with a nil ServerDetail returns ErrInvalidInput
    and makes no call of the database at all, so whatever the database
    is, its state after the call is its state before. *)
Theorem Publish_nil_is_invalid_input {S} (db : Impl Database S) (s : S) :
  service.Publish None = Ret (Some ErrInvalidInput)
  /\ exec db (service.Publish None) s = (Some ErrInvalidInput, s, []).
Proof. split; reflexivity. Qed.

(** C8: GetAll asks the database once, for the first page of 30 entries
    with no filter and no cursor, drops the next cursor of the answer and
    returns its entries; when the database honours the limit of that call
    GetAll returns at most 30 entries, however many are stored. *)
Theorem GetAll_returns_first_page_only {S} (db : Impl Database S) (s : S) :
  len (db _ (db_List nil_filter "" 30) s).1.1.1 <= 30 ->
  db_calls (trace_of (exec db service.GetAll s)) = [CList nil_filter "" 30]
  /\ len (result_of (exec db service.GetAll s)).1 <= 30
  /\ (forall entries next,
        (db _ (db_List nil_filter "" 30) s).1 = (entries, next, None) ->
        result_of (exec db service.GetAll s) = (entries, None)).
Proof.
  intros Hlim. split; [apply GetAll_calls|].
  unfold service.GetAll, result_of. cbn.
  destruct (db _ _ s) as [[[entries next] err] s1]. cbn in Hlim.
  destruct err as [e|]; cbn.
  - split; [unfold len; cbn; lia|]. intros ? ? [=].
  - split; [exact Hlim|]. by intros ? ? [= -> ->].
Qed.

Lemma GetAll_returns_first_page_only_witness :
  len (memdb.impl _ (db_List nil_filter "" 30) (numbered_store 31)).1.1.1 <= 30
  /\ len (numbered_store 31) = 31
  /\ len (result_of (exec memdb.impl service.GetAll (numbered_store 31))).1 <= 30.
Proof.
  assert (H : len (memdb.impl _ (db_List nil_filter "" 30) (numbered_store 31)).1.1.1
              <= 30) by (vm_compute; discriminate).
  split; [exact H|]. split; [reflexivity|].
  exact (proj1 (proj2 (GetAll_returns_first_page_only memdb.impl (numbered_store 31) H))).
Defined.

(** With 31 records stored, the last one is not among what GetAll returns. *)
Example GetAll_misses_record_31 :
  let got := (result_of (exec memdb.impl service.GetAll (numbered_store 31))).1 in
  len got = 30 /\ existsb (String.eqb (memdb.id_of (numbered 30)))
                    (List.map Server_ID got) = false.
Proof. vm_compute. split; reflexivity. Qed.

(* --------------------------------------------------------------------- *)
(** ** Filters                                                            *)
(* --------------------------------------------------------------------- *)

Ltac case_filters query registryName url :=
  unfold fallback_filter, text_filter;
  destruct (String.eqb query ""), (String.eqb registryName ""),
    (String.eqb url ""); cbn; by simplify_map_eq.

Lemma text_filter_text query registryName url :
  text_filter query registryName url !! "$text"
  = if String.eqb query "" then None else Some (BDoc [("$search", BStr query)]).
Proof. case_filters query registryName url. Qed.

Lemma text_filter_registry_name query registryName url :
  text_filter query registryName url !! "packages.registry_name"
  = if String.eqb registryName "" then None else Some (BStr registryName).
Proof. case_filters query registryName url. Qed.

Lemma text_filter_url query registryName url :
  text_filter query registryName url !! "repository.url"
  = if String.eqb url "" then None else Some (BStr url).
Proof. case_filters query registryName url. Qed.

Lemma text_filter_or query registryName url :
  text_filter query registryName url !! "$or" = None.
Proof. case_filters query registryName url. Qed.

Lemma fallback_filter_text query registryName url :
  fallback_filter query registryName url !! "$text" = None.
Proof. case_filters query registryName url. Qed.

Lemma fallback_filter_or query registryName url :
  fallback_filter query registryName url !! "$or"
  = Some (or_clauses (service.escapeRegex query)).
Proof. case_filters query registryName url. Qed.

Lemma fallback_filter_other query registryName url (key : string) :
  key <> "$text" -> key <> "$or" ->
  fallback_filter query registryName url !! key
  = text_filter query registryName url !! key.
Proof.
  intros Ht Ho. unfold fallback_filter.
  by rewrite lookup_insert_ne, lookup_delete_ne.
Qed.

(** The two exact-match constraints of a filter. *)
Lemma fallback_filter_registry_name query registryName url :
  fallback_filter query registryName url !! "packages.registry_name"
  = if String.eqb registryName "" then None else Some (BStr registryName).
Proof.
  rewrite fallback_filter_other by done. apply text_filter_registry_name.
Qed.

Lemma fallback_filter_url query registryName url :
  fallback_filter query registryName url !! "repository.url"
  = if String.eqb url "" then None else Some (BStr url).
Proof. rewrite fallback_filter_other by done. apply text_filter_url. Qed.

(** C4: the filter of every listing call of Search and of SearchDetails
    carries the registry name under "packages.registry_name" and the url
    under "repository.url" as plain values whenever they are not empty, next
    to the text clause; the retry of SearchDetails uses the first filter with
    "$text" deleted and "$or" added, every other key unchanged. *)
Theorem filters_keep_exact_match_constraints {S} (db : Impl Database S) (s : S)
    (query registryName url cursor : string) (limit : Z) :
  (filters_of (trace_of
     (exec db (service.Search query registryName url cursor limit) s))
   = [text_filter query registryName url]
   /\ (filters_of (trace_of
         (exec db (service.SearchDetails query registryName url cursor limit) s))
       = [text_filter query registryName url]
       \/ filters_of (trace_of
            (exec db (service.SearchDetails query registryName url cursor limit) s))
          = [text_filter query registryName url;
             fallback_filter query registryName url]))
  /\ (exact_match_constraints registryName url (text_filter query registryName url)
      /\ exact_match_constraints registryName url
           (fallback_filter query registryName url))
  /\ (text_filter query registryName url !! "$text"
      = (if String.eqb query "" then None else Some (BDoc [("$search", BStr query)]))
      /\ fallback_filter query registryName url !! "$text" = None
      /\ fallback_filter query registryName url
         = <["$or" := or_clauses (service.escapeRegex query)]>
             (delete "$text" (text_filter query registryName url))).
Proof.
  split; [split|split].
  - by rewrite (filters_of_calls _ _
                  (Search_calls db s query registryName url cursor limit)).
  - rewrite (filters_of_calls _ _
               (SearchDetails_calls db s query registryName url cursor limit)).
    destruct (retries query _); cbn; [by right | by left].
  - split; split;
      auto using text_filter_registry_name, text_filter_url,
        fallback_filter_registry_name, fallback_filter_url.
  - split; [apply text_filter_text|]. split; [apply fallback_filter_text|].
    reflexivity.
Qed.

(** In the in-memory store the keys of a filter are a conjunction: a
    record that matches a filter with the two constraints has a package of
    that registry and that very repository url. *)
Lemma memdb_filter_is_conjunction (withPackages : bool) (f : Filter)
    (registryName url : string) (sd : ServerDetail) :
  exact_match_constraints registryName url f ->
  memdb.filter_matches withPackages f sd = true ->
  (registryName <> "" ->
   existsb (fun pkg => String.eqb (Package_RegistryName pkg) registryName)
     (Packages sd) = true)
  /\ (url <> "" -> Repository_URL (Server_Repository (Detail_Server sd)) = url).
Proof.
  intros [Hr Hu] Hm. unfold memdb.filter_matches in Hm.
  rewrite Hr, Hu in Hm.
  apply andb_prop in Hm as [Hm _]. apply andb_prop in Hm as [Hm Hurl].
  apply andb_prop in Hm as [_ Hreg].
  split; intros Hne.
  - destruct (String.eqb_spec registryName ""); [done | exact Hreg].
  - destruct (String.eqb_spec url ""); [done | by apply String.eqb_eq].
Qed.

(* --------------------------------------------------------------------- *)
(** ** The fallback search                                                *)
(* --------------------------------------------------------------------- *)

Lemma SearchDetails_result {S} (db : Impl Database S) (s : S)
    (query registryName url cursor : string) (limit : Z) :
  result_of (exec db (service.SearchDetails query registryName url cursor limit) s)
  = let '(first, s1) := text_phase db s query registryName url cursor limit in
    if retries query first
    then answer_or_error
           (db _ (db_ListDetails (fallback_filter query registryName url) cursor
                    (effective_limit limit)) s1).1
    else answer_or_error first.
Proof.
  unfold service.SearchDetails, result_of, text_phase, retries, fallback_filter,
    or_clauses.
  fold (effective_limit limit). fold (text_filter query registryName url). cbn.
  destruct (db _ _ s) as [[[entries next] err] s1]. cbn.
  destruct err as [e|]; [reflexivity|].
  destruct (Nat.eqb (List.length entries) 0 && negb (String.eqb query "")); cbn;
    [|reflexivity].
  destruct (db _ _ s1) as [[[entries' next'] err'] s2].
  destruct err'; reflexivity.
Qed.

Lemma Search_result {S} (db : Impl Database S) (s : S)
    (query registryName url cursor : string) (limit : Z) :
  result_of (exec db (service.Search query registryName url cursor limit) s)
  = answer_or_error
      (db _ (db_List (text_filter query registryName url) cursor
               (effective_limit limit)) s).1.
Proof.
  unfold service.Search, result_of. fold (effective_limit limit).
  fold (text_filter query registryName url). cbn.
  destruct (db _ _ s) as [[[entries next] err] s1].
  destruct err; reflexivity.
Qed.

Lemma retries_intro (query : string) (next : string) :
  query <> "" -> retries query ([], next, None) = true.
Proof. intros Hq. cbn. by destruct (String.eqb_spec query ""). Qed.

(** C1, as the code has it: when the query is not empty and the full-text
    phase of SearchDetails answers without error and with no entry,
    SearchDetails asks the database a second time, with the same cursor and
    limit and with the filter in which "$text" is replaced by an "$or" of
    three case-insensitive regex clauses on name, description and
    packages.name, and returns the answer of that second call.  Search
    asks once, with the text filter, and returns that answer. *)
Theorem SearchDetails_falls_back_to_substring_match {S} (db : Impl Database S) (s : S)
    (query registryName url cursor next : string) (limit : Z) :
  query <> "" ->
  (text_phase db s query registryName url cursor limit).1 = ([], next, None) ->
  db_calls (trace_of
    (exec db (service.SearchDetails query registryName url cursor limit) s))
  = [CListDetails (text_filter query registryName url) cursor (effective_limit limit);
     CListDetails (fallback_filter query registryName url) cursor
       (effective_limit limit)]
  /\ result_of
       (exec db (service.SearchDetails query registryName url cursor limit) s)
     = answer_or_error
         (db _ (db_ListDetails (fallback_filter query registryName url) cursor
                  (effective_limit limit))
            (text_phase db s query registryName url cursor limit).2).1
  /\ fallback_filter query registryName url !! "$or"
     = Some (BArr [service.regex_clause "name" (service.escapeRegex query);
                   service.regex_clause "description" (service.escapeRegex query);
                   service.regex_clause "packages.name" (service.escapeRegex query)])
  /\ asks_substring_match query (trace_of
       (exec db (service.SearchDetails query registryName url cursor limit) s))
  /\ db_calls (trace_of
       (exec db (service.Search query registryName url cursor limit) s))
     = [CList (text_filter query registryName url) cursor (effective_limit limit)]
  /\ result_of (exec db (service.Search query registryName url cursor limit) s)
     = answer_or_error
         (db _ (db_List (text_filter query registryName url) cursor
                  (effective_limit limit)) s).1.
Proof.
  intros Hq Hfirst.
  pose proof (retries_intro query next Hq) as Hret.
  split; [|split; [|split; [|split; [|split]]]].
  - rewrite SearchDetails_calls, Hfirst, Hret. reflexivity.
  - rewrite SearchDetails_result.
    destruct (text_phase db s query registryName url cursor limit) as [first s1].
    cbn in Hfirst. subst first. by rewrite Hret.
  - apply fallback_filter_or.
  - exists (fallback_filter query registryName url). split.
    + rewrite (filters_of_calls _ _
                 (SearchDetails_calls db s query registryName url cursor limit)).
      rewrite Hfirst, Hret. cbn. auto.
    + apply fallback_filter_or.
  - apply Search_calls.
  - apply Search_result.
Qed.

(** On the in-memory store: the query "file" has no full-text match, and
    the retry of SearchDetails finds "my-filesystem-tool". *)
Lemma SearchDetails_falls_back_to_substring_match_witness :
  "file" <> ""
  /\ (text_phase memdb.impl sample_store "file" "" "" "" 30).1 = ([], "", None)
  /\ result_of (exec memdb.impl (service.SearchDetails "file" "" "" "" 30) sample_store)
     = ([filesystem_tool], "", None).
Proof.
  assert (Hq : "file" <> "") by discriminate.
  assert (Hfirst : (text_phase memdb.impl sample_store "file" "" "" "" 30).1
                   = ([], "", None)) by (vm_compute; reflexivity).
  split; [exact Hq|]. split; [exact Hfirst|].
  destruct (SearchDetails_falls_back_to_substring_match memdb.impl sample_store
              "file" "" "" "" "" 30 Hq Hfirst) as (_ & Hres & _).
  rewrite Hres. vm_compute. reflexivity.
Defined.

(** C1 fails for Search: the record named "my-filesystem-tool" has "file"
    inside its name, the full-text phase answers with no entry, and Search
    returns that empty answer without any call that asks for the substring
    match; so it is not true that every Search with a non-empty query and an
    empty full-text answer asks for it. *)
Lemma Search_does_not_fall_back :
  (let run := exec memdb.impl (service.Search "file" "" "" "" 30) sample_store in
   strings_Contains (memdb.name_of filesystem_tool) "file" = true
   /\ In filesystem_tool sample_store
   /\ result_of run = ([], "", None)
   /\ db_calls (trace_of run)
      = [CList {["$text" := BDoc [("$search", BStr "file")]]} "" 30]
   /\ ~ asks_substring_match "file" (trace_of run))
  /\ ~ (forall (S : Type) (db : Impl Database S) (s : S)
               (query registryName url cursor : string) (limit : Z),
          query <> "" ->
          (db _ (db_List (text_filter query registryName url) cursor
                   (effective_limit limit)) s).1.1.1 = [] ->
          asks_substring_match query
            (trace_of (exec db (service.Search query registryName url cursor limit) s))).
Proof.
  assert (Hno : ~ asks_substring_match "file"
                  (trace_of (exec memdb.impl (service.Search "file" "" "" "" 30)
                               sample_store))).
  { intros (f & Hin & Hor).
    rewrite (filters_of_calls _ _
               (Search_calls memdb.impl sample_store "file" "" "" "" 30)) in Hin.
    change (In f [text_filter "file" "" ""]) in Hin.
    destruct Hin as [<- | []].
    rewrite text_filter_or in Hor. discriminate Hor. }
  split.
  - cbv zeta. split; [reflexivity|]. split; [by left|].
    split; [vm_compute; reflexivity|]. split; [|exact Hno].
    rewrite Search_calls. reflexivity.
  - intros Hall. apply Hno.
    apply (Hall _ memdb.impl sample_store "file" "" "" "" 30); [discriminate|].
    vm_compute. reflexivity.
Qed.

(* --------------------------------------------------------------------- *)
(** ** Escaping                                                           *)
(* --------------------------------------------------------------------- *)

Lemma regex_literal_plain (b : ascii) (p : string) :
  special b = false ->
  regex_literal (String b p) = option_map (String b) (regex_literal p).
Proof.
  intros Hb.
  destruct b as [[] [] [] [] [] [] [] []];
    first [ discriminate Hb | cbn; reflexivity | destruct p; cbn; reflexivity ].
Qed.

Lemma regex_literal_escaped (b : ascii) (p : string) :
  special b = true ->
  regex_literal (String "\" (String b p)) = option_map (String b) (regex_literal p).
Proof.
  intros Hb.
  change (regex_literal (String "\" (String b p)))
    with (if special b then option_map (String b) (regex_literal p) else None).
  by rewrite Hb.
Qed.

Lemma regex_literal_QuoteMeta (s : string) :
  regex_literal (regexp_QuoteMeta s) = Some s.
Proof.
  induction s as [|b s IH]; [reflexivity|].
  cbn [regexp_QuoteMeta]. destruct (special b) eqn:Hb.
  - by rewrite regex_literal_escaped, IH.
  - by rewrite regex_literal_plain, IH.
Qed.

Lemma regex_find_i_escaped (query text : string) :
  regex_find_i (service.escapeRegex query) text = contains_i text query.
Proof.
  unfold regex_find_i, service.escapeRegex, contains_i.
  by rewrite regex_literal_QuoteMeta.
Qed.

(* --------------------------------------------------------------------- *)
(** ** Escaped patterns under the parser and the matcher                  *)
(* --------------------------------------------------------------------- *)

Lemma regex_step_plain (c : ascii) (rest : string) (st : regex_parser) :
  rx_skip st = 0%nat -> special c = false ->
  regex_step c rest st = Some (regex_push (RChar c) 0 st).
Proof.
  intros Hs Hc. unfold regex_step. rewrite Hs.
  destruct c as [[] [] [] [] [] [] [] []]; vm_compute in Hc;
    first [discriminate Hc | reflexivity].
Qed.

Lemma regex_step_escaped (c : ascii) (rest : string) (st : regex_parser) :
  rx_skip st = 0%nat -> special c = true ->
  regex_step "\" (String c rest) st = Some (regex_push (RChar c) 1 st).
Proof.
  intros Hs Hc. unfold regex_step. rewrite Hs.
  destruct c as [[] [] [] [] [] [] [] []]; vm_compute in Hc;
    first [discriminate Hc | reflexivity].
Qed.

Lemma regex_steps_QuoteMeta (q : string) (alts cur : list regex)
    (stack : list (list regex * list regex)) :
  regex_steps (regexp_QuoteMeta q)
    {| rx_skip := 0; rx_alts := alts; rx_cur := cur; rx_stack := stack |}
  = Some {| rx_skip := 0; rx_alts := alts;
            rx_cur := (rev (List.map RChar (list_ascii_of_string q)) ++ cur)%list;
            rx_stack := stack |}.
Proof.
  revert cur. induction q as [|b q IH]; intros cur; [reflexivity|].
  cbn [regexp_QuoteMeta list_ascii_of_string List.map rev].
  rewrite <- app_assoc. cbn [app].
  destruct (special b) eqn:Hb.
  - cbn [regex_steps]. rewrite regex_step_escaped by done.
    cbn [mbind option_bind regex_steps regex_push rx_alts rx_cur rx_stack].
    unfold regex_step at 1. cbn [rx_skip rx_alts rx_cur rx_stack mbind option_bind].
    apply IH.
  - cbn [regex_steps]. rewrite regex_step_plain by done.
    cbn [mbind option_bind regex_push rx_alts rx_cur rx_stack]. apply IH.
Qed.

Lemma regex_seq_of_literal (q : string) :
  regex_seq_of (List.map RChar (list_ascii_of_string q)) = regex_of_literal q.
Proof.
  induction q as [|c q IH]; [reflexivity|].
  cbn [list_ascii_of_string List.map regex_of_literal]. rewrite <- IH. reflexivity.
Qed.

Lemma regex_parse_QuoteMeta (q : string) :
  regex_parse (regexp_QuoteMeta q) = Some (regex_of_literal q).
Proof.
  unfold regex_parse. rewrite regex_steps_QuoteMeta.
  cbn [mbind option_bind rx_skip rx_stack rx_alts rx_cur].
  unfold regex_close. rewrite app_nil_r, rev_involutive.
  cbn [rev app regex_alt_of]. by rewrite regex_seq_of_literal.
Qed.

Lemma regex_star_height_literal (q : string) :
  regex_star_height (regex_of_literal q) = 0%nat.
Proof. induction q as [|c q IH]; [reflexivity|]. cbn. exact IH. Qed.

(** At a place of the text a literal matches in one way, if the text goes
    on with it, letter case apart, and in none otherwise. *)
Lemma regex_match_literal (q : string) (b : bool) (s : string) :
  (String.prefix (strings_ToLower_ascii q) (strings_ToLower_ascii s) = true
   /\ exists p, regex_match true (regex_of_literal q) (b, s) = [p])
  \/ (String.prefix (strings_ToLower_ascii q) (strings_ToLower_ascii s) = false
      /\ regex_match true (regex_of_literal q) (b, s) = []).
Proof.
  revert b s. induction q as [|c q IH]; intros b s.
  - left. split; [by destruct s|]. by eexists.
  - destruct s as [|d s]; [right; by split|].
    cbn [regex_of_literal regex_match regex_take snd strings_ToLower_ascii string_map
         String.prefix].
    unfold regex_char_eqb, ascii_eqb.
    destruct (Ascii.eqb_spec (ascii_lower c) (ascii_lower d)) as [E | N];
      destruct (ascii_dec (ascii_lower c) (ascii_lower d)) as [E' | N'];
      try contradiction.
    + cbn [flat_map]. rewrite app_nil_r. apply IH.
    + right. by split.
Qed.

Lemma regex_matches_at_literal (q : string) (b : bool) (s : string) :
  regex_matches_at true (regex_of_literal q) (b, s)
  = String.prefix (strings_ToLower_ascii q) (strings_ToLower_ascii s).
Proof.
  unfold regex_matches_at.
  destruct (regex_match_literal q b s) as [[-> [p ->]] | [-> ->]]; reflexivity.
Qed.

Lemma regex_search_literal (q : string) (b : bool) (text : string) :
  regex_search_from true (regex_of_literal q) b text = contains_i text q.
Proof.
  unfold contains_i. revert b. induction text as [|d text IH]; intros b.
  - cbn [regex_search_from]. rewrite regex_matches_at_literal. reflexivity.
  - cbn [regex_search_from]. rewrite regex_matches_at_literal, IH. reflexivity.
Qed.

Lemma regex_ways_literal (q : string) (b : bool) (text : string) :
  (regex_ways true (regex_of_literal q) b text <= String.length text + 1)%nat.
Proof.
  revert b. induction text as [|d text IH]; intros b; cbn [regex_ways String.length].
  - destruct (regex_match_literal q b "") as [[_ [p ->]] | [_ ->]]; cbn; lia.
  - specialize (IH false).
    destruct (regex_match_literal q b (String d text)) as [[_ [p ->]] | [_ ->]];
      cbn [List.length]; lia.
Qed.

Lemma regex_find_escaped (query text : string) :
  regex_find "i" (regexp_QuoteMeta query) text = Some (contains_i text query).
Proof.
  unfold regex_find. rewrite regex_parse_QuoteMeta. cbn [mbind option_bind].
  change (string_mem "i" "i") with true. by rewrite regex_search_literal.
Qed.

(** The values of the two filters of SearchDetails. *)
Lemma text_filter_no_pattern query registryName url (key : string) (v : bson) :
  text_filter query registryName url !! key = Some v -> bson_patterns v = [].
Proof.
  unfold text_filter. intros H.
  repeat case_match;
    repeat (apply lookup_insert_Some in H as [[<- <-] | [? H]]; [reflexivity|]);
    by rewrite lookup_empty in H.
Qed.

Lemma fallback_filter_patterns query registryName url (key : string) (v : bson) :
  fallback_filter query registryName url !! key = Some v ->
  Forall (eq (regexp_QuoteMeta query)) (bson_patterns v).
Proof.
  unfold fallback_filter. intros H.
  apply lookup_insert_Some in H as [[<- <-] | [? H]].
  - cbn. repeat constructor.
  - apply lookup_delete_Some in H as [_ H].
    by rewrite (text_filter_no_pattern _ _ _ _ _ H).
Qed.

(** C2: the pattern of the fallback is the query with a backslash before
    every regex metacharacter, and the store reads it as a literal.  When
    SearchDetails retries, its second call carries an "$or" of three clauses
    whose "$regex" is regexp.QuoteMeta of the query, with option "i"; no
    call of SearchDetails carries any other pattern.  The parser of the
    pattern language, which decides by itself what an operator is, reads
    that pattern as the sequence of the characters of the query: no
    wildcard, class, anchor, group, alternation or quantifier, whatever
    metacharacters the query has, so its star height is 0.  Searching it
    with option "i" in a text is the test whether the text contains the
    query, letter case apart; and at each place of the text it matches in at
    most one way, so a matcher has at most as many paths to try as the text
    has places. *)
Theorem escaped_query_is_a_literal {S} (db : Impl Database S) (s : S)
    (query registryName url cursor : string) (limit : Z) :
  let calls := db_calls (trace_of
                 (exec db (service.SearchDetails query registryName url cursor limit)
                    s)) in
  let pattern := regexp_QuoteMeta query in
  service.escapeRegex query = pattern
  /\ (retries query (text_phase db s query registryName url cursor limit).1 = true ->
      exists f,
        calls = [CListDetails (text_filter query registryName url) cursor
                   (effective_limit limit);
                 CListDetails f cursor (effective_limit limit)]
        /\ f !! "$or"
           = Some (BArr
               [BDoc [("name", BDoc [("$regex", BStr pattern);
                                     ("$options", BStr "i")])];
                BDoc [("description", BDoc [("$regex", BStr pattern);
                                            ("$options", BStr "i")])];
                BDoc [("packages.name", BDoc [("$regex", BStr pattern);
                                              ("$options", BStr "i")])]]))
  /\ (forall c f key v,
        In c calls -> call_filter c = Some f -> f !! key = Some v ->
        Forall (eq pattern) (bson_patterns v))
  /\ regex_parse pattern = Some (regex_of_literal query)
  /\ (forall r, regex_parse pattern = Some r -> regex_star_height r = 0%nat)
  /\ (forall text, regex_find "i" pattern text
                   = Some (strings_Contains (strings_ToLower_ascii text)
                             (strings_ToLower_ascii query)))
  /\ (forall r text, regex_parse pattern = Some r ->
        (regex_ways true r true text <= String.length text + 1)%nat).
Proof.
  cbv zeta. split; [reflexivity|]. rewrite SearchDetails_calls.
  split; [|split; [|split; [|split; [|split]]]].
  - intros ->. exists (fallback_filter query registryName url).
    split; [reflexivity | apply fallback_filter_or].
  - intros c f key v Hin Hf Hv.
    destruct Hin as [<- | Hin].
    + cbn in Hf. injection Hf as <-.
      by rewrite (text_filter_no_pattern _ _ _ _ _ Hv).
    + destruct (retries _ _); [|destruct Hin].
      destruct Hin as [<- | []]. cbn in Hf. injection Hf as <-.
      exact (fallback_filter_patterns _ _ _ _ _ Hv).
  - apply regex_parse_QuoteMeta.
  - intros r. rewrite regex_parse_QuoteMeta. intros [= <-].
    apply regex_star_height_literal.
  - intros text. apply regex_find_escaped.
  - intros r text. rewrite regex_parse_QuoteMeta. intros [= <-].
    apply regex_ways_literal.
Qed.

(** On the in-memory store: the query ".*" has no full-text match, and the
    retry of SearchDetails carries the pattern "\.\*". *)
Lemma escaped_query_is_a_literal_witness :
  retries ".*" (text_phase memdb.impl sample_store ".*" "" "" "" 30).1 = true
  /\ exists f,
       db_calls (trace_of (exec memdb.impl (service.SearchDetails ".*" "" "" "" 30)
                             sample_store))
       = [CListDetails (text_filter ".*" "" "") "" 30; CListDetails f "" 30]
       /\ f !! "$or"
          = Some (BArr
              [BDoc [("name", BDoc [("$regex", BStr "\.\*"); ("$options", BStr "i")])];
               BDoc [("description", BDoc [("$regex", BStr "\.\*");
                                           ("$options", BStr "i")])];
               BDoc [("packages.name", BDoc [("$regex", BStr "\.\*");
                                             ("$options", BStr "i")])]]).
Proof.
  split; [vm_compute; reflexivity|].
  apply (proj1 (proj2 (escaped_query_is_a_literal memdb.impl sample_store
                         ".*" "" "" "" 30))).
  vm_compute. reflexivity.
Defined.

(** The two queries of the spec as patterns.  Unescaped, ".*" is a
    quantified wildcard and is found in every text, and "(a+)+" is a
    quantifier inside a quantifier, with a number of ways to match that
    doubles with each further "a"; escaped, both are the sequence of their
    characters and are found only where the text has them. *)
Example dot_star_unescaped_and_escaped :
  regex_parse ".*" = Some (RSeq (RStar RAny) REmpty)
  /\ regex_find "i" ".*" "filesystem" = Some true
  /\ regex_parse (service.escapeRegex ".*")
     = Some (RSeq (RChar ".") (RSeq (RChar "*") REmpty))
  /\ regex_find "i" (service.escapeRegex ".*") "filesystem" = Some false
  /\ regex_find "i" (service.escapeRegex ".*") "a.*b" = Some true.
Proof. repeat split; vm_compute; reflexivity. Qed.

Example nested_plus_unescaped_and_escaped :
  regex_parse "(a+)+"
  = Some (RSeq (RPlus (RGroup (RSeq (RPlus (RChar "a")) REmpty))) REmpty)
  /\ option_map regex_star_height (regex_parse "(a+)+") = Some 2%nat
  /\ List.map (fun text => option_map (fun r => regex_ways true r true text)
                             (regex_parse "(a+)+"))
       ["a"; "aa"; "aaa"; "aaaa"; "aaaaa"; "aaaaaa"]
     = [Some 1; Some 4; Some 11; Some 26; Some 57; Some 120]%nat
  /\ option_map regex_star_height (regex_parse (service.escapeRegex "(a+)+"))
     = Some 0%nat
  /\ regex_find "i" (service.escapeRegex "(a+)+") "aaaaaa" = Some false
  /\ regex_find "i" (service.escapeRegex "(a+)+") "x(A+)+y" = Some true.
Proof. repeat split; vm_compute; reflexivity. Qed.

(** On the patterns the service builds, the literal fragment of the store
    model is the matcher. *)
Lemma regex_find_i_is_regex_find (query text : string) :
  regex_find "i" (service.escapeRegex query) text
  = Some (regex_find_i (service.escapeRegex query) text).
Proof.
  rewrite regex_find_i_escaped. apply regex_find_escaped.
Qed.

(** The two queries of the spec, escaped; unescaped they are operators. *)
Example escapeRegex_dot_star :
  service.escapeRegex ".*" = "\.\*" /\ regex_literal ".*" = None.
Proof. split; reflexivity. Qed.

Example escapeRegex_nested_plus :
  service.escapeRegex "(a+)+" = "\(a\+\)\+" /\ regex_literal "(a+)+" = None.
Proof. split; reflexivity. Qed.

(** On the in-memory store the query ".*" finds the one record that has
    these two bytes in its name, not every record; "(a+)+" finds the record
    whose description has it. *)
Example SearchDetails_dot_star_is_literal :
  result_of (exec memdb.impl (service.SearchDetails ".*" "" "" "" 30) sample_store)
  = ([dotstar_tool], "", None)
  /\ result_of (exec memdb.impl (service.SearchDetails "(a+)+" "" "" "" 30) sample_store)
     = ([dotstar_tool], "", None).
Proof. split; vm_compute; reflexivity. Qed.

(* --------------------------------------------------------------------- *)
(** ** The search handlers                                                *)
(* --------------------------------------------------------------------- *)

Lemma eqb_refl_GET r : Method r = "GET" -> negb (String.eqb (Method r) "GET") = false.
Proof. by intros ->. Qed.

Lemma guard_accepted (parse : string -> option error) (value : string) :
  accepted parse value ->
  negb (String.eqb value "") && bool_decide (is_Some (parse value)) = false.
Proof.
  intros [-> | Hp]; [reflexivity|]. rewrite Hp.
  rewrite bool_decide_eq_false_2; [apply andb_false_r|].
  by intros [? ?].
Qed.

Lemma guard_rejected (parse : string -> option error) (value : string) :
  value <> "" -> parse value <> None ->
  negb (String.eqb value "") && bool_decide (is_Some (parse value)) = true.
Proof.
  intros Hv Hp. destruct (String.eqb_spec value ""); [done|].
  rewrite bool_decide_eq_true_2; [reflexivity|].
  destruct (parse value); [eauto | done].
Qed.

Section SearchHandlers.
Context (url_Parse uuid_parse : string -> option error)
        (sentinel_text : error -> string).
Context {S : Type} (reg : Impl RegistryService S)
        (reg0 : Impl RegistryService_search_go S) (s : S).

(** What the handler of [v0] asks of the registry, by the limit parameter. *)
Lemma SearchHandler_calls (r : Request) :
  Method r = "GET" ->
  accepted url_Parse (Values_Get (URL_Query r) "url") ->
  accepted uuid_parse (Values_Get (URL_Query r) "cursor") ->
  let ask limit :=
    [RSearchDetails (Values_Get (URL_Query r) "q")
       (Values_Get (URL_Query r) "registry_name")
       (Values_Get (URL_Query r) "url") (Values_Get (URL_Query r) "cursor") limit] in
  let limitStr := Values_Get (URL_Query r) "limit" in
  let run := exec reg (v0.SearchHandler url_Parse uuid_parse sentinel_text r) s in
  reg_calls (trace_of run)
  = (if String.eqb limitStr "" then ask 30
     else match strconv_Atoi limitStr with
          | None => []
          | Some n => if n <=? 0 then [] else if 100 <? n then ask 100 else ask n
          end)
  /\ (reg_calls (trace_of run) = [] -> StatusCode (result_of run) = StatusBadRequest).
Proof.
  intros Hm Hu Hc. cbv zeta. unfold v0.SearchHandler.
  rewrite (eqb_refl_GET r Hm), (guard_accepted _ _ Hu), (guard_accepted _ _ Hc).
  destruct (String.eqb (Values_Get (URL_Query r) "limit") ""); cbn.
  - destruct (reg _ _ s) as [[[entries next] err] s1]. destruct err; cbn; by split.
  - destruct (strconv_Atoi _) as [n|]; cbn; [|by split].
    destruct (n <=? 0); cbn; [by split|].
    destruct (100 <? n); cbn;
      destruct (reg _ _ s) as [[[entries next] err] s1]; destruct err; cbn; by split.
Qed.

(** The same for the handler of search.go. *)
Lemma SearchHandler_search_go_calls (r : Request) :
  Method r = "GET" ->
  accepted uuid_parse (Values_Get (URL_Query r) "cursor") ->
  let ask limit :=
    [(Values_Get (URL_Query r) "q", Values_Get (URL_Query r) "registry_name",
      Values_Get (URL_Query r) "cursor", limit)] in
  let limitStr := Values_Get (URL_Query r) "limit" in
  let run := exec reg0 (search_go.SearchHandler uuid_parse sentinel_text r) s in
  reg0_calls (trace_of run)
  = (if String.eqb limitStr "" then ask 30
     else match strconv_Atoi limitStr with
          | None => []
          | Some n => if n <=? 0 then [] else if 100 <? n then ask 100 else ask n
          end)
  /\ (reg0_calls (trace_of run) = [] -> StatusCode (result_of run) = StatusBadRequest).
Proof.
  intros Hm Hc. cbv zeta. unfold search_go.SearchHandler.
  rewrite (eqb_refl_GET r Hm), (guard_accepted _ _ Hc).
  destruct (String.eqb (Values_Get (URL_Query r) "limit") ""); cbn.
  - destruct (reg0 _ _ s) as [[[entries next] err] s1]. destruct err; cbn; by split.
  - destruct (strconv_Atoi _) as [n|]; cbn; [|by split].
    destruct (n <=? 0); cbn; [by split|].
    destruct (100 <? n); cbn;
      destruct (reg0 _ _ s) as [[[entries next] err] s1]; destruct err; cbn; by split.
Qed.
End SearchHandlers.

(** C6: for a GET search request whose url and cursor parameters are
    accepted, both search handlers ask the registry with limit 30 when no
    limit parameter is given, with 100 when the parameter parses to more
    than 100, with the parsed value when it is between 1 and 100, and answer
    400 without asking the registry when the parameter does not parse as an
    int or parses to zero or less. *)
Theorem search_limit_is_clamped
    (url_Parse uuid_parse : string -> option error) (sentinel_text : error -> string)
    {S : Type} (reg : Impl RegistryService S)
    (reg0 : Impl RegistryService_search_go S) (s : S) (r : Request) :
  Method r = "GET" ->
  accepted url_Parse (Values_Get (URL_Query r) "url") ->
  accepted uuid_parse (Values_Get (URL_Query r) "cursor") ->
  let q := Values_Get (URL_Query r) "q" in
  let rn := Values_Get (URL_Query r) "registry_name" in
  let url := Values_Get (URL_Query r) "url" in
  let cursor := Values_Get (URL_Query r) "cursor" in
  let limitStr := Values_Get (URL_Query r) "limit" in
  let run := exec reg (v0.SearchHandler url_Parse uuid_parse sentinel_text r) s in
  let run0 := exec reg0 (search_go.SearchHandler uuid_parse sentinel_text r) s in
  (limitStr = "" ->
     reg_calls (trace_of run) = [RSearchDetails q rn url cursor 30]
     /\ reg0_calls (trace_of run0) = [(q, rn, cursor, 30)])
  /\ (forall n, strconv_Atoi limitStr = Some n -> 100 < n ->
        reg_calls (trace_of run) = [RSearchDetails q rn url cursor 100]
        /\ reg0_calls (trace_of run0) = [(q, rn, cursor, 100)])
  /\ (forall n, strconv_Atoi limitStr = Some n -> 0 < n <= 100 ->
        reg_calls (trace_of run) = [RSearchDetails q rn url cursor n]
        /\ reg0_calls (trace_of run0) = [(q, rn, cursor, n)])
  /\ (limitStr <> "" ->
      strconv_Atoi limitStr = None
      \/ (exists n, strconv_Atoi limitStr = Some n /\ n <= 0) ->
        (trace_of run = [] /\ StatusCode (result_of run) = StatusBadRequest)
        /\ (trace_of run0 = [] /\ StatusCode (result_of run0) = StatusBadRequest)).
Proof.
  intros Hm Hu Hc. cbv zeta.
  destruct (SearchHandler_calls url_Parse uuid_parse sentinel_text reg s r Hm Hu Hc)
    as [Hcalls Hbad].
  destruct (SearchHandler_search_go_calls uuid_parse sentinel_text reg0 s r Hm Hc)
    as [Hcalls0 Hbad0].
  cbv zeta in Hcalls, Hbad, Hcalls0, Hbad0.
  assert (Hatoi_empty : forall n, strconv_Atoi (Values_Get (URL_Query r) "limit")
                                  = Some n ->
                        String.eqb (Values_Get (URL_Query r) "limit") "" = false).
  { intros n Hn. destruct (String.eqb_spec (Values_Get (URL_Query r) "limit") "")
      as [E|_]; [|done]. rewrite E in Hn. discriminate Hn. }
  split; [|split; [|split]].
  - intros E. rewrite E in Hcalls, Hcalls0. by split.
  - intros n Hn Hgt. rewrite (Hatoi_empty n Hn), Hn in Hcalls, Hcalls0.
    destruct (Z.leb_spec n 0); [lia|]. destruct (Z.ltb_spec 100 n); [|lia].
    by split.
  - intros n Hn Hrange. rewrite (Hatoi_empty n Hn), Hn in Hcalls, Hcalls0.
    destruct (Z.leb_spec n 0); [lia|]. destruct (Z.ltb_spec 100 n); [lia|].
    by split.
  - intros Hne Hrej.
    assert (Hnil : reg_calls (trace_of
              (exec reg (v0.SearchHandler url_Parse uuid_parse sentinel_text r) s)) = []
            /\ reg0_calls (trace_of
              (exec reg0 (search_go.SearchHandler uuid_parse sentinel_text r) s)) = []).
    { rewrite Hcalls, Hcalls0.
      destruct (String.eqb_spec (Values_Get (URL_Query r) "limit") "") as [E|_];
        [done|].
      destruct Hrej as [-> | (m & -> & Hle)]; [done|].
      destruct (Z.leb_spec m 0); [done | lia]. }
    destruct Hnil as [Hnil Hnil0].
    split; (split; [| auto]).
    + unfold reg_calls in Hnil. by apply map_eq_nil in Hnil.
    + unfold reg0_calls in Hnil0. by apply map_eq_nil in Hnil0.
Qed.

(** The request "?q=test&limit=150" of the handler's tests reaches the
    registry with limit 100. *)
Lemma search_limit_is_clamped_witness :
  let r := get_request [("q", "test"); ("limit", "150")] in
  Method r = "GET"
  /\ strconv_Atoi (Values_Get (URL_Query r) "limit") = Some 150
  /\ reg_calls (trace_of
       (exec (service_over memdb.impl)
          (v0.SearchHandler sample_ParseRequestURI uuid_Parse sample_sentinel_text r)
          sample_store))
     = [RSearchDetails "test" "" "" "" 100].
Proof.
  cbv zeta. split; [reflexivity|]. split; [reflexivity|].
  refine (proj1 (proj1 (proj2
    (search_limit_is_clamped sample_ParseRequestURI uuid_Parse sample_sentinel_text
       (service_over memdb.impl) (search_go_over memdb.impl) sample_store
       (get_request [("q", "test"); ("limit", "150")]) _ _ _)) 150 _ _)).
  - reflexivity.
  - by left.
  - by left.
  - reflexivity.
  - lia.
Defined.

(** C7: a GET search request whose cursor parameter is not empty and is
    refused by the UUID parser is answered 400 by both search handlers, which
    return at once: no call of the registry is made, and with the service
    in the place of the registry no call of the database. *)
Theorem unparseable_cursor_is_bad_request
    (url_Parse uuid_parse : string -> option error) (sentinel_text : error -> string)
    {S : Type} (reg : Impl RegistryService S)
    (reg0 : Impl RegistryService_search_go S) (s : S) (r : Request) :
  Method r = "GET" ->
  Values_Get (URL_Query r) "cursor" <> "" ->
  uuid_parse (Values_Get (URL_Query r) "cursor") <> None ->
  (exists resp,
     v0.SearchHandler url_Parse uuid_parse sentinel_text r = Ret resp
     /\ StatusCode resp = StatusBadRequest
     /\ exec reg (v0.SearchHandler url_Parse uuid_parse sentinel_text r) s
        = (resp, s, [])
     /\ interp registryServiceImpl
          (v0.SearchHandler url_Parse uuid_parse sentinel_text r) = Ret resp)
  /\ search_go.SearchHandler uuid_parse sentinel_text r
     = Ret (http_Error "Invalid cursor parameter" StatusBadRequest)
  /\ exec reg0 (search_go.SearchHandler uuid_parse sentinel_text r) s
     = (http_Error "Invalid cursor parameter" StatusBadRequest, s, [])
  /\ (accepted url_Parse (Values_Get (URL_Query r) "url") ->
      v0.SearchHandler url_Parse uuid_parse sentinel_text r
      = Ret (http_Error "Invalid cursor parameter" StatusBadRequest)).
Proof.
  intros Hm Hne Herr.
  pose proof (guard_rejected uuid_parse _ Hne Herr) as Hguard.
  assert (H0 : search_go.SearchHandler uuid_parse sentinel_text r
               = Ret (http_Error "Invalid cursor parameter" StatusBadRequest)).
  { unfold search_go.SearchHandler. by rewrite (eqb_refl_GET r Hm), Hguard. }
  split; [|split; [exact H0 | split; [by rewrite H0|]]].
  - unfold v0.SearchHandler. rewrite (eqb_refl_GET r Hm), Hguard.
    destruct (negb (String.eqb (Values_Get (URL_Query r) "url") "") && _);
      eexists; (split; [reflexivity|]); by repeat split.
  - intros Hu. unfold v0.SearchHandler.
    by rewrite (eqb_refl_GET r Hm), (guard_accepted _ _ Hu), Hguard.
Qed.

(** The request "?q=test&cursor=invalid-uuid" of the handler's tests. *)
Lemma unparseable_cursor_is_bad_request_witness :
  let r := get_request [("q", "test"); ("cursor", "invalid-uuid")] in
  Values_Get (URL_Query r) "cursor" = "invalid-uuid"
  /\ uuid_Parse "invalid-uuid" <> None
  /\ exec (service_over memdb.impl)
       (v0.SearchHandler sample_ParseRequestURI uuid_Parse sample_sentinel_text r)
       sample_store
     = (http_Error "Invalid cursor parameter" StatusBadRequest, sample_store, []).
Proof.
  cbv zeta. split; [reflexivity|]. split; [discriminate|].
  destruct (unparseable_cursor_is_bad_request sample_ParseRequestURI uuid_Parse
              sample_sentinel_text (service_over memdb.impl)
              (search_go_over memdb.impl) sample_store
              (get_request [("q", "test"); ("cursor", "invalid-uuid")]))
    as (_ & _ & _ & Hv0).
  - reflexivity.
  - discriminate.
  - discriminate.
  - rewrite Hv0; [reflexivity | by left].
Defined.

(* --------------------------------------------------------------------- *)
(** ** The publish handler                                                *)
(* --------------------------------------------------------------------- *)

(** C3: in a run of the OSS publish handler, whatever the request and the
    collaborators, the answer is 409 Conflict when the pre-publish Search
    answered a server with the constructed name, and then no Publish call
    is made at all; and the answer is 409 when the Publish call answered an
    error whose text has "already exists" (and not "invalid version", which
    the handler tests first). *)
Theorem publish_of_existing_name_is_conflict
    (sentinel_text : error -> string) (TrimSpace : string -> string)
    (Validate : string -> bool * option EphemeralTokenClaims * option error)
    (Unmarshal : string -> PublishOSSRequest * option error) (is_impl : bool)
    (Fetch : string -> string -> string -> v0.RepoInfo * option error)
    (rand_Read : string * option error) (now : string)
    {S : Type} (reg : Impl RegistryService S) (s : S) (r : Request)
    (ev : Event RegistryService) :
  let run :=
    exec reg (v0.PublishOSSHandler sentinel_text TrimSpace Validate Unmarshal
                is_impl Fetch rand_Read now r) s in
  In ev (trace_of run) ->
  (search_finds_name ev = true ->
   StatusCode (result_of run) = StatusConflict
   /\ existsb is_publish (reg_calls (trace_of run)) = false)
  /\ (forall e, publish_error ev = Some e ->
        strings_Contains (Error sentinel_text e) "already exists" = true ->
        strings_Contains (Error sentinel_text e) "invalid version" = false ->
        StatusCode (result_of run) = StatusConflict).
Proof.
  cbv zeta. unfold v0.PublishOSSHandler.
  repeat (case_match; try (cbn; intros []; fail)).
  all: cbn.
  all: destruct (reg _ _ s) as [[[servers next] err] st1];
       destruct err as [serr|]; cbn.
  all: try (destruct (existsb _ servers) eqn:Hfound; cbn).
  all: try (destruct (reg _ (reg_Publish _) st1) as [perr st2];
            destruct perr as [pe|]; cbn).
  all: try (destruct (strings_Contains (Error sentinel_text pe) "invalid version")
              eqn:Hiv; cbn).
  all: try (destruct (strings_Contains (Error sentinel_text pe) "already exists")
              eqn:Hae; cbn).
  all: intros Hin; repeat (destruct Hin as [<- | Hin]); try destruct Hin; cbn.
  all: split; intros; simplify_eq; try done; try congruence.
Qed.

(** Over the in-memory store: the Search with limit 1 answers the record
    with the smaller id, the name is not found, Publish answers
    ErrAlreadyExists, and the handler answers 409 with the store as it
    was. *)
Lemma publish_of_existing_name_is_conflict_witness :
  let run := exec (service_over memdb.impl)
               (sample_PublishOSSHandler (post_request "https://github.com/acme/tool.git"))
               acme_store in
  List.map is_publish (reg_calls (trace_of run)) = [false; true]
  /\ hd_error (reg_calls (trace_of run))
     = Some (RSearch "io.github.acme/tool" "" "" "" 1)
  /\ List.map publish_error (trace_of run) = [None; Some ErrAlreadyExists]
  /\ StatusCode (result_of run) = StatusConflict
  /\ state_of run = acme_store.
Proof.
  cbv zeta.
  set (run := exec (service_over memdb.impl)
                (sample_PublishOSSHandler
                   (post_request "https://github.com/acme/tool.git")) acme_store).
  split; [vm_compute; reflexivity|].
  split; [vm_compute; reflexivity|].
  split; [vm_compute; reflexivity|].
  split; [|vm_compute; reflexivity].
  set (ev := nth 1 (trace_of run) (Ev (reg_GetByID "") (None, None))).
  assert (Hin : In ev (trace_of run)) by (vm_compute; right; left; reflexivity).
  refine (proj2 (publish_of_existing_name_is_conflict sample_sentinel_text
            (fun s => s) sample_Validate sample_Unmarshal true sample_Fetch
            sample_rand "2025-05-25T00:00:00Z" (service_over memdb.impl)
            acme_store (post_request "https://github.com/acme/tool.git") ev Hin)
          ErrAlreadyExists _ _ _); vm_compute; reflexivity.
Defined.

(** When the Search does answer the name, the handler answers 409 at once. *)
Example publish_found_by_search :
  let run := exec (service_over memdb.impl)
               (sample_PublishOSSHandler (post_request "https://github.com/acme/tool.git"))
               [acme_tool] in
  reg_calls (trace_of run) = [RSearch "io.github.acme/tool" "" "" "" 1]
  /\ StatusCode (result_of run) = StatusConflict
  /\ state_of run = [acme_tool].
Proof. vm_compute. repeat split; reflexivity. Qed.

(* --------------------------------------------------------------------- *)
(** ** base64                                                             *)
(* --------------------------------------------------------------------- *)

Lemma b64_value_char (n : nat) : (n < 64)%nat -> b64_value (b64_char n) = Some n.
Proof.
  intros Hn. do 64 (destruct n as [|n]; [reflexivity|]). lia.
Qed.

Lemma b64_char_not_pad (n : nat) : (n < 64)%nat -> is_pad (b64_char n) = false.
Proof.
  intros Hn. do 64 (destruct n as [|n]; [reflexivity|]). lia.
Qed.

Lemma b64_char_not_newline (n : nat) :
  ascii_eqb (b64_char n) "010"%char || ascii_eqb (b64_char n) "013"%char = false.
Proof.
  do 64 (destruct n as [|n]; [reflexivity|]). reflexivity.
Qed.

Lemma drop_newlines_encoded (src : string) :
  drop_newlines (base64_EncodeToString src) = base64_EncodeToString src.
Proof.
  revert src. fix IH 1. intros [|a [|b [|c rest]]]; [reflexivity| | |].
  - cbn [base64_EncodeToString drop_newlines]. by rewrite !b64_char_not_newline.
  - cbn [base64_EncodeToString drop_newlines]. by rewrite !b64_char_not_newline.
  - cbn [base64_EncodeToString drop_newlines]. by rewrite !b64_char_not_newline, IH.
Qed.


Lemma sextets_in_range (x y z : nat) :
  (x < 256 -> y < 256 -> z < 256 ->
   x / 4 < 64 /\ x mod 4 * 16 + y / 16 < 64 /\ y mod 16 * 4 + z / 64 < 64
   /\ z mod 64 < 64 /\ x mod 4 * 16 < 64 /\ y mod 16 * 4 < 64)%nat.
Proof.
  intros Hx Hy Hz.
  pose proof (Nat.div_mod_eq x 4). pose proof (Nat.mod_upper_bound x 4).
  pose proof (Nat.div_mod_eq y 16). pose proof (Nat.mod_upper_bound y 16).
  pose proof (Nat.div_mod_eq z 64). pose proof (Nat.mod_upper_bound z 64).
  lia.
Qed.

Lemma bytes_of_sextets (x y z : nat) :
  (x < 256 -> y < 256 -> z < 256 ->
   x / 4 * 4 + (x mod 4 * 16 + y / 16) / 16 = x
   /\ (x mod 4 * 16 + y / 16) mod 16 * 16 + (y mod 16 * 4 + z / 64) / 4 = y
   /\ (y mod 16 * 4 + z / 64) mod 4 * 64 + z mod 64 = z)%nat.
Proof.
  intros Hx Hy Hz.
  pose proof (Nat.div_mod_eq x 4). pose proof (Nat.mod_upper_bound x 4).
  pose proof (Nat.div_mod_eq y 16). pose proof (Nat.mod_upper_bound y 16).
  pose proof (Nat.div_mod_eq z 64). pose proof (Nat.mod_upper_bound z 64).
  assert (Hy16 : (y / 16 < 16)%nat) by lia.
  assert (Hz64 : (z / 64 < 4)%nat) by lia.
  assert (E1 : ((x mod 4 * 16 + y / 16) / 16 = x mod 4)%nat).
  { rewrite Nat.div_add_l by lia. rewrite (Nat.div_small (y / 16) 16) by lia. lia. }
  assert (E2 : ((x mod 4 * 16 + y / 16) mod 16 = y / 16)%nat).
  { rewrite Nat.add_comm, Nat.Div0.mod_add. apply Nat.mod_small; lia. }
  assert (E3 : ((y mod 16 * 4 + z / 64) / 4 = y mod 16)%nat).
  { rewrite Nat.div_add_l by lia. rewrite (Nat.div_small (z / 64) 4) by lia. lia. }
  assert (E4 : ((y mod 16 * 4 + z / 64) mod 4 = z / 64)%nat).
  { rewrite Nat.add_comm, Nat.Div0.mod_add. apply Nat.mod_small; lia. }
  rewrite E1, E2, E3, E4. lia.
Qed.

Lemma decode_quanta_encoded (src : string) :
  decode_quanta (base64_EncodeToString src) = Some src.
Proof.
  revert src. fix IH 1. intros [|a [|b [|c rest]]]; [reflexivity| | |].
  - pose proof (nat_ascii_bounded a) as Ha.
    destruct (sextets_in_range (nat_of_ascii a) 0 0 Ha ltac:(lia) ltac:(lia))
      as (R1 & _ & _ & _ & R2 & _).
    destruct (bytes_of_sextets (nat_of_ascii a) 0 0 Ha ltac:(lia) ltac:(lia))
      as (B1 & _ & _).
    cbn [base64_EncodeToString decode_quanta].
    rewrite !b64_value_char by assumption.
    cbn -[Nat.div Nat.modulo Nat.mul Nat.add].
    replace (nat_of_ascii a mod 4 * 16 + 0 / 16)%nat
      with (nat_of_ascii a mod 4 * 16)%nat in B1 by (cbn; lia).
    by rewrite B1, ascii_nat_embedding.
  - pose proof (nat_ascii_bounded a) as Ha. pose proof (nat_ascii_bounded b) as Hb.
    destruct (sextets_in_range (nat_of_ascii a) (nat_of_ascii b) 0 Ha Hb ltac:(lia))
      as (R1 & R2 & _ & _ & _ & R3).
    destruct (bytes_of_sextets (nat_of_ascii a) (nat_of_ascii b) 0 Ha Hb ltac:(lia))
      as (B1 & B2 & _).
    cbn [base64_EncodeToString decode_quanta].
    rewrite !b64_value_char by assumption.
    rewrite (b64_char_not_pad _ R3).
    cbn -[Nat.div Nat.modulo Nat.mul Nat.add].
    replace (nat_of_ascii b mod 16 * 4 + 0 / 64)%nat
      with (nat_of_ascii b mod 16 * 4)%nat in B2 by (cbn; lia).
    by rewrite B1, B2, !ascii_nat_embedding.
  - pose proof (nat_ascii_bounded a) as Ha. pose proof (nat_ascii_bounded b) as Hb.
    pose proof (nat_ascii_bounded c) as Hc.
    destruct (sextets_in_range (nat_of_ascii a) (nat_of_ascii b) (nat_of_ascii c)
                Ha Hb Hc) as (R1 & R2 & R3 & R4 & _ & _).
    destruct (bytes_of_sextets (nat_of_ascii a) (nat_of_ascii b) (nat_of_ascii c)
                Ha Hb Hc) as (B1 & B2 & B3).
    cbn [base64_EncodeToString decode_quanta].
    rewrite !b64_value_char by assumption.
    rewrite (b64_char_not_pad _ R3), (b64_char_not_pad _ R4).
    rewrite IH. cbn [option_map].
    by rewrite B1, B2, B3, !ascii_nat_embedding.
Qed.

(** Decoding what was encoded gives the bytes back. *)
Lemma base64_roundtrip (src : string) :
  base64_DecodeString (base64_EncodeToString src) = (src, None).
Proof.
  unfold base64_DecodeString.
  by rewrite drop_newlines_encoded, decode_quanta_encoded.
Qed.

Lemma base64_EncodeToString_inj (x y : string) :
  base64_EncodeToString x = base64_EncodeToString y -> x = y.
Proof.
  intros E. pose proof (base64_roundtrip x) as Hx. rewrite E, base64_roundtrip in Hx.
  congruence.
Qed.

(* --------------------------------------------------------------------- *)
(** ** Ephemeral tokens                                                   *)
(* --------------------------------------------------------------------- *)

(** C9: for a user id, a user name and a positive duration, when the
    claims and the token serialise and the parser gives the token back from
    its serialisation, generateEphemeralToken returns the base64 text of the
    serialised token, and validateEphemeralToken with the same secret returns
    exactly the signed claims at the time of issue and at any time up to the
    expiry, and "token has expired" after it.  A token that carries the
    signature of these claims with other claims, whose MAC under the secret
    is not the MAC of the signed ones, is refused with "invalid token
    signature". *)
Theorem ephemeral_token_roundtrip
    (hmac : string -> string -> string)
    (Marshal_claims : EphemeralTokenClaims -> string * option error)
    (Marshal_token : EphemeralToken -> string * option error)
    (Unmarshal_token : string -> EphemeralToken * option error)
    (sentinel_text : error -> string) (secret nonce : string)
    (githubUserID githubUsername : string) (now : Time) (duration : Duration)
    (claimsJSON tokenJSON : string) :
  let claims := {| GitHubUserID := githubUserID; GitHubUsername := githubUsername;
                   IssuedAt := now; ExpiresAt := now + duration;
                   Nonce := base64_EncodeToString nonce |} in
  let signature := base64_EncodeToString (hmac secret claimsJSON) in
  let generate :=
    auth.generateEphemeralToken hmac Marshal_claims Marshal_token sentinel_text
      secret (nonce, None) now githubUserID githubUsername duration in
  let validate :=
    auth.validateEphemeralToken hmac Marshal_claims Unmarshal_token sentinel_text
      secret in
  0 < duration ->
  Marshal_claims claims = (claimsJSON, None) ->
  Marshal_token {| Claims := claims; Signature := signature |} = (tokenJSON, None) ->
  Unmarshal_token tokenJSON = ({| Claims := claims; Signature := signature |}, None) ->
  generate = (base64_EncodeToString tokenJSON, None)
  /\ validate now generate.1 = (Some claims, None)
  /\ (forall t : Time, t <= now + duration ->
        validate t generate.1 = (Some claims, None))
  /\ (forall t : Time, now + duration < t ->
        validate t generate.1 = (None, Some (errors_New "token has expired")))
  /\ (forall (t : Time) (tampered tamperedJSON alteredJSON : string)
             (altered : EphemeralTokenClaims),
        base64_DecodeString tampered = (tamperedJSON, None) ->
        Unmarshal_token tamperedJSON
        = ({| Claims := altered; Signature := signature |}, None) ->
        Marshal_claims altered = (alteredJSON, None) ->
        hmac secret alteredJSON <> hmac secret claimsJSON ->
        validate t tampered = (None, Some (errors_New "invalid token signature"))).
Proof.
  cbv zeta. intros Hpos Hclaims Htoken Hparse.
  assert (Hgen : auth.generateEphemeralToken hmac Marshal_claims Marshal_token
                   sentinel_text secret (nonce, None) now githubUserID
                   githubUsername duration
                 = (base64_EncodeToString tokenJSON, None)).
  { unfold auth.generateEphemeralToken. by rewrite Hclaims, Htoken. }
  assert (Hval : forall t : Time,
             auth.validateEphemeralToken hmac Marshal_claims Unmarshal_token
               sentinel_text secret t (base64_EncodeToString tokenJSON)
             = if now + duration <? t
               then (None, Some (errors_New "token has expired"))
               else (Some {| GitHubUserID := githubUserID;
                             GitHubUsername := githubUsername; IssuedAt := now;
                             ExpiresAt := now + duration;
                             Nonce := base64_EncodeToString nonce |}, None)).
  { intros t. unfold auth.validateEphemeralToken.
    rewrite base64_roundtrip, Hparse. cbn [Claims Signature].
    rewrite Hclaims, String.eqb_refl. reflexivity. }
  rewrite Hgen. cbn [fst]. split; [reflexivity|].
  split; [|split; [|split]].
  - rewrite Hval. destruct (Z.ltb_spec (now + duration) now); [lia | reflexivity].
  - intros t Ht. rewrite Hval.
    destruct (Z.ltb_spec (now + duration) t); [lia | reflexivity].
  - intros t Ht. rewrite Hval.
    destruct (Z.ltb_spec (now + duration) t); [reflexivity | lia].
  - intros t tampered tamperedJSON alteredJSON altered Hdec Hun Hm Hmac.
    unfold auth.validateEphemeralToken.
    rewrite Hdec, Hun. cbn [Claims Signature]. rewrite Hm.
    destruct (String.eqb_spec (base64_EncodeToString (hmac secret claimsJSON))
                (base64_EncodeToString (hmac secret alteredJSON))) as [E|_];
      [|reflexivity].
    apply base64_EncodeToString_inj in E. congruence.
Qed.

(** A token for "octocat" valid one hour: accepted with its claims one
    nanosecond before the expiry, and refused once the user name in it is
    replaced. *)
Lemma ephemeral_token_roundtrip_witness :
  0 < time_Hour
  /\ sample_validate (1000 + time_Hour - 1) (sample_generate 1000 "octocat" time_Hour).1
     = (Some {| GitHubUserID := "583231"; GitHubUsername := "octocat";
                IssuedAt := 1000; ExpiresAt := 1000 + time_Hour;
                Nonce := base64_EncodeToString "0123456789abcdef" |}, None)
  /\ sample_validate 2000 (tampered_token 1000 "octocat" "mallory" time_Hour)
     = (None, Some (errors_New "invalid token signature")).
Proof.
  assert (Hpos : 0 < time_Hour) by (vm_compute; reflexivity).
  pose (claims := {| GitHubUserID := "583231"; GitHubUsername := "octocat";
                     IssuedAt := 1000; ExpiresAt := 1000 + time_Hour;
                     Nonce := base64_EncodeToString "0123456789abcdef" |}).
  pose (altered := {| GitHubUserID := "583231"; GitHubUsername := "mallory";
                      IssuedAt := 1000; ExpiresAt := 1000 + time_Hour;
                      Nonce := base64_EncodeToString "0123456789abcdef" |}).
  pose (claimsJSON := (sample_Marshal_claims claims).1).
  pose (signature := base64_EncodeToString (sample_hmac "secret" claimsJSON)).
  pose (tokenJSON :=
          (sample_Marshal_token {| Claims := claims; Signature := signature |}).1).
  destruct (ephemeral_token_roundtrip sample_hmac sample_Marshal_claims
              sample_Marshal_token sample_Unmarshal_token sample_sentinel_text
              "secret" "0123456789abcdef" "583231" "octocat" 1000 time_Hour
              claimsJSON tokenJSON Hpos)
    as (_ & _ & Hbefore & _ & Htampered).
  - reflexivity.
  - reflexivity.
  - vm_compute. reflexivity.
  - split; [exact Hpos|]. split.
    + apply Hbefore. lia.
    + apply (Htampered 2000 (tampered_token 1000 "octocat" "mallory" time_Hour)
               (sample_Marshal_token {| Claims := altered; Signature := signature |}).1
               (sample_Marshal_claims altered).1 altered).
      * vm_compute. reflexivity.
      * vm_compute. reflexivity.
      * reflexivity.
      * vm_compute. discriminate.
Defined.

(* --------------------------------------------------------------------- *)
(** ** The searches over the in-memory store                              *)
(* --------------------------------------------------------------------- *)

Lemma existsb_pointwise {A} (f g : A -> bool) (l : list A) :
  (forall x, f x = g x) -> existsb f l = existsb g l.
Proof. intros E. induction l as [|x l IH]; cbn; [done | by rewrite E, IH]. Qed.

(** The retry filter selects, in the in-memory store, the records that
    have the query inside their name, description or a package name. *)
Lemma memdb_fallback_is_substring_match (query : string) (sd : ServerDetail) :
  memdb.filter_matches true (fallback_filter query "" "") sd
  = substring_match query sd.
Proof.
  unfold memdb.filter_matches.
  rewrite fallback_filter_text, fallback_filter_registry_name, fallback_filter_url,
    fallback_filter_or.
  unfold or_clauses, service.regex_clause, substring_match, contains_i.
  cbn [String.eqb andb existsb memdb.clause_matches].
  change (String.eqb "name" "name") with true.
  change (String.eqb "description" "name") with false.
  change (String.eqb "description" "description") with true.
  change (String.eqb "packages.name" "name") with false.
  change (String.eqb "packages.name" "description") with false.
  change (String.eqb "packages.name" "packages.name") with true.
  cbv iota.
  rewrite !regex_find_i_escaped.
  rewrite orb_false_r, orb_assoc.
  f_equal. apply existsb_pointwise. intros pkg. apply regex_find_i_escaped.
Qed.

(** SearchDetails over the in-memory store, from the first page: when no
    record has all the words of a non-empty query, the answer is the first
    page of the records that contain the query as a substring. *)
Lemma memdb_SearchDetails_finds_substrings (db : memdb.store) (query : string)
    (limit : Z) :
  query <> "" ->
  List.filter (memdb.text_search true query) db = [] ->
  (result_of (exec memdb.impl (service.SearchDetails query "" "" "" limit) db)).1.1
  = firstn (Z.to_nat (effective_limit limit))
      (List.filter (substring_match query) db).
Proof.
  intros Hq Hnone.
  assert (Hfirst : exists next,
             (text_phase memdb.impl db query "" "" "" limit).1 = ([], next, None)).
  { unfold text_phase. cbn [memdb.impl fst]. unfold memdb.page. cbn [String.eqb negb andb].
    assert (Hm : List.filter (memdb.filter_matches true (text_filter query "" "")) db
                 = []).
    { rewrite <- Hnone. apply filter_ext. intros sd. unfold memdb.filter_matches.
      rewrite text_filter_text, text_filter_registry_name, text_filter_url,
        text_filter_or.
      destruct (String.eqb_spec query ""); [done|]. cbn.
      by rewrite !andb_true_r. }
    rewrite Hm. rewrite firstn_nil. eexists. reflexivity. }
  destruct Hfirst as [next Hfirst].
  rewrite SearchDetails_result.
  destruct (text_phase memdb.impl db query "" "" "" limit) as [first s1] eqn:Hphase.
  cbn [fst] in Hfirst. subst first. rewrite (retries_intro query next Hq).
  assert (s1 = db) as -> by (unfold text_phase in Hphase; cbn in Hphase; congruence).
  cbn [memdb.impl fst snd]. unfold memdb.page.
  cbn [String.eqb negb andb answer_or_error fst].
  f_equal. apply filter_ext. intros sd. apply memdb_fallback_is_substring_match.
Qed.

(* --------------------------------------------------------------------- *)
(** ** The handlers over the service and the in-memory store              *)
(* --------------------------------------------------------------------- *)

(** Whatever the request, a call the search handler makes carries a limit
    between 1 and 100. *)
Lemma search_limit_within_bounds
    (url_Parse uuid_parse : string -> option error) (sentinel_text : error -> string)
    {S : Type} (reg : Impl RegistryService S) (s : S) (r : Request) :
  Forall (fun c => exists q rn u cur l,
                     c = RSearchDetails q rn u cur l /\ 1 <= l <= 100)
    (reg_calls (trace_of
       (exec reg (v0.SearchHandler url_Parse uuid_parse sentinel_text r) s))).
Proof.
  unfold v0.SearchHandler.
  repeat (case_match; try (cbn; constructor; fail)).
  all: cbn; destruct (reg _ _ s) as [[[entries next] err] s1]; destruct err; cbn.
  all: constructor; [|constructor].
  all: do 5 eexists; (split; [reflexivity|]).
  all: repeat match goal with
              | H : (_ <=? _) = _ |- _ => apply Z.leb_gt in H || apply Z.leb_le in H
              | H : (_ <? _) = _ |- _ => apply Z.ltb_ge in H || apply Z.ltb_lt in H
              | H : inr _ = inr _ |- _ => injection H as <-
              | H : inl _ = inr _ |- _ => discriminate H
              end; try lia.
Qed.

(** Listing and searching leave the in-memory store as it is. *)
Lemma memdb_Search_keeps_store (db : memdb.store) (q rn u c : string) (l : Z) :
  (service_over memdb.impl _ (reg_Search q rn u c l) db).2 = db.
Proof.
  unfold service_over. cbn [registryServiceImpl]. unfold service.Search. cbn.
  destruct (memdb.page _ _ _ _ _) as [[entries next] err].
  destruct err; reflexivity.
Qed.

(** Publishing a name the in-memory store has is refused with
    ErrAlreadyExists and leaves the store as it is. *)
Lemma memdb_Publish_existing_name (db : memdb.store) (sd : ServerDetail) :
  has_name db (memdb.name_of sd) ->
  memdb.name_of sd <> "" ->
  Version (Server_VersionDetail (Detail_Server sd)) <> "" ->
  service_over memdb.impl _ (reg_Publish (Some sd)) db = (Some ErrAlreadyExists, db).
Proof.
  intros (x & Hin & Hname) Hn Hv.
  unfold service_over. cbn [registryServiceImpl]. unfold service.Publish. cbn.
  unfold memdb.publish.
  destruct (String.eqb_spec (memdb.name_of sd) ""); [done|].
  destruct (String.eqb_spec (Version (Server_VersionDetail (Detail_Server sd))) "");
    [done|]. cbn [orb].
  assert (Hex : existsb (fun y => String.eqb (memdb.id_of y) (memdb.id_of sd)
                                  || String.eqb (memdb.name_of y) (memdb.name_of sd))
                  db = true).
  { apply existsb_exists. exists x. split; [exact Hin|].
    rewrite Hname, String.eqb_refl. apply orb_true_r. }
  by rewrite Hex.
Qed.

(** The OSS publish handler over the service and the in-memory store: when
    the store has a record of the name the handler constructs, the store
    after the request is the store before it, the answer is never 201
    Created, and it is 409 if the handler got as far as Publish, given that
    the text of ErrAlreadyExists says "already exists" and not "invalid
    version". *)
Lemma publish_existing_name_keeps_store
    (sentinel_text : error -> string) (TrimSpace : string -> string)
    (Validate : string -> bool * option EphemeralTokenClaims * option error)
    (Unmarshal : string -> PublishOSSRequest * option error) (is_impl : bool)
    (Fetch : string -> string -> string -> v0.RepoInfo * option error)
    (rand_Read : string * option error) (now : string)
    (db : memdb.store) (r : Request) (name rn u c : string) (l : Z) :
  let run :=
    exec (service_over memdb.impl)
      (v0.PublishOSSHandler sentinel_text TrimSpace Validate Unmarshal
         is_impl Fetch rand_Read now r) db in
  strings_Contains (sentinel_text ErrAlreadyExists) "already exists" = true ->
  strings_Contains (sentinel_text ErrAlreadyExists) "invalid version" = false ->
  In (RSearch name rn u c l) (reg_calls (trace_of run)) ->
  has_name db name ->
  state_of run = db
  /\ StatusCode (result_of run) <> StatusCreated
  /\ (existsb is_publish (reg_calls (trace_of run)) = true ->
      StatusCode (result_of run) = StatusConflict).
Proof.
  cbv zeta. intros Hae Hiv. unfold v0.PublishOSSHandler.
  repeat (case_match; try (cbn; intros []; fail)).
  all: cbn [exec Prog_bind mbind Prog_mbind call mret Prog_mret].
  all: match goal with
       | |- context [service_over memdb.impl _ (reg_Search ?q ?a ?b ?c ?d) ?st] =>
           pose proof (memdb_Search_keeps_store st q a b c d) as Hkeep;
           destruct (service_over memdb.impl _ (reg_Search q a b c d) st)
             as [[[servers next] err] st1]
       end; cbn in Hkeep; subst st1.
  all: destruct err as [serr|]; cbn [exec Prog_bind mbind Prog_mbind call mret Prog_mret].
  all: try (destruct (existsb _ servers) eqn:Hfound;
            cbn [exec Prog_bind mbind Prog_mbind call mret Prog_mret]).
  all: try match goal with
       | |- context [service_over memdb.impl _ (reg_Publish (Some ?sd)) ?st] =>
           pose proof (memdb_Publish_existing_name st sd) as Hpub;
           destruct (service_over memdb.impl _ (reg_Publish (Some sd)) st)
             as [perr st2];
           destruct perr as [pe|];
           cbn [exec Prog_bind mbind Prog_mbind call mret Prog_mret]
       end.
  all: try (destruct (strings_Contains (Error sentinel_text pe) "invalid version")
              eqn:Hiv';
            cbn [exec Prog_bind mbind Prog_mbind call mret Prog_mret]).
  all: try (destruct (strings_Contains (Error sentinel_text pe) "already exists")
              eqn:Hae';
            cbn [exec Prog_bind mbind Prog_mbind call mret Prog_mret]).
  all: cbn [reg_calls trace_of snd List.map reg_call_of].
  all: intros [Hin | Hin] Hhas;
       [injection Hin as <- _ _ _ _
       | repeat (destruct Hin as [Hin | Hin]; [discriminate Hin|]); destruct Hin].
  all: try (specialize (Hpub Hhas ltac:(cbn; discriminate) ltac:(cbn; discriminate));
            injection Hpub as Hpe Hst; try subst pe; try subst st2;
            cbn [Error] in *).
  all: cbn; repeat split; try done; try congruence.
Qed.

(* --------------------------------------------------------------------- *)
(** ** Handlers down to the database                                      *)
(* --------------------------------------------------------------------- *)

Lemma exec_bind {E : Type -> Type} {S A B : Type} (h : Impl E S)
    (p : Prog E A) (f : A -> Prog E B) (s : S) :
  exec h (Prog_bind f p) s
  = let '(a, s1, t1) := exec h p s in
    let '(b, s2, t2) := exec h (f a) s1 in
    (b, s2, (t1 ++ t2)%list).
Proof.
  revert s. induction p as [a | X e k IH]; intros s; cbn.
  - by destruct (exec h (f a) s) as [[b s2] t2].
  - destruct (h X e s) as [x s1]. rewrite IH.
    destruct (exec h (k x) s1) as [[a s2] t1].
    by destruct (exec h (f a) s2) as [[b s3] t2].
Qed.

(** A handler run over the service as an implementation of the registry
    returns what it returns when its registry calls are replaced by the
    programs of the service, and leaves the database in the same state. *)
Lemma exec_interp {S R : Type} (db : Impl Database S)
    (p : Prog RegistryService R) (s : S) :
  result_of (exec db (interp registryServiceImpl p) s)
  = result_of (exec (service_over db) p s)
  /\ state_of (exec db (interp registryServiceImpl p) s)
     = state_of (exec (service_over db) p s).
Proof.
  revert s. induction p as [r | X e k IH]; intros s; [by split|].
  cbn [interp exec]. rewrite exec_bind. unfold service_over at 1 3.
  destruct (exec db (registryServiceImpl X e) s) as [[x s1] t1].
  specialize (IH x s1).
  destruct (exec db (interp registryServiceImpl (k x)) s1) as [[r s2] t2].
  destruct (exec (service_over db) (k x) s1) as [[r' s2'] t2'].
  apply IH.
Qed.

(** The database calls made while a handler runs are those of the service
    programs of its registry calls. *)
Lemma interp_calls_Forall {S R : Type} (db : Impl Database S)
    (P : DBCall -> Prop) (p : Prog RegistryService R) (s : S) :
  Forall (fun ev => match ev with
                    | Ev e _ => forall s',
                        Forall P (db_calls (trace_of
                          (exec db (registryServiceImpl _ e) s')))
                    end)
    (trace_of (exec (service_over db) p s)) ->
  Forall P (db_calls (trace_of (exec db (interp registryServiceImpl p) s))).
Proof.
  revert s. induction p as [r | X e k IH]; intros s; [constructor|].
  cbn [interp exec]. rewrite exec_bind. unfold service_over at 1.
  destruct (exec db (registryServiceImpl X e) s) as [[x s1] t1] eqn:He.
  specialize (IH x s1).
  destruct (exec db (interp registryServiceImpl (k x)) s1) as [[r s2] t2].
  destruct (exec (service_over db) (k x) s1) as [[r' s2'] t2'].
  cbn [trace_of snd]. intros Hall. inversion Hall as [|ev tl Hhd Htl]; subst.
  unfold db_calls. rewrite List.map_app. apply Forall_app. split.
  - specialize (Hhd s). by rewrite He in Hhd.
  - by apply IH.
Qed.

(** X27: serving a search request through the service, whatever the
    request is, asks the database only for pages of details with a limit
    between 1 and 100. *)
Lemma search_request_database_limits
    (url_Parse uuid_parse : string -> option error) (sentinel_text : error -> string)
    {S : Type} (db : Impl Database S) (s : S) (r : Request) :
  Forall (fun c => exists f cursor l, c = CListDetails f cursor l /\ 1 <= l <= 100)
    (db_calls (trace_of
       (exec db (interp registryServiceImpl
                   (v0.SearchHandler url_Parse uuid_parse sentinel_text r)) s))).
Proof.
  apply interp_calls_Forall.
  pose proof (search_limit_within_bounds url_Parse uuid_parse sentinel_text
                (service_over db) s r) as Hb.
  unfold reg_calls in Hb. rewrite Forall_map in Hb.
  eapply Forall_impl; [exact Hb|].
  intros [X e x] (q & rn & u & cur & l & Hc & Hl) s'.
  destruct e; cbn in Hc; try discriminate Hc. injection Hc as -> -> -> -> ->.
  cbn [registryServiceImpl]. rewrite SearchDetails_calls.
  assert (El : effective_limit l = l).
  { unfold effective_limit. destruct (Z.leb_spec l 0); [lia | reflexivity]. }
  rewrite El.
  constructor; [by do 3 eexists|].
  destruct (retries _ _); [|constructor].
  constructor; [by do 3 eexists | constructor].
Qed.

(* --------------------------------------------------------------------- *)
(** ** The cases of the handlers' tests                                   *)
(* --------------------------------------------------------------------- *)

(** The table of TestSearchHandler: a limit that is not a number, zero or
    negative is refused by name, as is an int too large to parse; none of
    them reaches the registry. *)
Example SearchHandler_refused_limits :
  let handle params :=
    exec (service_over memdb.impl)
      (v0.SearchHandler sample_ParseRequestURI uuid_Parse sample_sentinel_text
         (get_request params)) sample_store in
  handle [("q", "test"); ("limit", "abc")]
  = (http_Error "Invalid limit parameter" StatusBadRequest, sample_store, [])
  /\ handle [("q", "test"); ("limit", "0")]
     = (http_Error "Limit must be greater than 0" StatusBadRequest, sample_store, [])
  /\ handle [("q", "test"); ("limit", "-5")]
     = (http_Error "Limit must be greater than 0" StatusBadRequest, sample_store, [])
  /\ handle [("q", "test"); ("limit", "9223372036854775808")]
     = (http_Error "Invalid limit parameter" StatusBadRequest, sample_store, []).
Proof. cbv zeta. repeat split; vm_compute; reflexivity. Qed.

Example SearchHandler_method_not_allowed :
  v0.SearchHandler sample_ParseRequestURI uuid_Parse sample_sentinel_text
    (post_request "")
  = Ret (http_Error "Method not allowed" StatusMethodNotAllowed).
Proof. reflexivity. Qed.

(** A search with a well-formed cursor and a limit: the store answers the
    records after the cursor. *)
Example SearchHandler_with_cursor :
  let run :=
    exec (service_over memdb.impl)
      (v0.SearchHandler sample_ParseRequestURI uuid_Parse sample_sentinel_text
         (get_request [("cursor", "550e8400-e29b-41d4-a716-446655440001");
                       ("limit", "10")])) sample_store in
  reg_calls (trace_of run)
  = [RSearchDetails "" "" "" "550e8400-e29b-41d4-a716-446655440001" 10]
  /\ result_of run
     = write_json StatusOK
         (PaginatedResponseDetails [dotstar_tool; plain_tool] zero_Metadata).
Proof. cbv zeta. split; vm_compute; reflexivity. Qed.

(** The three forms of repository url that extractGitHubRepo names. *)
Example extractGitHubRepo_forms :
  v0.extractGitHubRepo (fun s => s) "https://github.com/owner/repo"
  = ("owner", "repo", None)
  /\ v0.extractGitHubRepo (fun s => s) "https://github.com/owner/repo.git"
     = ("owner", "repo", None)
  /\ v0.extractGitHubRepo (fun s => s) "git@github.com:owner/repo.git"
     = ("owner", "repo", None)
  /\ v0.extractGitHubRepo (fun s => s) "https://gitlab.com/owner/repo"
     = ("", "", Some (errors_New "invalid GitHub repository URL format")).
Proof. repeat split; reflexivity. Qed.

Example generateServerID_format :
  v0.generateServerID sample_rand
  = ("30313233-3435-3637-3839-616263646566", None)
  /\ uuid_Parse (v0.generateServerID sample_rand).1 = None.
Proof. split; vm_compute; reflexivity. Qed.

Example ParseAuthorizationHeader_forms :
  auth.ParseAuthorizationHeader "Bearer abc" = "abc"
  /\ auth.ParseAuthorizationHeader "bearer abc" = "abc"
  /\ auth.ParseAuthorizationHeader "abc" = "abc"
  /\ auth.ParseAuthorizationHeader "Bearer " = "Bearer ".
Proof. repeat split; reflexivity. Qed.

(* ===================================================================== *)
(** * Further properties of the service                                   *)
(* ===================================================================== *)

Lemma GetByID_calls {S} (db : Impl Database S) (s : S) (id : string) :
  db_calls (trace_of (exec db (service.GetByID id) s)) = [CGetByID id].
Proof.
  unfold service.GetByID, trace_of. cbn.
  destruct (db _ _ s) as [[sd err] s1]. destruct err; reflexivity.
Qed.

(** X1: the reading methods of the service never publish.  Whatever the
    database answers, none of GetAll, List, GetByID, Search and
    SearchDetails makes a Publish call; GetByID makes exactly one call, a
    GetByID of the given id, and SearchDetails makes ListDetails calls
    only. *)
Theorem reading_methods_never_publish {S} (db : Impl Database S) (s : S)
    (id query registryName url cursor : string) (limit : Z) :
  let calls {R} (p : Prog Database R) := db_calls (trace_of (exec db p s)) in
  (existsb is_db_publish (calls service.GetAll) = false
   /\ existsb is_db_publish (calls (service.List cursor limit)) = false
   /\ existsb is_db_publish (calls (service.GetByID id)) = false
   /\ existsb is_db_publish
        (calls (service.Search query registryName url cursor limit)) = false
   /\ existsb is_db_publish
        (calls (service.SearchDetails query registryName url cursor limit)) = false)
  /\ calls (service.GetByID id) = [CGetByID id]
  /\ Forall (fun c => exists f cur l, c = CListDetails f cur l)
       (calls (service.SearchDetails query registryName url cursor limit)).
Proof.
  cbv zeta. split; [|split].
  - rewrite GetAll_calls, List_calls, GetByID_calls, Search_calls, SearchDetails_calls.
    repeat split; try reflexivity. by destruct (retries _ _).
  - apply GetByID_calls.
  - rewrite SearchDetails_calls.
    constructor; [by do 3 eexists|].
    destruct (retries _ _); [|constructor].
    constructor; [by do 3 eexists | constructor].
Qed.

Lemma List_result {S} (db : Impl Database S) (s : S) (cursor : string) (limit : Z) :
  result_of (exec db (service.List cursor limit) s)
  = answer_or_error (db _ (db_List nil_filter cursor (effective_limit limit)) s).1.
Proof.
  unfold service.List, result_of. fold (effective_limit limit). cbn.
  destruct (db _ _ s) as [[[entries next] err] s1]. destruct err; reflexivity.
Qed.

(** X2: an error of the database comes back bare.  When the List call
    answers an error, List and Search return no entry, the empty cursor and
    that error, whatever entries and cursor came with it; GetAll returns no
    entry and the error; GetByID returns no record and the error; and
    SearchDetails, when its first call answers an error, returns it the
    same way without a second call. *)
Theorem database_error_comes_back_bare {S} (db : Impl Database S) (s : S)
    (id query registryName url cursor : string) (limit : Z) (e : error) :
  ((db _ (db_List nil_filter cursor (effective_limit limit)) s).1.2 = Some e ->
   result_of (exec db (service.List cursor limit) s) = ([], "", Some e))
  /\ ((db _ (db_List (text_filter query registryName url) cursor
               (effective_limit limit)) s).1.2 = Some e ->
      result_of (exec db (service.Search query registryName url cursor limit) s)
      = ([], "", Some e))
  /\ ((db _ (db_List nil_filter "" 30) s).1.2 = Some e ->
      result_of (exec db service.GetAll s) = ([], Some e))
  /\ ((db _ (db_GetByID id) s).1.2 = Some e ->
      result_of (exec db (service.GetByID id) s) = (None, Some e))
  /\ ((text_phase db s query registryName url cursor limit).1.2 = Some e ->
      result_of (exec db (service.SearchDetails query registryName url cursor limit) s)
      = ([], "", Some e)
      /\ db_calls (trace_of
           (exec db (service.SearchDetails query registryName url cursor limit) s))
         = [CListDetails (text_filter query registryName url) cursor
              (effective_limit limit)]).
Proof.
  split; [|split; [|split; [|split]]].
  - intros He. rewrite List_result.
    destruct (db _ _ s) as [[[entries next] err] s1]. cbn in He. by subst err.
  - intros He. rewrite Search_result.
    destruct (db _ _ s) as [[[entries next] err] s1]. cbn in He. by subst err.
  - intros He. unfold service.GetAll, result_of. cbn.
    destruct (db _ _ s) as [[[entries next] err] s1]. cbn in He. by subst err.
  - intros He. unfold service.GetByID, result_of. cbn.
    destruct (db _ _ s) as [[sd err] s1]. cbn in He. by subst err.
  - intros He. rewrite SearchDetails_result, SearchDetails_calls.
    destruct (text_phase db s query registryName url cursor limit)
      as [[[entries next] err] s1]. cbn in He. subst err. by split.
Qed.

(** The in-memory store refuses a cursor that is not an id; the error
    comes back through List. *)
Lemma database_error_comes_back_bare_witness :
  (memdb.impl _ (db_List nil_filter "not-an-id" (effective_limit 10)) sample_store).1.2
  = Some ErrInvalidInput
  /\ result_of (exec memdb.impl (service.List "not-an-id" 10) sample_store)
     = ([], "", Some ErrInvalidInput).
Proof.
  assert (H : (memdb.impl _ (db_List nil_filter "not-an-id" (effective_limit 10))
                 sample_store).1.2 = Some ErrInvalidInput) by reflexivity.
  split; [exact H|].
  exact (proj1 (database_error_comes_back_bare memdb.impl sample_store
                  "" "" "" "" "not-an-id" 10 ErrInvalidInput) H).
Defined.

(** X3: SearchDetails asks a second time only in one case.  When the query
    is empty, or the first call answers an entry, SearchDetails makes that
    one call and returns its answer; in particular an empty query never
    reaches the regex retry, however empty the answer. *)
Theorem SearchDetails_single_call {S} (db : Impl Database S) (s : S)
    (query registryName url cursor next : string) (limit : Z)
    (entries : list ServerDetail) :
  (text_phase db s query registryName url cursor limit).1 = (entries, next, None) ->
  query = "" \/ entries <> [] ->
  db_calls (trace_of
    (exec db (service.SearchDetails query registryName url cursor limit) s))
  = [CListDetails (text_filter query registryName url) cursor (effective_limit limit)]
  /\ result_of
       (exec db (service.SearchDetails query registryName url cursor limit) s)
     = (entries, next, None)
  /\ (query = "" -> text_filter query registryName url !! "$text" = None).
Proof.
  intros Hfirst Hcase.
  assert (Hret : retries query (entries, next, None) = false).
  { cbn. destruct Hcase as [-> | Hne]; [apply andb_false_r|].
    destruct entries; [done | reflexivity]. }
  rewrite SearchDetails_calls, SearchDetails_result.
  destruct (text_phase db s query registryName url cursor limit) as [first s1].
  cbn in Hfirst. subst first. cbn [fst]. rewrite Hret.
  split; [reflexivity|]. split; [reflexivity|].
  intros ->. apply text_filter_text.
Qed.

Lemma SearchDetails_single_call_witness :
  (text_phase memdb.impl sample_store "" "" "" "" 2).1
  = ([filesystem_tool; dotstar_tool],
     "550e8400-e29b-41d4-a716-446655440002", None)
  /\ result_of (exec memdb.impl (service.SearchDetails "" "" "" "" 2) sample_store)
     = ([filesystem_tool; dotstar_tool],
        "550e8400-e29b-41d4-a716-446655440002", None).
Proof.
  assert (H : (text_phase memdb.impl sample_store "" "" "" "" 2).1
              = ([filesystem_tool; dotstar_tool],
                 "550e8400-e29b-41d4-a716-446655440002", None))
    by (vm_compute; reflexivity).
  split; [exact H|].
  exact (proj1 (proj2 (SearchDetails_single_call memdb.impl sample_store
                         "" "" "" "" _ 2 _ H (or_introl eq_refl)))).
Defined.

(* --------------------------------------------------------------------- *)
(** ** escapeRegex                                                        *)
(* --------------------------------------------------------------------- *)

(** X4: escapeRegex loses nothing: two queries with the same escaped
    pattern are the same query. *)
Theorem escapeRegex_injective (a b : string) :
  service.escapeRegex a = service.escapeRegex b -> a = b.
Proof.
  intros E. pose proof (regex_literal_QuoteMeta a) as Ha.
  unfold service.escapeRegex in E. rewrite E, regex_literal_QuoteMeta in Ha.
  congruence.
Qed.

Lemma escapeRegex_injective_witness :
  service.escapeRegex "a.b" = service.escapeRegex "a.b" /\ "a.b" = "a.b".
Proof.
  split; [reflexivity|]. exact (escapeRegex_injective "a.b" "a.b" eq_refl).
Defined.

(** X5: escapeRegex adds one byte for each metacharacter of the query and
    nothing else: the pattern is as long as the query plus the number of
    its metacharacters, at most twice as long, and it is the query itself
    exactly when the query has no metacharacter. *)
Theorem escapeRegex_length (query : string) :
  String.length (service.escapeRegex query)
  = (String.length query + count_special query)%nat
  /\ (String.length (service.escapeRegex query) <= 2 * String.length query)%nat
  /\ (service.escapeRegex query = query <-> count_special query = 0%nat).
Proof.
  unfold service.escapeRegex.
  assert (Hlen : forall q, String.length (regexp_QuoteMeta q)
                           = (String.length q + count_special q)%nat).
  { induction q as [|b q IH]; [reflexivity|].
    cbn [regexp_QuoteMeta count_special]. destruct (special b); cbn; rewrite IH; lia. }
  assert (Hcount : forall q, (count_special q <= String.length q)%nat).
  { induction q as [|b q IH]; [cbn; lia|].
    cbn [count_special String.length]. destruct (special b); lia. }
  split; [apply Hlen|]. split; [rewrite Hlen; pose proof (Hcount query); lia|].
  split.
  - intros E. pose proof (Hlen query) as H. rewrite E in H. lia.
  - induction query as [|b q IH]; [reflexivity|].
    cbn [count_special regexp_QuoteMeta]. destruct (special b); [discriminate|].
    intros H. cbn in H. by rewrite IH.
Qed.

(* ===================================================================== *)
(** * Further properties of the handlers                                  *)
(* ===================================================================== *)

(** X6: a GET search request whose url parameter is not empty and is
    refused by url.ParseRequestURI is answered 400 "Invalid URL parameter"
    at once, before the cursor and the limit are looked at and without a
    call of the registry. *)
Theorem invalid_url_parameter_is_bad_request
    (url_Parse uuid_parse : string -> option error) (sentinel_text : error -> string)
    (r : Request) :
  Method r = "GET" ->
  Values_Get (URL_Query r) "url" <> "" ->
  url_Parse (Values_Get (URL_Query r) "url") <> None ->
  v0.SearchHandler url_Parse uuid_parse sentinel_text r
  = Ret (http_Error "Invalid URL parameter" StatusBadRequest).
Proof.
  intros Hm Hne Herr. unfold v0.SearchHandler.
  by rewrite (eqb_refl_GET r Hm), (guard_rejected url_Parse _ Hne Herr).
Qed.

Lemma invalid_url_parameter_is_bad_request_witness :
  let r := get_request [("q", "test"); ("url", "not a url"); ("limit", "abc")] in
  sample_ParseRequestURI "not a url" <> None
  /\ exec (service_over memdb.impl)
       (v0.SearchHandler sample_ParseRequestURI uuid_Parse sample_sentinel_text r)
       sample_store
     = (http_Error "Invalid URL parameter" StatusBadRequest, sample_store, []).
Proof.
  cbv zeta. split; [discriminate|].
  rewrite (invalid_url_parameter_is_bad_request sample_ParseRequestURI uuid_Parse
             sample_sentinel_text
             (get_request [("q", "test"); ("url", "not a url"); ("limit", "abc")]));
    [reflexivity | reflexivity | discriminate | discriminate].
Defined.

(** X7: the search handler makes at most one call of the registry, and
    its answer decides the response: an error gives 500 with the text of the
    error; otherwise 200 with content type application/json, the records as
    answered, and metadata that carry the next cursor and the number of
    records when the next cursor is not empty and are zero when it is. *)
Theorem SearchHandler_response
    (url_Parse uuid_parse : string -> option error) (sentinel_text : error -> string)
    {S : Type} (reg : Impl RegistryService S) (s : S) (r : Request)
    (registries : list ServerDetail) (next : string) (err : option error) :
  let run := exec reg (v0.SearchHandler url_Parse uuid_parse sentinel_text r) s in
  In (Some (registries, next, err)) (List.map search_details_answer (trace_of run)) ->
  (List.length (trace_of run) = 1)%nat
  /\ (forall e, err = Some e ->
        result_of run = http_Error (Error sentinel_text e) StatusInternalServerError)
  /\ (err = None ->
        result_of run
        = {| StatusCode := StatusOK; ContentType := "application/json";
             Written :=
               PaginatedResponseDetails registries
                 (if String.eqb next "" then {| NextCursor := ""; Count := 0 |}
                  else {| NextCursor := next; Count := len registries |}) |}).
Proof.
  cbv zeta. unfold v0.SearchHandler.
  repeat (case_match; try (cbn; intros []; fail)).
  all: cbn; destruct (reg _ _ s) as [[[regs nxt] e0] s1]; destruct e0 as [e0|]; cbn.
  all: intros [Hin | []]; simplify_eq.
  all: split; [reflexivity|]; split; [intros e He | intros He]; try discriminate He.
  all: try (simplify_eq; reflexivity).
  all: unfold write_json, zero_Metadata; by destruct (String.eqb next "").
Qed.

Lemma SearchHandler_response_witness :
  let run :=
    exec (service_over memdb.impl)
      (v0.SearchHandler sample_ParseRequestURI uuid_Parse sample_sentinel_text
         (get_request [("limit", "2")])) sample_store in
  List.map search_details_answer (trace_of run)
  = [Some ([filesystem_tool; dotstar_tool],
           "550e8400-e29b-41d4-a716-446655440002", None)]
  /\ Written (result_of run)
     = PaginatedResponseDetails [filesystem_tool; dotstar_tool]
         {| NextCursor := "550e8400-e29b-41d4-a716-446655440002"; Count := 2 |}.
Proof.
  cbv zeta.
  assert (H : List.map search_details_answer
                (trace_of (exec (service_over memdb.impl)
                   (v0.SearchHandler sample_ParseRequestURI uuid_Parse
                      sample_sentinel_text (get_request [("limit", "2")]))
                   sample_store))
              = [Some ([filesystem_tool; dotstar_tool],
                       "550e8400-e29b-41d4-a716-446655440002", None)])
    by (vm_compute; reflexivity).
  split; [exact H|].
  destruct (SearchHandler_response sample_ParseRequestURI uuid_Parse
              sample_sentinel_text (service_over memdb.impl) sample_store
              (get_request [("limit", "2")]) [filesystem_tool; dotstar_tool]
              "550e8400-e29b-41d4-a716-446655440002" None) as (_ & _ & Hok).
  - rewrite H. by left.
  - rewrite (Hok eq_refl). reflexivity.
Defined.

(* --------------------------------------------------------------------- *)
(** ** The publish handler, path by path                                  *)
(* --------------------------------------------------------------------- *)

Lemma len_nonzero {A} (l : list A) : (len l =? 0) = false -> l <> [].
Proof. intros H ->. discriminate H. Qed.

Ltac bool_hyps :=
  repeat match goal with
         | H : negb _ = false |- _ => apply negb_false_iff in H
         | H : negb _ = true |- _ => apply negb_true_iff in H
         | H : String.eqb _ _ = true |- _ => apply String.eqb_eq in H
         | H : String.eqb _ _ = false |- _ => apply String.eqb_neq in H
         | H : (len _ =? 0) = false |- _ => apply len_nonzero in H
         end.

(** What holds of a run of the publish handler that called the registry. *)
Lemma PublishOSSHandler_inversion
    (sentinel_text : error -> string) (TrimSpace : string -> string)
    (Validate : string -> bool * option EphemeralTokenClaims * option error)
    (Unmarshal : string -> PublishOSSRequest * option error) (is_impl : bool)
    (Fetch : string -> string -> string -> v0.RepoInfo * option error)
    (rand_Read : string * option error) (now : string)
    {S : Type} (reg : Impl RegistryService S) (s : S) (r : Request) :
  let run :=
    exec reg (v0.PublishOSSHandler sentinel_text TrimSpace Validate Unmarshal
                is_impl Fetch rand_Read now r) s in
  trace_of run <> [] ->
  exists claims body ossReq owner repo,
    Method r = "POST" /\ Header_Authorization r <> ""
    /\ Validate (auth.ParseAuthorizationHeader (Header_Authorization r))
       = (true, claims, None)
    /\ Body r = (body, None) /\ Unmarshal body = (ossReq, None)
    /\ RepositoryURL ossReq <> "" /\ Req_Packages ossReq <> []
    /\ v0.validate_packages 0 (Req_Packages ossReq) = None
    /\ oss_owner_repo TrimSpace ossReq = (owner, repo, None)
    /\ hd_error (reg_calls (trace_of run))
       = Some (RSearch ("io.github." +:+ owner +:+ "/" +:+ repo) "" "" "" 1)
    /\ (List.length (trace_of run) <= 2)%nat
    /\ forall sd, In (RPublish sd) (reg_calls (trace_of run)) ->
         exists repoInfo serverID,
           is_impl = true
           /\ Fetch (oss_github_token claims
                       (auth.ParseAuthorizationHeader (Header_Authorization r)))
                owner repo = (repoInfo, None)
           /\ v0.generateServerID rand_Read = (serverID, None)
           /\ sd = Some (oss_server_detail owner repo repoInfo serverID
                           (Req_Packages ossReq) now)
           /\ reg_calls (trace_of run)
              = [RSearch ("io.github." +:+ owner +:+ "/" +:+ repo) "" "" "" 1;
                 RPublish sd]
           /\ existsb search_finds_name (trace_of run) = false.
Proof.
  cbv zeta. unfold v0.PublishOSSHandler. fold (oss_owner_repo TrimSpace).
  repeat (case_match; try (cbn; intros Hne; by destruct Hne)).
  all: cbn.
  all: destruct (reg _ _ s) as [[[servers next] err] st1];
       destruct err as [serr|]; cbn.
  all: try (destruct (existsb _ servers) eqn:Hfound; cbn).
  all: try (destruct (reg _ (reg_Publish _) st1) as [perr st2];
            destruct perr as [pe|]; cbn).
  all: try (destruct (strings_Contains (Error sentinel_text pe) "invalid version")
              eqn:Hiv; cbn).
  all: try (destruct (strings_Contains (Error sentinel_text pe) "already exists")
              eqn:Hae; cbn).
  all: intros _; bool_hyps; simplify_eq.
  all: eexists _, _, _, _, _.
  all: repeat match goal with |- _ /\ _ => split end.
  all: try first [ eassumption | reflexivity | lia ].
  all: try (unfold oss_owner_repo;
            match goal with
            | H : _ && _ = _ |- _ => rewrite H
            end; first [eassumption | reflexivity]).
  all: try (cbn; reflexivity).
  all: intros sd Hin; cbn in Hin.
  all: first [ destruct Hin as [Hin | [Hin | []]] | destruct Hin as [Hin | []] ];
       try discriminate Hin.
  all: simplify_eq.
  all: eexists _, _; repeat match goal with |- _ /\ _ => split end.
  all: try first [ eassumption | reflexivity ].
  all: try (cbn; rewrite ?orb_false_r; first [eassumption | reflexivity]).
Qed.

Lemma validate_packages_None (i : Z) (pkgs : list Package) :
  v0.validate_packages i pkgs = None <-> Forall package_complete pkgs.
Proof.
  revert i. induction pkgs as [|pkg rest IH]; intros i; cbn.
  - split; [constructor | done].
  - destruct (String.eqb_spec (Package_RegistryName pkg) "") as [E1|N1].
    { split; [done|]. intros H. inversion H as [|? ? (C1 & _) _]. done. }
    destruct (String.eqb_spec (Package_Name pkg) "") as [E2|N2].
    { split; [done|]. intros H. inversion H as [|? ? (_ & C2 & _) _]. done. }
    destruct (String.eqb_spec (Package_Version pkg) "") as [E3|N3].
    { split; [done|]. intros H. inversion H as [|? ? (_ & _ & C3) _]. done. }
    rewrite IH. split.
    + intros H. constructor; [done | exact H].
    + intros H. by inversion H.
Qed.

Lemma validate_packages_status (i : Z) (pkgs : list Package) (rejected : Response) :
  v0.validate_packages i pkgs = Some rejected ->
  StatusCode rejected = StatusBadRequest.
Proof.
  revert i. induction pkgs as [|pkg rest IH]; intros i; cbn; [done|].
  repeat case_match; try (intros [= <-]; reflexivity). apply IH.
Qed.

(** X8: the packages of a publish request are checked in order.  The
    check passes exactly when every package has a registry name, a name and
    a version; otherwise the answer is 400 and names the position, counted
    from the given start, of the first package that lacks one, all packages
    before it being complete. *)
Theorem validate_packages_first_incomplete (i : Z) (pkgs : list Package) :
  (v0.validate_packages i pkgs = None <-> Forall package_complete pkgs)
  /\ (forall rejected, v0.validate_packages i pkgs = Some rejected ->
        exists (k : nat) (pkg : Package) (field : string),
          pkgs !! k = Some pkg
          /\ Forall package_complete (firstn k pkgs)
          /\ ~ package_complete pkg
          /\ rejected
             = http_Error ("Package " +:+ strconv_Itoa (i + Z.of_nat k) +:+ ": "
                           +:+ field +:+ " is required") StatusBadRequest).
Proof.
  split; [apply validate_packages_None|].
  revert i. induction pkgs as [|pkg rest IH]; intros i rejected; cbn; [done|].
  destruct (String.eqb_spec (Package_RegistryName pkg) "") as [E1|N1].
  { intros [= <-]. exists 0%nat, pkg, "registry_name".
    rewrite Z.add_0_r. repeat split; [constructor | by intros (C & _)]. }
  destruct (String.eqb_spec (Package_Name pkg) "") as [E2|N2].
  { intros [= <-]. exists 0%nat, pkg, "name".
    rewrite Z.add_0_r. repeat split; [constructor | by intros (_ & C & _)]. }
  destruct (String.eqb_spec (Package_Version pkg) "") as [E3|N3].
  { intros [= <-]. exists 0%nat, pkg, "version".
    rewrite Z.add_0_r. repeat split; [constructor | by intros (_ & _ & C)]. }
  intros H. destruct (IH (i + 1) rejected H) as (k & p & field & Hk & Hbefore & Hbad & Hr).
  exists (S k), p, field. repeat split; try assumption.
  - cbn. constructor; [done | exact Hbefore].
  - rewrite Hr. do 4 f_equal. lia.
Qed.

Lemma validate_packages_first_incomplete_witness :
  let good := {| Package_RegistryName := "npm"; Package_Name := "a";
                 Package_Version := "1" |} in
  let bad := {| Package_RegistryName := "npm"; Package_Name := "";
                Package_Version := "1" |} in
  v0.validate_packages 0 [good; bad; bad]
  = Some (http_Error "Package 1: name is required" StatusBadRequest)
  /\ exists k pkg field,
       [good; bad; bad] !! k = Some pkg
       /\ http_Error "Package 1: name is required" StatusBadRequest
          = http_Error ("Package " +:+ strconv_Itoa (0 + Z.of_nat k) +:+ ": "
                        +:+ field +:+ " is required") StatusBadRequest.
Proof.
  cbv zeta. split; [reflexivity|].
  destruct (proj2 (validate_packages_first_incomplete 0
              [{| Package_RegistryName := "npm"; Package_Name := "a";
                  Package_Version := "1" |};
               {| Package_RegistryName := "npm"; Package_Name := "";
                  Package_Version := "1" |};
               {| Package_RegistryName := "npm"; Package_Name := "";
                  Package_Version := "1" |}]) _ eq_refl)
    as (k & pkg & field & Hk & _ & _ & Hr).
  exists k, pkg, field. by split.
Defined.

Lemma HasPrefix_append (p rest : string) : strings_HasPrefix (p +:+ rest) p = true.
Proof.
  unfold strings_HasPrefix. induction p as [|a p IH].
  - by destruct rest.
  - change (String.prefix (String a p) (String a (p +:+ rest)) = true).
    cbn [String.prefix]. destruct (ascii_dec a a); [exact IH | done].
Qed.

Section PublishPaths.
Context (sentinel_text : error -> string) (TrimSpace : string -> string)
        (Validate : string -> bool * option EphemeralTokenClaims * option error)
        (Unmarshal : string -> PublishOSSRequest * option error) (is_impl : bool)
        (Fetch : string -> string -> string -> v0.RepoInfo * option error)
        (rand_Read : string * option error) (now : string).
Context {S : Type} (reg : Impl RegistryService S) (s : S) (r : Request).

(** X9: the publish handler calls the registry only for an authenticated
    POST request: the Authorization header is not empty and the auth service
    accepted its token without error.  Without that the answer is 405, 401
    or 403 and the handler returns at once. *)
Theorem registry_reached_only_when_authenticated :
  let handler := v0.PublishOSSHandler sentinel_text TrimSpace Validate Unmarshal
                   is_impl Fetch rand_Read now r in
  let token := auth.ParseAuthorizationHeader (Header_Authorization r) in
  (trace_of (exec reg handler s) <> [] ->
   Method r = "POST" /\ Header_Authorization r <> ""
   /\ exists claims, Validate token = (true, claims, None))
  /\ (Method r <> "POST" ->
      handler = Ret (http_Error "Method not allowed" StatusMethodNotAllowed))
  /\ (Method r = "POST" -> Header_Authorization r = "" ->
      handler = Ret (http_Error "Authorization header is required"
                       StatusUnauthorized))
  /\ (Method r = "POST" -> Header_Authorization r <> "" ->
      (Validate token).2 <> None \/ (Validate token).1.1 = false ->
      exists resp, handler = Ret resp
                   /\ (StatusCode resp = StatusUnauthorized
                       \/ StatusCode resp = StatusForbidden)).
Proof.
  cbv zeta. split; [|split; [|split]].
  - intros Hne.
    destruct (PublishOSSHandler_inversion sentinel_text TrimSpace Validate Unmarshal
                is_impl Fetch rand_Read now reg s r Hne)
      as (claims & body & ossReq & owner & repo & Hm & Hh & Hv & _).
    eauto.
  - intros Hm. unfold v0.PublishOSSHandler.
    by destruct (String.eqb_spec (Method r) "POST").
  - intros Hm Hh. unfold v0.PublishOSSHandler. by rewrite Hm, Hh.
  - intros Hm Hh Hbad. unfold v0.PublishOSSHandler. rewrite Hm.
    destruct (String.eqb_spec (Header_Authorization r) ""); [done|]. cbn [negb String.eqb].
    change (negb ("POST" =? "POST")%string) with false. cbv iota.
    destruct (Validate _) as [[valid claims] err]. cbn in Hbad.
    destruct err as [e|]; [eexists; split; [reflexivity | by left]|].
    destruct Hbad as [Hbad | ->]; [done|].
    eexists; split; [reflexivity | by right].
Qed.

(** X10: the publish handler calls the registry only for a request whose
    body was read and parsed, whose repository url is not empty, and whose
    packages are at least one and all complete. *)
Theorem registry_reached_only_with_valid_payload :
  trace_of (exec reg (v0.PublishOSSHandler sentinel_text TrimSpace Validate
                        Unmarshal is_impl Fetch rand_Read now r) s) <> [] ->
  exists body ossReq,
    Body r = (body, None) /\ Unmarshal body = (ossReq, None)
    /\ RepositoryURL ossReq <> "" /\ Req_Packages ossReq <> []
    /\ Forall package_complete (Req_Packages ossReq).
Proof.
  intros Hne.
  destruct (PublishOSSHandler_inversion sentinel_text TrimSpace Validate Unmarshal
              is_impl Fetch rand_Read now reg s r Hne)
    as (claims & body & ossReq & owner & repo & _ & _ & _ & Hb & Hu & Hurl & Hp & Hv & _).
  exists body, ossReq. repeat split; try assumption.
  by apply (validate_packages_None 0).
Qed.

(** X11: what the publish handler publishes.  A Publish call of a run is
    the second and last call, after a Search with limit 1 for the name of
    the record that answered no server of that name; the record is not nil,
    its name is "io.github." owner "/" repo, its version is "1.0.0-oss", it
    is flagged latest, its repository source is "github", it has no remotes,
    and its packages are those of the request, at least one and all
    complete. *)
Theorem published_record_shape (sd : option ServerDetail) :
  let run := exec reg (v0.PublishOSSHandler sentinel_text TrimSpace Validate
                         Unmarshal is_impl Fetch rand_Read now r) s in
  In (RPublish sd) (reg_calls (trace_of run)) ->
  exists d body ossReq,
    sd = Some d
    /\ reg_calls (trace_of run)
       = [RSearch (Server_Name (Detail_Server d)) "" "" "" 1; RPublish (Some d)]
    /\ existsb search_finds_name (trace_of run) = false
    /\ strings_HasPrefix (Server_Name (Detail_Server d)) "io.github." = true
    /\ Server_VersionDetail (Detail_Server d)
       = {| Version := "1.0.0-oss"; ReleaseDate := now; IsLatest := true |}
    /\ Repository_Source (Server_Repository (Detail_Server d)) = "github"
    /\ Remotes d = []
    /\ Body r = (body, None) /\ Unmarshal body = (ossReq, None)
    /\ Packages d = Req_Packages ossReq
    /\ Packages d <> [] /\ Forall package_complete (Packages d).
Proof.
  cbv zeta. intros Hin.
  assert (Hne : trace_of (exec reg (v0.PublishOSSHandler sentinel_text TrimSpace
                   Validate Unmarshal is_impl Fetch rand_Read now r) s) <> []).
  { intros E. rewrite E in Hin. destruct Hin. }
  destruct (PublishOSSHandler_inversion sentinel_text TrimSpace Validate Unmarshal
              is_impl Fetch rand_Read now reg s r Hne)
    as (claims & body & ossReq & owner & repo & _ & _ & _ & Hb & Hu & _ & Hp & Hv
        & _ & _ & _ & Hpub).
  destruct (Hpub sd Hin) as (repoInfo & serverID & _ & _ & _ & -> & Hcalls & Hnf).
  eexists _, body, ossReq. split; [reflexivity|].
  split; [exact Hcalls|]. split; [exact Hnf|].
  repeat split; try assumption; try reflexivity.
  - apply (HasPrefix_append "io.github.").
  - by apply (validate_packages_None 0).
Qed.

(** X12: the owner and repo fields of the request stand in for the url.
    When both are given, the name the handler searches for is made of them,
    whatever the repository url is; when one of them is empty, the name is
    made of what extractGitHubRepo finds in the url. *)
Theorem owner_and_repo_fields_override_url (body : string)
    (ossReq : PublishOSSRequest) :
  let run := exec reg (v0.PublishOSSHandler sentinel_text TrimSpace Validate
                         Unmarshal is_impl Fetch rand_Read now r) s in
  trace_of run <> [] ->
  Body r = (body, None) -> Unmarshal body = (ossReq, None) ->
  (Owner ossReq <> "" -> Repo ossReq <> "" ->
   hd_error (reg_calls (trace_of run))
   = Some (RSearch ("io.github." +:+ Owner ossReq +:+ "/" +:+ Repo ossReq)
             "" "" "" 1))
  /\ (Owner ossReq = "" \/ Repo ossReq = "" ->
      exists owner repo,
        v0.extractGitHubRepo TrimSpace (RepositoryURL ossReq) = (owner, repo, None)
        /\ hd_error (reg_calls (trace_of run))
           = Some (RSearch ("io.github." +:+ owner +:+ "/" +:+ repo) "" "" "" 1)).
Proof.
  cbv zeta. intros Hne Hb Hu.
  destruct (PublishOSSHandler_inversion sentinel_text TrimSpace Validate Unmarshal
              is_impl Fetch rand_Read now reg s r Hne)
    as (claims & body' & ossReq' & owner & repo & _ & _ & _ & Hb' & Hu' & _ & _ & _
        & Hor & Hhd & _).
  rewrite Hb in Hb'. injection Hb' as <-. rewrite Hu in Hu'. injection Hu' as <-.
  unfold oss_owner_repo in Hor. split.
  - intros Ho Hr.
    destruct (String.eqb_spec (Owner ossReq) ""); [done|].
    destruct (String.eqb_spec (Repo ossReq) ""); [done|].
    cbn in Hor. injection Hor as <- <-. exact Hhd.
  - intros Hempty. exists owner, repo. split; [|exact Hhd].
    destruct Hempty as [E | E]; rewrite E in Hor; cbn in Hor;
      rewrite ?andb_false_r in Hor; exact Hor.
Qed.
End PublishPaths.

Section PublishOutcome.
Context (sentinel_text : error -> string) (TrimSpace : string -> string)
        (Validate : string -> bool * option EphemeralTokenClaims * option error)
        (Unmarshal : string -> PublishOSSRequest * option error) (is_impl : bool)
        (Fetch : string -> string -> string -> v0.RepoInfo * option error)
        (rand_Read : string * option error) (now : string).
Context {S : Type} (reg : Impl RegistryService S) (s : S) (r : Request).

Ltac run_publish_handler :=
  unfold v0.PublishOSSHandler;
  repeat case_match;
  cbn;
  try (destruct (reg _ _ s) as [[[servers next] err] st1];
       destruct err as [serr|]; cbn);
  try match goal with
      | |- context [if existsb ?f ?l then _ else _] =>
          destruct (existsb f l) eqn:Hfound; cbn
      end;
  try match goal with
      | |- context [reg _ (reg_Publish ?sd) ?st] =>
          destruct (reg _ (reg_Publish sd) st) as [perr st2];
          destruct perr as [pe|]; cbn
      end;
  try match goal with
      | |- context [strings_Contains ?t "invalid version"] =>
          destruct (strings_Contains t "invalid version") eqn:Hiv; cbn
      end;
  try match goal with
      | |- context [strings_Contains ?t "already exists"] =>
          destruct (strings_Contains t "already exists") eqn:Hae; cbn
      end.

(** X13: the publish handler answers 201 Created exactly when its Publish
    call answered no error; whom the answer names as publisher is the user
    of the ephemeral token, or "registry-owner" when the token was the
    owner's. *)
Theorem created_iff_publish_succeeded :
  let run := exec reg (v0.PublishOSSHandler sentinel_text TrimSpace Validate
                         Unmarshal is_impl Fetch rand_Read now r) s in
  (StatusCode (result_of run) = StatusCreated
   <-> existsb publish_succeeded (trace_of run) = true)
  /\ (StatusCode (result_of run) = StatusCreated ->
      exists claims id name repository,
        Validate (auth.ParseAuthorizationHeader (Header_Authorization r))
        = (true, claims, None)
        /\ Written (result_of run)
           = JSONObject
               [("message", JString "OSS server publication successful");
                ("id", JString id); ("name", JString name);
                ("repository", JRepository repository);
                ("published_by",
                 JString match claims with
                         | Some c => GitHubUsername c
                         | None => "registry-owner"
                         end)]).
Proof.
  cbv zeta. run_publish_handler.
  all: try match goal with
           | H : v0.validate_packages _ _ = Some ?r0 |- _ =>
               apply validate_packages_status in H; rewrite H
           end.
  all: split;
       [split; [intros Hc; vm_compute in Hc; try discriminate Hc; reflexivity
               | intros Hp; cbn in Hp; try discriminate Hp; reflexivity]
       | intros Hc; vm_compute in Hc; try discriminate Hc].
  all: bool_hyps; simplify_eq.
  all: eexists _, _, _, _; split; reflexivity.
Qed.

(** X14: an error of the Publish call decides the status by its text, in
    this order: a text with "invalid version" gives 400, even when it also
    has "already exists"; else a text with "already exists" gives 409; any
    other gives 500.  The 400 and the 500 carry the text of the error. *)
Theorem publish_error_status (ev : Event RegistryService) (e : error) :
  let run := exec reg (v0.PublishOSSHandler sentinel_text TrimSpace Validate
                         Unmarshal is_impl Fetch rand_Read now r) s in
  In ev (trace_of run) ->
  publish_error ev = Some e ->
  result_of run
  = if strings_Contains (Error sentinel_text e) "invalid version"
    then http_Error ("Failed to publish server details: " +:+ Error sentinel_text e)
           StatusBadRequest
    else if strings_Contains (Error sentinel_text e) "already exists"
    then http_Error "Server already exists in registry" StatusConflict
    else http_Error ("Failed to publish server details: " +:+ Error sentinel_text e)
           StatusInternalServerError.
Proof.
  cbv zeta. run_publish_handler.
  all: try (intros []; fail).
  all: intros Hin Hpe.
  all: first [ destruct Hin as [Hin | [Hin | []]] | destruct Hin as [Hin | []] ];
       subst ev; cbn in Hpe; simplify_eq.
  all: repeat match goal with
              | H : strings_Contains _ _ = _ |- _ => rewrite H in *; clear H
              end; try reflexivity; try discriminate.
Qed.
End PublishOutcome.


(* --------------------------------------------------------------------- *)
(** ** extractGitHubRepo and generateServerID                             *)
(* --------------------------------------------------------------------- *)

Lemma append_cons (a : ascii) (s t : string) : String a s +:+ t = String a (s +:+ t).
Proof. reflexivity. Qed.

Lemma append_nil (t : string) : "" +:+ t = t.
Proof. reflexivity. Qed.

Lemma Split1_segment (a rest : string) :
  no_slash a ->
  strings_Split1 (a +:+ String "/" rest) "/" = a :: strings_Split1 rest "/".
Proof.
  unfold no_slash. induction a as [|c a IH]; intros Hns.
  - reflexivity.
  - rewrite append_cons. cbn [strings_Split1].
    cbn [string_mem] in Hns. apply orb_false_elim in Hns as [Hc Ha].
    unfold ascii_eqb in *. rewrite Ascii.eqb_sym in Hc. rewrite Hc.
    by rewrite (IH Ha).
Qed.

Lemma Split1_last (a : string) :
  no_slash a -> strings_Split1 a "/" = [a].
Proof.
  unfold no_slash. induction a as [|c a IH]; intros Hns; [reflexivity|].
  cbn [strings_Split1]. cbn [string_mem] in Hns.
  apply orb_false_elim in Hns as [Hc Ha].
  unfold ascii_eqb in *. rewrite Ascii.eqb_sym in Hc. rewrite Hc.
  by rewrite (IH Ha).
Qed.

Lemma string_drop_append (p rest : string) :
  string_drop (String.length p) (p +:+ rest) = rest.
Proof. induction p as [|a p IH]; [reflexivity | exact IH]. Qed.

Lemma TrimPrefix_append (p rest : string) : strings_TrimPrefix (p +:+ rest) p = rest.
Proof.
  unfold strings_TrimPrefix. by rewrite HasPrefix_append, string_drop_append.
Qed.

(** X16: extractGitHubRepo on the url forms it supports.  When the url,
    with surrounding white space and one ".git" suffix trimmed, is
    "https://github.com/" or "git@github.com:" followed by owner "/" repo,
    and possibly by "/" and more, the function returns that owner and that
    repo without error; neither is required to be non-empty.  When the
    trimmed url has neither prefix, it returns two empty texts and the error
    "invalid GitHub repository URL format". *)
Theorem extractGitHubRepo_forms_and_errors (TrimSpace : string -> string)
    (repoURL owner repo more : string) :
  let url := strings_TrimSuffix (TrimSpace repoURL) ".git" in
  (no_slash owner -> no_slash repo ->
   url = "https://github.com/" +:+ owner +:+ String "/" repo
   \/ url = "https://github.com/" +:+ owner +:+ String "/" (repo +:+ String "/" more)
   \/ url = "git@github.com:" +:+ owner +:+ String "/" repo
   \/ url = "git@github.com:" +:+ owner +:+ String "/" (repo +:+ String "/" more) ->
   v0.extractGitHubRepo TrimSpace repoURL = (owner, repo, None))
  /\ (strings_HasPrefix url "https://github.com/" = false ->
      strings_HasPrefix url "git@github.com:" = false ->
      v0.extractGitHubRepo TrimSpace repoURL
      = ("", "", Some (errors_New "invalid GitHub repository URL format"))).
Proof.
  cbv zeta. split.
  - intros Ho Hr Hform. unfold v0.extractGitHubRepo.
    destruct Hform as [-> | [-> | [-> | ->]]].
    + rewrite (HasPrefix_append "https://github.com/"),
        (TrimPrefix_append "https://github.com/").
      by rewrite (Split1_segment owner _ Ho), (Split1_last repo Hr).
    + rewrite (HasPrefix_append "https://github.com/"),
        (TrimPrefix_append "https://github.com/").
      by rewrite (Split1_segment owner _ Ho), (Split1_segment repo _ Hr).
    + replace (strings_HasPrefix ("git@github.com:" +:+ owner +:+ String "/" repo)
                 "https://github.com/") with false by reflexivity.
      rewrite (HasPrefix_append "git@github.com:"),
        (TrimPrefix_append "git@github.com:").
      by rewrite (Split1_segment owner _ Ho), (Split1_last repo Hr).
    + replace (strings_HasPrefix
                 ("git@github.com:" +:+ owner +:+ String "/" (repo +:+ String "/" more))
                 "https://github.com/") with false by reflexivity.
      rewrite (HasPrefix_append "git@github.com:"),
        (TrimPrefix_append "git@github.com:").
      by rewrite (Split1_segment owner _ Ho), (Split1_segment repo _ Hr).
  - intros H1 H2. unfold v0.extractGitHubRepo. by rewrite H1, H2.
Qed.

Lemma extractGitHubRepo_forms_and_errors_witness :
  no_slash "owner" /\ no_slash "repo"
  /\ v0.extractGitHubRepo (fun s => s) "git@github.com:owner/repo.git"
     = ("owner", "repo", None)
  /\ v0.extractGitHubRepo (fun s => s) "https://github.com/owner//tree/main"
     = ("owner", "", None).
Proof.
  split; [reflexivity|]. split; [reflexivity|]. split.
  - apply (proj1 (extractGitHubRepo_forms_and_errors (fun s => s)
                    "git@github.com:owner/repo.git" "owner" "repo" ""));
      [reflexivity | reflexivity | right; right; left; reflexivity].
  - apply (proj1 (extractGitHubRepo_forms_and_errors (fun s => s)
                    "https://github.com/owner//tree/main" "owner" "" "tree/main"));
      [reflexivity | reflexivity | right; left; reflexivity].
Defined.

Lemma is_hex_hex_digit (n : nat) : (n < 16)%nat -> is_hex (v0.hex_digit n) = true.
Proof. intros Hn. do 16 (destruct n as [|n]; [reflexivity|]). lia. Qed.

Lemma all_hex_hex (b : string) : all_hex (v0.hex b) = true.
Proof.
  induction b as [|c b IH]; [reflexivity|].
  cbn [v0.hex all_hex]. pose proof (nat_ascii_bounded c) as Hc.
  rewrite !is_hex_hex_digit, IH; [reflexivity| |].
  - apply Nat.mod_upper_bound. lia.
  - apply Nat.Div0.div_lt_upper_bound. lia.
Qed.

Lemma hex_length (b : string) : String.length (v0.hex b) = (2 * String.length b)%nat.
Proof. induction b as [|c b IH]; [reflexivity|]. cbn [v0.hex String.length]. lia. Qed.

Lemma generateServerID_canonical
    (c0 c1 c2 c3 c4 c5 c6 c7 c8 c9 c10 c11 c12 c13 c14 c15 : ascii) :
  uuid_canonical
    (v0.generateServerID
       (String c0 (String c1 (String c2 (String c3 (String c4 (String c5
        (String c6 (String c7 (String c8 (String c9 (String c10 (String c11
         (String c12 (String c13 (String c14 (String c15 ""))))))))))))))),
        None)).1 = true.
Proof.
  lazy -[is_hex v0.hex_digit Nat.div Nat.modulo nat_of_ascii andb].
  pose proof (fun c => is_hex_hex_digit (nat_of_ascii c / 16)
                (Nat.Div0.div_lt_upper_bound (nat_of_ascii c) 16%nat 16%nat
                   ltac:(pose proof (nat_ascii_bounded c); lia))) as Hhi.
  pose proof (fun c => is_hex_hex_digit (nat_of_ascii c mod 16)
                (Nat.mod_upper_bound (nat_of_ascii c) 16%nat (Nat.neq_succ_0 15))) as Hlo.
  rewrite !Hhi, !Hlo. reflexivity.
Qed.

(** X17: a server id made from sixteen random bytes has the shape of a
    UUID: 36 characters, "-" at the positions 8, 13, 18 and 23, and
    hexadecimal digits everywhere else, so the search handler's cursor check
    accepts it; when the random source fails, the id is empty and the error
    is that of the source. *)
Theorem generateServerID_is_uuid_shaped (b : string) (e : error) :
  (String.length b = 16%nat ->
   exists id, v0.generateServerID (b, None) = (id, None)
              /\ String.length id = 36%nat
              /\ uuid_canonical id = true
              /\ uuid_Parse id = None)
  /\ v0.generateServerID (b, Some e) = ("", Some e).
Proof.
  split; [|reflexivity].
  intros Hlen. eexists. split; [reflexivity|].
  do 17 (destruct b as [| ? b]; try discriminate Hlen). clear Hlen.
  pose proof (generateServerID_canonical a a0 a1 a2 a3 a4 a5 a6 a7 a8 a9 a10 a11
                a12 a13 a14) as Hcanon.
  split; [reflexivity|]. split; [exact Hcanon|].
  unfold uuid_Parse.
  change (String.length _) with 36%nat. cbv iota.
  match goal with
  | |- (if uuid_canonical ?x then _ else _) = _ =>
      replace (uuid_canonical x) with true by (symmetry; exact Hcanon)
  end.
  reflexivity.
Qed.

Lemma generateServerID_is_uuid_shaped_witness :
  String.length "0123456789abcdef" = 16%nat
  /\ exists id, v0.generateServerID sample_rand = (id, None) /\ uuid_Parse id = None.
Proof.
  split; [reflexivity|].
  destruct (proj1 (generateServerID_is_uuid_shaped "0123456789abcdef" ErrNotFound)
              eq_refl) as (id & Hid & _ & _ & Hp).
  exists id. by split.
Defined.

(* ===================================================================== *)
(** * Further properties of package auth                                  *)
(* ===================================================================== *)

Lemma string_take_append (p rest : string) :
  string_take (String.length p) (p +:+ rest) = p.
Proof.
  induction p as [|a p IH]; [by destruct rest|].
  rewrite append_cons. cbn [String.length string_take]. by rewrite IH.
Qed.

Lemma length_append (p rest : string) :
  String.length (p +:+ rest) = (String.length p + String.length rest)%nat.
Proof.
  induction p as [|a p IH]; [reflexivity|].
  rewrite append_cons. cbn [String.length]. by rewrite IH.
Qed.

(** X18: ParseAuthorizationHeader strips a bearer scheme and nothing
    else.  A header made of seven bytes that upper-case to "BEARER " and a
    token that is not empty yields the token; a header of at most seven
    bytes, such as "Bearer " without a token, and a header that does not
    start with the scheme yield the header itself. *)
Theorem ParseAuthorizationHeader_strips_bearer (scheme token header : string) :
  (String.length scheme = 7%nat ->
   strings_ToUpper_ascii scheme = "BEARER " ->
   token <> "" ->
   auth.ParseAuthorizationHeader (scheme +:+ token) = token)
  /\ ((String.length header <= 7)%nat ->
      auth.ParseAuthorizationHeader header = header)
  /\ (strings_ToUpper_ascii (string_take 7 header) <> "BEARER " ->
      auth.ParseAuthorizationHeader header = header).
Proof.
  split; [|split].
  - intros Hlen Hup Htok. unfold auth.ParseAuthorizationHeader.
    assert (Hne : String.eqb (scheme +:+ token) "" = false).
    { apply String.eqb_neq. intros E. apply (f_equal String.length) in E.
      rewrite length_append, Hlen in E. discriminate E. }
    rewrite Hne, length_append, Hlen.
    assert (Hlt : (7 <? 7 + String.length token)%nat = true).
    { apply Nat.ltb_lt. destruct token; [done | cbn; lia]. }
    rewrite Hlt. rewrite <- Hlen at 1. rewrite string_take_append, Hup.
    cbn [andb]. change (String.eqb "BEARER " "BEARER ") with true. cbv iota.
    rewrite <- Hlen. apply string_drop_append.
  - intros Hlen. unfold auth.ParseAuthorizationHeader.
    destruct (String.eqb_spec header "") as [-> | _]; [reflexivity|].
    assert (Hlt : (7 <? String.length header)%nat = false) by (apply Nat.ltb_ge; lia).
    by rewrite Hlt.
  - intros Hup. unfold auth.ParseAuthorizationHeader.
    destruct (String.eqb_spec header "") as [-> | _]; [reflexivity|].
    destruct (String.eqb_spec (strings_ToUpper_ascii (string_take 7 header)) "BEARER ");
      [done|]. by rewrite andb_false_r.
Qed.

Lemma ParseAuthorizationHeader_strips_bearer_witness :
  strings_ToUpper_ascii "beArer " = "BEARER "
  /\ auth.ParseAuthorizationHeader "beArer abc.def" = "abc.def"
  /\ auth.ParseAuthorizationHeader "Bearer " = "Bearer ".
Proof.
  split; [reflexivity|]. split.
  - apply (proj1 (ParseAuthorizationHeader_strips_bearer "beArer " "abc.def" ""));
      [reflexivity | reflexivity | discriminate].
  - apply (proj1 (proj2 (ParseAuthorizationHeader_strips_bearer "" "" "Bearer "))).
    cbn. lia.
Defined.

Section TokenFacts.
Context (hmac : string -> string -> string)
        (Marshal_claims : EphemeralTokenClaims -> string * option error)
        (Marshal_token : EphemeralToken -> string * option error)
        (Unmarshal_token : string -> EphemeralToken * option error)
        (sentinel_text : error -> string) (secret : string).

(** X19: validateEphemeralToken accepts nothing it should not.  It
    returns either claims and no error, or no claims and an error; and when
    it returns claims, the token text decoded and parsed to a token with
    these claims, the signature in the token is the base64 text of the MAC
    of the serialised claims under the secret, and the expiry of the claims
    is not before the time of the check. *)
Theorem validateEphemeralToken_sound (now : Time) (tokenString : string) :
  let validate := auth.validateEphemeralToken hmac Marshal_claims Unmarshal_token
                    sentinel_text secret in
  ((exists claims, validate now tokenString = (Some claims, None))
   \/ (exists e, validate now tokenString = (None, Some e)))
  /\ (forall claims, (validate now tokenString).1 = Some claims ->
        exists tokenJSON token claimsJSON,
          base64_DecodeString tokenString = (tokenJSON, None)
          /\ Unmarshal_token tokenJSON = (token, None)
          /\ Claims token = claims
          /\ Marshal_claims claims = (claimsJSON, None)
          /\ Signature token = base64_EncodeToString (hmac secret claimsJSON)
          /\ now <= ExpiresAt claims).
Proof.
  cbv zeta. unfold auth.validateEphemeralToken.
  destruct (base64_DecodeString tokenString) as [tokenJSON derr] eqn:Hd.
  destruct derr as [e|]; [split; [right; eauto | intros ? [=]]|].
  destruct (Unmarshal_token tokenJSON) as [token uerr] eqn:Hu.
  destruct uerr as [e|]; [split; [right; eauto | intros ? [=]]|].
  destruct (Marshal_claims (Claims token)) as [claimsJSON merr] eqn:Hm.
  destruct merr as [e|]; [split; [right; eauto | intros ? [=]]|].
  destruct (String.eqb_spec (Signature token)
              (base64_EncodeToString (hmac secret claimsJSON))) as [Hsig | _];
    cbn [negb]; [|split; [right; eauto | intros ? [=]]].
  destruct (Z.ltb_spec (ExpiresAt (Claims token)) now);
    [split; [right; eauto | intros ? [=]]|].
  split; [left; eauto|]. intros claims [= <-].
  exists tokenJSON, token, claimsJSON. repeat split; try assumption; lia.
Qed.
End TokenFacts.

Section TokenFlow.
Context (hmac : string -> string -> string)
        (Marshal_claims : EphemeralTokenClaims -> string * option error)
        (Marshal_token : EphemeralToken -> string * option error)
        (Unmarshal_token : string -> EphemeralToken * option error)
        (sentinel_text : error -> string).

Lemma generateEphemeralToken_ok (secret nonce id user : string) (now : Time)
    (duration : Duration) (claimsJSON tokenJSON : string) :
  let claims := {| GitHubUserID := id; GitHubUsername := user; IssuedAt := now;
                   ExpiresAt := now + duration;
                   Nonce := base64_EncodeToString nonce |} in
  Marshal_claims claims = (claimsJSON, None) ->
  Marshal_token {| Claims := claims;
                   Signature := base64_EncodeToString (hmac secret claimsJSON) |}
  = (tokenJSON, None) ->
  auth.generateEphemeralToken hmac Marshal_claims Marshal_token sentinel_text secret
    (nonce, None) now id user duration
  = (base64_EncodeToString tokenJSON, None).
Proof.
  cbv zeta. intros Hc Ht. unfold auth.generateEphemeralToken. by rewrite Hc, Ht.
Qed.

Lemma validateEphemeralToken_encoded (secret : string) (t : Time)
    (token : EphemeralToken) (claimsJSON tokenJSON : string) :
  Unmarshal_token tokenJSON = (token, None) ->
  Marshal_claims (Claims token) = (claimsJSON, None) ->
  auth.validateEphemeralToken hmac Marshal_claims Unmarshal_token sentinel_text
    secret t (base64_EncodeToString tokenJSON)
  = if negb (String.eqb (Signature token)
               (base64_EncodeToString (hmac secret claimsJSON)))
    then (None, Some (errors_New "invalid token signature"))
    else if ExpiresAt (Claims token) <? t
    then (None, Some (errors_New "token has expired"))
    else (Some (Claims token), None).
Proof.
  intros Hu Hc. unfold auth.validateEphemeralToken.
  by rewrite base64_roundtrip, Hu, Hc.
Qed.

Lemma validateEphemeralToken_shape (secret : string) (now : Time) (tokenString : string) :
  let v := auth.validateEphemeralToken hmac Marshal_claims Unmarshal_token
             sentinel_text secret now tokenString in
  (exists claims, v = (Some claims, None)) \/ (exists e, v = (None, Some e)).
Proof.
  cbv zeta. unfold auth.validateEphemeralToken.
  repeat case_match; eauto.
Qed.

(** X20: a token is bound to the secret it was signed with.  A token that
    generateEphemeralToken made under one secret is refused with "invalid
    token signature" by validateEphemeralToken under another secret, at any
    time, when the MAC of its claims under the two secrets differ. *)
Theorem token_of_another_secret_is_refused
    (secret secret' nonce id user : string) (now t : Time) (duration : Duration)
    (claimsJSON tokenJSON : string) :
  let claims := {| GitHubUserID := id; GitHubUsername := user; IssuedAt := now;
                   ExpiresAt := now + duration;
                   Nonce := base64_EncodeToString nonce |} in
  let token := {| Claims := claims;
                  Signature := base64_EncodeToString (hmac secret claimsJSON) |} in
  Marshal_claims claims = (claimsJSON, None) ->
  Marshal_token token = (tokenJSON, None) ->
  Unmarshal_token tokenJSON = (token, None) ->
  hmac secret' claimsJSON <> hmac secret claimsJSON ->
  auth.validateEphemeralToken hmac Marshal_claims Unmarshal_token sentinel_text
    secret' t
    (auth.generateEphemeralToken hmac Marshal_claims Marshal_token sentinel_text
       secret (nonce, None) now id user duration).1
  = (None, Some (errors_New "invalid token signature")).
Proof.
  cbv zeta. intros Hc Ht Hu Hmac.
  rewrite (generateEphemeralToken_ok secret nonce id user now duration _ _ Hc Ht).
  cbn [fst]. rewrite (validateEphemeralToken_encoded secret' t _ claimsJSON _ Hu Hc).
  cbn [Signature].
  destruct (String.eqb_spec (base64_EncodeToString (hmac secret claimsJSON))
              (base64_EncodeToString (hmac secret' claimsJSON))) as [E|_];
    [|reflexivity].
  apply base64_EncodeToString_inj in E. congruence.
Qed.
End TokenFlow.

Lemma token_of_another_secret_is_refused_witness :
  sample_hmac "other" "x" <> sample_hmac "secret" "x"
  /\ auth.validateEphemeralToken sample_hmac sample_Marshal_claims
       sample_Unmarshal_token sample_sentinel_text "other" 2000
       (sample_generate 1000 "octocat" time_Hour).1
     = (None, Some (errors_New "invalid token signature")).
Proof.
  split; [discriminate|].
  apply (token_of_another_secret_is_refused sample_hmac sample_Marshal_claims
           sample_Marshal_token sample_Unmarshal_token sample_sentinel_text
           "secret" "other" "0123456789abcdef" "583231" "octocat" 1000 2000 time_Hour
           _ _ eq_refl eq_refl).
  - vm_compute. reflexivity.
  - vm_compute. discriminate.
Defined.

(* --------------------------------------------------------------------- *)
(** ** The auth service                                                   *)
(* --------------------------------------------------------------------- *)

Section AuthService.
Context (hmac : string -> string -> string)
        (Marshal_claims : EphemeralTokenClaims -> string * option error)
        (Marshal_token : EphemeralToken -> string * option error)
        (Unmarshal_token : string -> EphemeralToken * option error)
        (sentinel_text : error -> string)
        (Unmarshal_user : string -> (Z * string) * option error)
        (MethodGitHub MethodNone owner secret : string).
Context {S : Type} (gh : Impl GitHub S) (s : S).

(** X21: ValidateAuth asks GitHub only for the GitHub method.  An empty
    method and the method none are refused with ErrAuthRequired, any method
    other than GitHub with ErrUnsupportedAuthMethod, all without a call; for
    the GitHub method the one call is ValidateToken with the token and the
    repository of the credentials, and its answer is the result.  So the
    result is never positive unless GitHub said so. *)
Theorem ValidateAuth_dispatch (a : Authentication) :
  let p := auth_service.ValidateAuth MethodGitHub MethodNone a in
  (Auth_Method a = "" \/ Auth_Method a = MethodNone ->
   p = Ret (false, Some ErrAuthRequired))
  /\ (Auth_Method a <> "" -> Auth_Method a <> MethodNone ->
      Auth_Method a = MethodGitHub ->
      p = call (gh_ValidateToken (Auth_Token a) (Auth_RepoRef a)))
  /\ (Auth_Method a <> "" -> Auth_Method a <> MethodNone ->
      Auth_Method a <> MethodGitHub ->
      p = Ret (false, Some ErrUnsupportedAuthMethod))
  /\ ((result_of (exec gh p s)).1 = true ->
      Auth_Method a = MethodGitHub
      /\ List.map check_answer (trace_of (exec gh p s))
         = [Some (true, (result_of (exec gh p s)).2)]).
Proof.
  cbv zeta. unfold auth_service.ValidateAuth.
  destruct (String.eqb_spec (Auth_Method a) "") as [E0|N0];
    destruct (String.eqb_spec (Auth_Method a) MethodNone) as [E1|N1];
    destruct (String.eqb_spec (Auth_Method a) MethodGitHub) as [E2|N2]; cbn [orb].
  all: repeat split; try done; try (intros [? | ?]; done).
  all: cbn in *; try done.
  all: destruct (gh _ _ s) as [[valid err] s1]; cbn in *; by subst.
Qed.

(** X22: ValidateRegistryOwnerAuth.  Without a configured owner the check
    fails with an error and GitHub is not asked.  Otherwise GitHub is asked
    once whether the token is the owner's; an error in its answer makes the
    result negative, whatever else the answer said, and is returned wrapped;
    an answer without error is the result. *)
Theorem ValidateRegistryOwnerAuth_cases (token : string) :
  let p := auth_service.ValidateRegistryOwnerAuth sentinel_text owner token in
  (owner = "" ->
   p = Ret (false, Some (errors_New "registry owner GitHub username not configured")))
  /\ (owner <> "" ->
      gh_calls (trace_of (exec gh p s)) = [GValidateTokenForOwner token owner]
      /\ (forall valid e,
            (gh _ (gh_ValidateTokenForOwner token owner) s).1 = (valid, Some e) ->
            result_of (exec gh p s)
            = (false, Some (errors_New ("failed to validate registry owner token: "
                                        +:+ Error sentinel_text e))))
      /\ (forall valid,
            (gh _ (gh_ValidateTokenForOwner token owner) s).1 = (valid, None) ->
            result_of (exec gh p s) = (valid, None))).
Proof.
  cbv zeta. unfold auth_service.ValidateRegistryOwnerAuth. split.
  - by intros ->.
  - intros Hne. destruct (String.eqb_spec owner ""); [done|]. cbn.
    destruct (gh _ _ s) as [[valid err] s1]. cbn.
    destruct err as [e|]; cbn; repeat split; intros; by simplify_eq.
Qed.

(** X23: ValidateEphemeralOrOwnerToken.  A token that validateEphemeralToken
    accepts is accepted with its claims and GitHub is not asked; any other
    token is accepted, without claims, exactly when the owner check asked
    GitHub and GitHub answered yes without error.  In every case the result
    is positive exactly when it has no error, and claims come only with a
    positive result. *)
Theorem ValidateEphemeralOrOwnerToken_cases (now : Time) (token : string) :
  let p := auth_service.ValidateEphemeralOrOwnerToken hmac Marshal_claims
             Unmarshal_token sentinel_text owner secret now token in
  let v := auth.validateEphemeralToken hmac Marshal_claims Unmarshal_token
             sentinel_text secret now token in
  let out := result_of (exec gh p s) in
  (forall claims, v = (Some claims, None) -> p = Ret (true, Some claims, None))
  /\ (v.2 <> None ->
      out.1.2 = None
      /\ (out.1.1 = true <->
          owner <> ""
          /\ List.map check_answer (trace_of (exec gh p s)) = [Some (true, None)])
      /\ gh_calls (trace_of (exec gh p s))
         = (if String.eqb owner "" then []
            else [GValidateTokenForOwner token owner]))
  /\ (out.1.1 = true <-> out.2 = None)
  /\ (out.1.2 <> None -> out.1.1 = true).
Proof.
  cbv zeta. unfold auth_service.ValidateEphemeralOrOwnerToken.
  destruct (validateEphemeralToken_shape hmac Marshal_claims Unmarshal_token
              sentinel_text secret now token) as [[claims Hv] | [e Hv]]; rewrite Hv.
  - split; [intros ? [= <-]; reflexivity|]. cbn. repeat split; try done.
  - split; [intros ? [=]|].
    unfold auth_service.ValidateRegistryOwnerAuth.
    destruct (String.eqb_spec owner "") as [-> | Hne]; cbn.
    + repeat split; try done. by intros (? & _).
    + destruct (gh _ _ s) as [[valid err] s1]. cbn.
      destruct err as [e'|]; cbn; [|destruct valid; cbn];
        repeat split; try done; try (intros (_ & [=])); by intros [=].
Qed.
End AuthService.

Section IssueToken.
Context (hmac : string -> string -> string)
        (Marshal_claims : EphemeralTokenClaims -> string * option error)
        (Marshal_token : EphemeralToken -> string * option error)
        (Unmarshal_token : string -> EphemeralToken * option error)
        (sentinel_text : error -> string)
        (Unmarshal_user : string -> (Z * string) * option error)
        (owner secret : string).
Context {S : Type} (gh : Impl GitHub S) (s : S).

(** X24: GenerateEphemeralTokenForGitHubUser issues a token only for a
    user GitHub vouches for.  It asks GitHub at most once, for the user of
    the given token; when it returns no error, GitHub answered that request
    with status 200 and a body that parsed into an id and a login, and the
    token is the one generateEphemeralToken makes for that id (in decimal)
    and login with a lifetime of one hour.  With an error the token is
    empty. *)
Theorem ephemeral_token_only_for_github_users
    (NewRequest : option error) (rand_Read : string * option error) (now : Time)
    (githubToken : string) :
  let out := exec gh (auth_service.GenerateEphemeralTokenForGitHubUser hmac
                        Marshal_claims Marshal_token sentinel_text Unmarshal_user
                        secret NewRequest rand_Read now githubToken) s in
  (gh_calls (trace_of out) = [] \/ gh_calls (trace_of out) = [GGetUser githubToken])
  /\ ((result_of out).2 = None ->
      exists body ID Login,
        NewRequest = None
        /\ List.map get_user_answer (trace_of out)
           = [Some (None, StatusOK, (body, None))]
        /\ Unmarshal_user body = ((ID, Login), None)
        /\ auth.generateEphemeralToken hmac Marshal_claims Marshal_token
             sentinel_text secret rand_Read now (strconv_Itoa ID) Login time_Hour
           = ((result_of out).1, None))
  /\ ((result_of out).2 <> None -> (result_of out).1 = "").
Proof.
  cbv zeta. unfold auth_service.GenerateEphemeralTokenForGitHubUser.
  destruct NewRequest as [e|]; [cbn; repeat split; [by left | done]|].
  cbn. destruct (gh _ _ s) as [[[err code] [body berr]] s1]. cbn.
  destruct err as [e|]; [cbn; repeat split; [by right | done]|].
  destruct (Z.eqb_spec code StatusOK) as [-> | Hc]; cbn [negb];
    [|cbn; repeat split; [by right | done]].
  destruct berr as [e|]; [cbn; repeat split; [by right | done]|].
  destruct (Unmarshal_user body) as [[ID Login] uerr] eqn:Hu.
  destruct uerr as [e|]; [cbn; repeat split; [by right | done]|].
  destruct (auth.generateEphemeralToken _ _ _ _ _ _ _ _ _ _) as [tok gerr] eqn:Hg.
  destruct gerr as [e|]; [cbn; repeat split; [by right | done]|].
  cbn. split; [by right|].
  cbn. split; [|done]. intros _. exists body, ID, Login. by rewrite Hu.
Qed.

(** X25: the authorize flow end to end.  When GitHub answers the request
    for the user of a token with status 200 and a body that parses, the
    token GenerateEphemeralTokenForGitHubUser issues at [now] is accepted by
    ValidateEphemeralOrOwnerToken, without asking GitHub and with the claims
    of that user, at every time up to one hour after [now]; after that hour
    validateEphemeralToken refuses it as expired.  The JSON library is
    assumed to marshal the claims and the token and to read the token
    back. *)
Theorem issued_token_is_accepted_for_an_hour
    (nonce githubToken body Login claimsJSON tokenJSON : string) (ID : Z)
    (now : Time) :
  let claims := {| GitHubUserID := strconv_Itoa ID; GitHubUsername := Login;
                   IssuedAt := now; ExpiresAt := now + time_Hour;
                   Nonce := base64_EncodeToString nonce |} in
  let token := {| Claims := claims;
                  Signature := base64_EncodeToString (hmac secret claimsJSON) |} in
  let issued := (result_of
                   (exec gh (auth_service.GenerateEphemeralTokenForGitHubUser hmac
                               Marshal_claims Marshal_token sentinel_text
                               Unmarshal_user secret None (nonce, None) now
                               githubToken) s)).1 in
  (gh _ (gh_GetUser githubToken) s).1 = (None, StatusOK, (body, None)) ->
  Unmarshal_user body = ((ID, Login), None) ->
  Marshal_claims claims = (claimsJSON, None) ->
  Marshal_token token = (tokenJSON, None) ->
  Unmarshal_token tokenJSON = (token, None) ->
  (forall t, t <= now + time_Hour ->
     auth_service.ValidateEphemeralOrOwnerToken hmac Marshal_claims Unmarshal_token
       sentinel_text owner secret t issued
     = Ret (true, Some claims, None))
  /\ (forall t, now + time_Hour < t ->
        auth.validateEphemeralToken hmac Marshal_claims Unmarshal_token
          sentinel_text secret t issued
        = (None, Some (errors_New "token has expired"))).
Proof.
  cbv zeta. intros Hgh Hu Hc Ht Hr.
  assert (Hissued :
    (result_of
       (exec gh (auth_service.GenerateEphemeralTokenForGitHubUser hmac
                   Marshal_claims Marshal_token sentinel_text Unmarshal_user
                   secret None (nonce, None) now githubToken) s)).1
    = base64_EncodeToString tokenJSON).
  { unfold auth_service.GenerateEphemeralTokenForGitHubUser.
    cbn -[auth.generateEphemeralToken].
    destruct (gh _ _ s) as [[[err code] [b berr]] s1]. cbn in Hgh. simplify_eq.
    cbn -[auth.generateEphemeralToken]. rewrite Hu.
    by rewrite (generateEphemeralToken_ok hmac Marshal_claims Marshal_token
                  sentinel_text secret nonce (strconv_Itoa ID) Login now time_Hour
                  _ _ Hc Ht). }
  rewrite Hissued.
  assert (Hv : forall t,
    auth.validateEphemeralToken hmac Marshal_claims Unmarshal_token sentinel_text
      secret t (base64_EncodeToString tokenJSON)
    = if now + time_Hour <? t
      then (None, Some (errors_New "token has expired"))
      else (Some {| GitHubUserID := strconv_Itoa ID; GitHubUsername := Login;
                    IssuedAt := now; ExpiresAt := now + time_Hour;
                    Nonce := base64_EncodeToString nonce |}, None)).
  { intros t.
    rewrite (validateEphemeralToken_encoded hmac Marshal_claims Unmarshal_token
               sentinel_text secret t _ claimsJSON _ Hr Hc).
    cbn [Signature Claims ExpiresAt]. by rewrite String.eqb_refl. }
  split; intros t Hle.
  - unfold auth_service.ValidateEphemeralOrOwnerToken. rewrite Hv.
    destruct (Z.ltb_spec (now + time_Hour) t); [lia | reflexivity].
  - rewrite Hv. destruct (Z.ltb_spec (now + time_Hour) t); [reflexivity | lia].
Qed.
End IssueToken.

Lemma ephemeral_token_only_for_github_users_witness :
  (result_of (exec sample_github (sample_Generate 1000 "gho_octocat") tt)).2 = None
  /\ exists body ID Login,
       List.map get_user_answer
         (trace_of (exec sample_github (sample_Generate 1000 "gho_octocat") tt))
       = [Some (None, StatusOK, (body, None))]
       /\ sample_Unmarshal_user body = ((ID, Login), None).
Proof.
  split; [vm_compute; reflexivity|].
  destruct (ephemeral_token_only_for_github_users sample_hmac sample_Marshal_claims
              sample_Marshal_token sample_sentinel_text sample_Unmarshal_user
              "secret" sample_github tt None ("0123456789abcdef", None) 1000
              "gho_octocat") as (_ & H & _).
  destruct (H ltac:(vm_compute; reflexivity)) as (body & ID & Login & _ & Ha & Hu & _).
  exists body, ID, Login. split; assumption.
Defined.

Lemma issued_token_is_accepted_for_an_hour_witness :
  let issued := (result_of
                   (exec sample_github (sample_Generate 1000 "gho_octocat") tt)).1 in
  (exists claims, sample_ValidateEither "" (1000 + time_Hour) issued
                  = Ret (true, Some claims, None)
                  /\ GitHubUsername claims = "octocat")
  /\ auth.validateEphemeralToken sample_hmac sample_Marshal_claims
       sample_Unmarshal_token sample_sentinel_text "secret" (1001 + time_Hour) issued
     = (None, Some (errors_New "token has expired")).
Proof.
  cbv zeta.
  destruct (issued_token_is_accepted_for_an_hour sample_hmac sample_Marshal_claims
              sample_Marshal_token sample_Unmarshal_token sample_sentinel_text
              sample_Unmarshal_user "" "secret" sample_github tt
              "0123456789abcdef" "gho_octocat" "octocat" "octocat" _ _ 583231 1000
              eq_refl eq_refl eq_refl eq_refl ltac:(vm_compute; reflexivity))
    as [Hin Hout].
  split.
  - eexists. split; [apply Hin; lia | reflexivity].
  - apply Hout. lia.
Defined.

(* --------------------------------------------------------------------- *)
(** ** The authorize endpoint                                             *)
(* --------------------------------------------------------------------- *)

Section Authorize.
Context (sentinel_text : error -> string)
        (Decode : string * option error -> AuthorizeRequest * option error).
Context {S : Type} (svc : Impl AuthService S) (s : S).

(** X26: AuthorizeHandler.  The auth service is asked at most once, and
    only by a POST request whose body decoded to a non-empty GitHub token,
    which is the token passed on.  The response is 200 exactly when the
    service was asked and answered without error; it then carries the
    service's token and an expiry of 3600 seconds, which is the hour
    GenerateEphemeralTokenForGitHubUser makes tokens last.  An error of the
    service gives 401; every other failure is 405 or 400. *)
Theorem AuthorizeHandler_response (r : Request) :
  let out := exec svc (authorize.AuthorizeHandler sentinel_text Decode r) s in
  (as_calls (trace_of out) <> [] ->
   Method r = "POST"
   /\ exists req, Decode (Body r) = (req, None)
                  /\ GitHubToken req <> ""
                  /\ as_calls (trace_of out) = [GitHubToken req])
  /\ (authorize_status (result_of out) = StatusOK <->
      exists token, as_answers (trace_of out) = [(token, None)]
                    /\ result_of out
                       = AuthorizeOK {| Resp_EphemeralToken := token;
                                        ExpiresIn := 3600 |})
  /\ (authorize_status (result_of out) = StatusUnauthorized <->
      exists token e, as_answers (trace_of out) = [(token, Some e)])
  /\ (trace_of out = [] ->
      authorize_status (result_of out) = StatusMethodNotAllowed
      /\ Method r <> "POST"
      \/ authorize_status (result_of out) = StatusBadRequest)
  /\ 3600 * time_Second = time_Hour.
Proof.
  cbv zeta. unfold authorize.AuthorizeHandler.
  destruct (String.eqb_spec (Method r) "POST") as [HP | HP]; cbn [negb].
  2: { cbn. repeat split; try done; try (by intros (? & ? & ?));
         try (by intros (? & ?)). by left. }
  destruct (Decode (Body r)) as [req derr] eqn:Hd.
  destruct derr as [e|].
  { cbn. repeat split; try done; try (by intros (? & ? & ?));
      try (by intros (? & ?)). by right. }
  destruct (String.eqb_spec (GitHubToken req) "") as [He | He].
  { cbn. repeat split; try done; try (by intros (? & ? & ?));
      try (by intros (? & ?)). by right. }
  cbn. destruct (svc _ _ s) as [[token err] s1]. cbn.
  destruct err as [e|]; cbn.
  - repeat split; try done; eauto.
    + by intros (? & ? & ?).
  - repeat split; try done; eauto.
    + by intros (? & ? & ?).
Qed.
End Authorize.

Lemma AuthorizeHandler_response_witness :
  let r := {| Method := "POST"; URL_Query := ∅; Header_Authorization := "";
              Body := ("gho_octocat", None) |} in
  let out := exec (sample_auth_service 1000)
               (authorize.AuthorizeHandler sample_sentinel_text sample_Decode r) tt in
  as_calls (trace_of out) <> []
  /\ Method r = "POST"
  /\ exists req, sample_Decode (Body r) = (req, None)
                 /\ as_calls (trace_of out) = [GitHubToken req].
Proof.
  cbv zeta. split; [vm_compute; discriminate|].
  destruct (AuthorizeHandler_response sample_sentinel_text sample_Decode
              (sample_auth_service 1000) tt
              {| Method := "POST"; URL_Query := ∅; Header_Authorization := "";
                 Body := ("gho_octocat", None) |}) as (H & _).
  destruct (H ltac:(vm_compute; discriminate)) as (HP & req & Hd & _ & Hc).
  split; [exact HP|]. exists req. split; assumption.
Defined.

(* --------------------------------------------------------------------- *)
(** ** The tokens the publish endpoint passes to GitHub                   *)
(* --------------------------------------------------------------------- *)

Section TokensToGitHub.
Context (hmac : string -> string -> string)
        (Marshal_claims : EphemeralTokenClaims -> string * option error)
        (Unmarshal_token : string -> EphemeralToken * option error)
        (sentinel_text : error -> string)
        (registry_owner secret : string) (auth_time : Time).
Context {G : Type} (gh : Impl GitHub G) (g : G).
Context (TrimSpace : string -> string)
        (Unmarshal : string -> PublishOSSRequest * option error) (is_impl : bool)
        (rand_Read : string * option error) (now : string) (r : Request).

End TokensToGitHub.


(* --------------------------------------------------------------------- *)
(** ** The properties at sample requests                                  *)
(* --------------------------------------------------------------------- *)

Ltac sample_publish_run :=
  cbv zeta;
  match goal with
  | |- context [exec ?reg (sample_PublishOSSHandler ?r) ?st] =>
      set (run := exec reg (sample_PublishOSSHandler r) st)
  end.

Lemma registry_reached_only_when_authenticated_witness :
  let r := post_request "https://github.com/acme/tool" in
  trace_of (exec (service_over memdb.impl) (sample_PublishOSSHandler r) sample_store)
  <> []
  /\ exists claims,
       sample_Validate (auth.ParseAuthorizationHeader (Header_Authorization r))
       = (true, claims, None).
Proof.
  cbv zeta. split; [vm_compute; discriminate|].
  destruct (registry_reached_only_when_authenticated sample_sentinel_text
              (fun s => s) sample_Validate sample_Unmarshal true sample_Fetch
              sample_rand "2025-05-25T00:00:00Z" (service_over memdb.impl)
              sample_store (post_request "https://github.com/acme/tool"))
    as (H & _).
  destruct (H ltac:(vm_compute; discriminate)) as (_ & _ & Hc). exact Hc.
Defined.

Lemma registry_reached_only_with_valid_payload_witness :
  let r := post_request "https://github.com/acme/tool" in
  trace_of (exec (service_over memdb.impl) (sample_PublishOSSHandler r) sample_store)
  <> []
  /\ exists body ossReq,
       Body r = (body, None) /\ sample_Unmarshal body = (ossReq, None)
       /\ RepositoryURL ossReq <> "" /\ Req_Packages ossReq <> []
       /\ Forall package_complete (Req_Packages ossReq).
Proof.
  cbv zeta. split; [vm_compute; discriminate|].
  apply (registry_reached_only_with_valid_payload sample_sentinel_text
           (fun s => s) sample_Validate sample_Unmarshal true sample_Fetch
           sample_rand "2025-05-25T00:00:00Z" (service_over memdb.impl)
           sample_store (post_request "https://github.com/acme/tool")).
  vm_compute; discriminate.
Defined.

Lemma published_record_shape_witness :
  let run := exec (service_over memdb.impl)
               (sample_PublishOSSHandler (post_request "https://github.com/acme/tool"))
               sample_store in
  let sd := second_published (reg_calls (trace_of run)) in
  In (RPublish sd) (reg_calls (trace_of run))
  /\ exists d,
       sd = Some d
       /\ reg_calls (trace_of run)
          = [RSearch (Server_Name (Detail_Server d)) "" "" "" 1; RPublish (Some d)]
       /\ Remotes d = [] /\ Packages d <> [].
Proof.
  cbv zeta.
  set (run := exec (service_over memdb.impl)
                (sample_PublishOSSHandler (post_request "https://github.com/acme/tool"))
                sample_store).
  assert (Hin : In (RPublish (second_published (reg_calls (trace_of run))))
                  (reg_calls (trace_of run)))
    by (vm_compute; right; left; reflexivity).
  split; [exact Hin|].
  destruct (published_record_shape sample_sentinel_text
              (fun s => s) sample_Validate sample_Unmarshal true sample_Fetch
              sample_rand "2025-05-25T00:00:00Z" (service_over memdb.impl)
              sample_store (post_request "https://github.com/acme/tool") _ Hin)
    as (d & body & ossReq & Hsd & Hcalls & _ & _ & _ & _ & Hrem & _ & _ & _ & Hne & _).
  exists d. repeat split; assumption.
Defined.

Lemma owner_and_repo_fields_override_url_witness :
  let r := post_request "https://github.com/acme/tool" in
  let run := exec (service_over memdb.impl) (sample_PublishOSSHandler r) sample_store in
  trace_of run <> []
  /\ exists owner repo,
       v0.extractGitHubRepo (fun s => s) "https://github.com/acme/tool"
       = (owner, repo, None)
       /\ hd_error (reg_calls (trace_of run))
          = Some (RSearch ("io.github." +:+ owner +:+ "/" +:+ repo) "" "" "" 1).
Proof.
  cbv zeta. split; [vm_compute; discriminate|].
  refine (proj2 (owner_and_repo_fields_override_url sample_sentinel_text
                   (fun s => s) sample_Validate sample_Unmarshal true sample_Fetch
                   sample_rand "2025-05-25T00:00:00Z" (service_over memdb.impl)
                   sample_store (post_request "https://github.com/acme/tool")
                   "https://github.com/acme/tool" _ _ eq_refl eq_refl) _).
  - vm_compute; discriminate.
  - left. reflexivity.
Defined.

Lemma created_iff_publish_succeeded_witness :
  let run := exec (service_over memdb.impl)
               (sample_PublishOSSHandler (post_request "https://github.com/acme/tool"))
               sample_store in
  existsb publish_succeeded (trace_of run) = true
  /\ StatusCode (result_of run) = StatusCreated.
Proof.
  cbv zeta.
  assert (Hp : existsb publish_succeeded
                 (trace_of (exec (service_over memdb.impl)
                              (sample_PublishOSSHandler
                                 (post_request "https://github.com/acme/tool"))
                              sample_store)) = true)
    by (vm_compute; reflexivity).
  split; [exact Hp|].
  apply (proj1 (created_iff_publish_succeeded sample_sentinel_text
                  (fun s => s) sample_Validate sample_Unmarshal true sample_Fetch
                  sample_rand "2025-05-25T00:00:00Z" (service_over memdb.impl)
                  sample_store (post_request "https://github.com/acme/tool"))).
  exact Hp.
Defined.

Lemma publish_error_status_witness :
  let run := exec (service_over memdb.impl)
               (sample_PublishOSSHandler (post_request "https://github.com/acme/tool.git"))
               acme_store in
  List.map publish_error (trace_of run) = [None; Some ErrAlreadyExists]
  /\ result_of run = http_Error "Server already exists in registry" StatusConflict.
Proof.
  cbv zeta.
  set (run := exec (service_over memdb.impl)
                (sample_PublishOSSHandler
                   (post_request "https://github.com/acme/tool.git")) acme_store).
  split; [vm_compute; reflexivity|].
  set (ev := nth 1 (trace_of run) (Ev (reg_GetByID "") (None, None))).
  assert (Hin : In ev (trace_of run)) by (vm_compute; right; left; reflexivity).
  refine (eq_trans (publish_error_status sample_sentinel_text
             (fun s => s) sample_Validate sample_Unmarshal true sample_Fetch
             sample_rand "2025-05-25T00:00:00Z" (service_over memdb.impl)
             acme_store (post_request "https://github.com/acme/tool.git") ev
             ErrAlreadyExists Hin ltac:(vm_compute; reflexivity)) _).
  vm_compute. reflexivity.
Defined.

Lemma validateEphemeralToken_sound_witness :
  let issued := (sample_generate 1000 "octocat" time_Hour).1 in
  exists claims,
    (sample_validate 2000 issued).1 = Some claims
    /\ exists tokenJSON token claimsJSON,
         base64_DecodeString issued = (tokenJSON, None)
         /\ sample_Unmarshal_token tokenJSON = (token, None)
         /\ Claims token = claims
         /\ sample_Marshal_claims claims = (claimsJSON, None)
         /\ Signature token = base64_EncodeToString (sample_hmac "secret" claimsJSON)
         /\ 2000 <= ExpiresAt claims.
Proof.
  cbv zeta.
  destruct (sample_validate 2000 (sample_generate 1000 "octocat" time_Hour).1).1
    as [claims|] eqn:Hv; [|vm_compute in Hv; discriminate Hv].
  exists claims. split; [reflexivity|].
  apply (proj2 (validateEphemeralToken_sound sample_hmac sample_Marshal_claims
                  sample_Unmarshal_token sample_sentinel_text "secret" 2000
                  (sample_generate 1000 "octocat" time_Hour).1) claims Hv).
Defined.

Lemma ValidateAuth_dispatch_witness :
  let a := {| Auth_Method := "github"; Auth_Token := "gho_octocat";
              Auth_RepoRef := "octocat/tool" |} in
  let out := exec sample_github (auth_service.ValidateAuth "github" "none" a) tt in
  (result_of out).1 = true
  /\ List.map check_answer (trace_of out) = [Some (true, (result_of out).2)].
Proof.
  cbv zeta. split; [vm_compute; reflexivity|].
  destruct (ValidateAuth_dispatch "github" "none" sample_github tt
              {| Auth_Method := "github"; Auth_Token := "gho_octocat";
                 Auth_RepoRef := "octocat/tool" |}) as (_ & _ & _ & H).
  exact (proj2 (H ltac:(vm_compute; reflexivity))).
Defined.

Lemma ValidateRegistryOwnerAuth_cases_witness :
  gh_calls (trace_of (exec sample_github
                        (auth_service.ValidateRegistryOwnerAuth sample_sentinel_text
                           "octocat" "gho_octocat") tt))
  = [GValidateTokenForOwner "gho_octocat" "octocat"]
  /\ result_of (exec sample_github
                  (auth_service.ValidateRegistryOwnerAuth sample_sentinel_text
                     "octocat" "gho_octocat") tt) = (true, None).
Proof.
  destruct (ValidateRegistryOwnerAuth_cases sample_sentinel_text "octocat"
              sample_github tt "gho_octocat") as (_ & H).
  destruct (H ltac:(discriminate)) as (Hc & _ & Hr).
  split; [exact Hc|]. apply Hr. vm_compute. reflexivity.
Defined.

Lemma ValidateEphemeralOrOwnerToken_cases_witness :
  let issued := (sample_generate 1000 "octocat" time_Hour).1 in
  exists claims,
    sample_validate 2000 issued = (Some claims, None)
    /\ sample_ValidateEither "octocat" 2000 issued = Ret (true, Some claims, None).
Proof.
  cbv zeta.
  destruct (sample_validate 2000 (sample_generate 1000 "octocat" time_Hour).1)
    as [[claims|] [e|]] eqn:Hv; try (vm_compute in Hv; discriminate Hv).
  exists claims. split; [reflexivity|].
  apply (proj1 (ValidateEphemeralOrOwnerToken_cases sample_hmac sample_Marshal_claims
                  sample_Unmarshal_token sample_sentinel_text "octocat" "secret"
                  sample_github tt 2000
                  (sample_generate 1000 "octocat" time_Hour).1) claims Hv).
Defined.
